(** * salary_brief: monthly salaries and salary statistics

    A shallow embedding of [salary_accounting.py]: the salary calculator
    [calculate_monthly_salaries] and the two aggregators
    [global_company_statistics] and [subsidiary_company_statistics].
    With them come the report of [display_results.py], the CSV export of
    [export_data.py] and the program of [main.py] that runs all of them, as
    the sequence of lines they print and rows they write.

    Python values are modelled as the interpreter has them: [int] is an
    unbounded integer ([Z]), [float] is an IEEE-754 binary64 number (the
    Standard Library's [spec_float] with a 53-bit significand and maximal
    exponent 1024), a [dict] is an insertion-ordered association list with
    unique keys, and an exception is the error case of a result type. *)

From Stdlib Require Import ZArith NArith List String Ascii Bool Lia SpecFloat.
From Stdlib Require Import DecimalString Permutation Sorted.
Import ListNotations.

Local Open Scope Z_scope.

(** ** Exceptions and results *)

Inductive exn : Type :=
| KeyError (key : string)
| OverflowError
| ValueError
| ZeroDivisionError.

Inductive result (A : Type) : Type :=
| Ok (a : A)
| Raise (e : exn).

Arguments Ok {A} a.
Arguments Raise {A} e.

Definition bind {A B : Type} (c : result A) (k : A -> result B) : result B :=
  match c with
  | Ok a => k a
  | Raise e => Raise e
  end.

Declare Scope py_scope.
Delimit Scope py_scope with py.
Notation "x <- c ;; k" := (bind c (fun x => k))
  (at level 61, c at next level, right associativity) : py_scope.
Notation "' p <- c ;; k" := (bind c (fun p => k))
  (at level 61, p pattern, c at next level, right associativity) : py_scope.
Local Open Scope py_scope.

(** ** Python numbers *)

Module Py.

(** binary64 *)
Definition prec : Z := 53.
Definition emax : Z := 1024.

Inductive number : Type :=
| PyInt (z : Z)
| PyFloat (f : spec_float).

(** The integer [z] as a float operand: a significand of any width at
    exponent 0 (not rounded). *)
Definition Z2SF (z : Z) : spec_float :=
  match z with
  | Z0 => S754_zero false
  | Zpos p => S754_finite false p 0
  | Zneg p => S754_finite true p 0
  end.

(** Conversion of an [int] operand in mixed arithmetic: rounded to the
    nearest float, ties to even; an [int] that rounds past the largest
    float raises [OverflowError]. *)
Definition float_of_int (z : Z) : result spec_float :=
  match binary_normalize prec emax z 0 false with
  | S754_infinity _ => Raise OverflowError
  | f => Ok f
  end.

Definition as_float (x : number) : result spec_float :=
  match x with
  | PyInt z => float_of_int z
  | PyFloat f => Ok f
  end.

(** [x * y], [x + y], [x - y]: exact on two ints, otherwise the int
    operand is converted and the float operation applied. *)
Definition arith (fz : Z -> Z -> Z) (ff : spec_float -> spec_float -> spec_float)
           (x y : number) : result number :=
  match x, y with
  | PyInt a, PyInt b => Ok (PyInt (fz a b))
  | _, _ =>
      a <- as_float x ;;
      b <- as_float y ;;
      Ok (PyFloat (ff a b))
  end.

Definition mul : number -> number -> result number := arith Z.mul (SFmul prec emax).
Definition add : number -> number -> result number := arith Z.add (SFadd prec emax).
Definition sub : number -> number -> result number := arith Z.sub (SFsub prec emax).

(** Comparison of a float with an int is made on the exact values, without
    converting the int. *)
Definition SFcompare_Z (f : spec_float) (z : Z) : option comparison :=
  match f with
  | S754_nan => None
  | S754_infinity s => Some (if s then Lt else Gt)
  | S754_zero _ => Some (0 ?= z)
  | S754_finite s m e =>
      let v := cond_Zopp s (Zpos m) in
      if 0 <=? e then Some (v * 2 ^ e ?= z) else Some (v ?= z * 2 ^ (- e))
  end.

Definition compare (x y : number) : option comparison :=
  match x, y with
  | PyInt a, PyInt b => Some (a ?= b)
  | PyFloat f, PyFloat g => SFcompare f g
  | PyFloat f, PyInt b => SFcompare_Z f b
  | PyInt a, PyFloat g => option_map CompOpp (SFcompare_Z g a)
  end.

(** [x <= y], [x > y], [x == y]; a comparison with NaN is false. *)
Definition le (x y : number) : bool :=
  match compare x y with
  | Some Lt | Some Eq => true
  | _ => false
  end.

Definition gt (x y : number) : bool :=
  match compare x y with
  | Some Gt => true
  | _ => false
  end.

Definition eqb (x y : number) : bool :=
  match compare x y with
  | Some Eq => true
  | _ => false
  end.

(** [int(x)]: the integral part of a float, the fraction discarded;
    [ValueError] on NaN and [OverflowError] on an infinity. *)
Definition int (x : number) : result Z :=
  match x with
  | PyInt z => Ok z
  | PyFloat S754_nan => Raise ValueError
  | PyFloat (S754_infinity _) => Raise OverflowError
  | PyFloat (S754_zero _) => Ok 0
  | PyFloat (S754_finite s m e) =>
      Ok (cond_Zopp s (if 0 <=? e then Z.shiftl (Zpos m) e
                       else Z.shiftr (Zpos m) (- e)))
  end.

(** [math.floor(x)]: the largest integer not above [x]. *)
Definition floor (x : number) : result Z :=
  match x with
  | PyInt z => Ok z
  | PyFloat S754_nan => Raise ValueError
  | PyFloat (S754_infinity _) => Raise OverflowError
  | PyFloat (S754_zero _) => Ok 0
  | PyFloat (S754_finite s m e) =>
      Ok (if 0 <=? e then cond_Zopp s (Zpos m) * 2 ^ e
          else cond_Zopp s (Zpos m) / 2 ^ (- e))
  end.

(** [a / b] on two ints: the quotient correctly rounded to a float. *)
Definition truediv (a b : Z) : result number :=
  if b =? 0 then Raise ZeroDivisionError
  else match SFdiv prec emax (Z2SF a) (Z2SF b) with
       | S754_infinity _ => Raise OverflowError
       | f => Ok (PyFloat f)
       end.

(** [sum(l)] *)
Definition sum (l : list Z) : Z := fold_left Z.add l 0.

(** [max(l)] and [min(l)]: the first item, replaced by each later item
    that is strictly greater (smaller); [ValueError] on an empty list. *)
Definition max (l : list Z) : result Z :=
  match l with
  | [] => Raise ValueError
  | first :: rest =>
      Ok (fold_left (fun maxitem item => if maxitem <? item then item else maxitem)
                    rest first)
  end.

Definition min (l : list Z) : result Z :=
  match l with
  | [] => Raise ValueError
  | first :: rest =>
      Ok (fold_left (fun minitem item => if item <? minitem then item else minitem)
                    rest first)
  end.

Definition len {A : Type} (l : list A) : Z := Z.of_nat (List.length l).

(** The literal [1.5] *)
Definition float_1_5 : spec_float := S754_finite false 6755399441055744 (-52).

End Py.

(** ** Dictionaries

    A [dict] keeps its keys unique and iterates in insertion order. *)

Definition dict (V : Type) : Type := list (string * V).

Definition dict_keys {V : Type} (d : dict V) : list string := map fst d.

Definition dict_wf {V : Type} (d : dict V) : Prop := NoDup (dict_keys d).

Fixpoint dict_lookup {V : Type} (k : string) (d : dict V) : option V :=
  match d with
  | [] => None
  | (k', v) :: rest => if String.eqb k k' then Some v else dict_lookup k rest
  end.

(** [d[k]] *)
Definition dict_getitem {V : Type} (d : dict V) (k : string) : result V :=
  match dict_lookup k d with
  | Some v => Ok v
  | None => Raise (KeyError k)
  end.

(** [d[k] = v]: an existing key keeps its place, a new key goes last. *)
Fixpoint dict_setitem {V : Type} (d : dict V) (k : string) (v : V) : dict V :=
  match d with
  | [] => [(k, v)]
  | (k', v') :: rest =>
      if String.eqb k k' then (k', v) :: rest
      else (k', v') :: dict_setitem rest k v
  end.

(** ** Data model *)

(** A raw employee record: a dict whose entries may each be absent.  The
    calculator reads five of them and writes ["monthly_salary"]; entries
    under other keys are never looked at.  The wage entries hold numbers and
    ["name"] and ["job"] hold strings, as the roster's data model has them. *)
Module Raw.
Record t : Type := mk {
  name : option string;
  job : option string;
  hourly_rate : option Py.number;
  weekly_hours_worked : option Py.number;
  contract_hours : option Py.number;
  monthly_salary : option Py.number
}.

(** [r.get(key, 0)] on a numeric entry *)
Definition get (field : option Py.number) : Py.number :=
  match field with
  | Some v => v
  | None => Py.PyInt 0
  end.

(** [r[key]] *)
Definition getitem {A : Type} (key : string) (field : option A) : result A :=
  match field with
  | Some v => Ok v
  | None => Raise (KeyError key)
  end.

(** [r.update({"monthly_salary": v})] *)
Definition update_monthly_salary (r : t) (v : Py.number) : t :=
  {| name := name r;
     job := job r;
     hourly_rate := hourly_rate r;
     weekly_hours_worked := weekly_hours_worked r;
     contract_hours := contract_hours r;
     monthly_salary := Some v |}.
End Raw.

(** An entry of the calculator's output. *)
Module Emp.
Record t : Type := mk {
  name : string;
  job : string;
  monthly_salary : Z
}.
End Emp.

(** A statistics record; ["employee_salary"] is present in the
    per-subsidiary records only. *)
Module Stats.
Record t : Type := mk {
  average_salary : Py.number;
  highest_salary : Z;
  lowest_salary : Z;
  employee_salary : option (list Emp.t)
}.
End Stats.

Definition roster : Type := dict (list Raw.t).
Definition salary_map : Type := dict (list Emp.t).

(** ** The salary calculator

    The calculator writes into the records of its input (line 52), so the
    embedding threads the input through the call: every loop returns, next
    to its result, the records as it leaves them.  Records are passed by
    value.  The only entry the call writes, ["monthly_salary"], is written
    before it is read and is computed from entries the call never writes, so
    a record shared between two places of a roster would be left with the
    same content in both. *)

(** Lines 43-49: the monthly salary before conversion to [int]. *)
Definition monthly_salary_value
           (hourly_rate weekly_hours_worked contract_hours : Py.number)
  : result Py.number :=
  if Py.le weekly_hours_worked contract_hours then
    t <- Py.mul weekly_hours_worked hourly_rate ;;
    Py.mul t (Py.PyInt 4)
  else
    overtime_worked <- Py.sub weekly_hours_worked contract_hours ;;
    t <- Py.mul overtime_worked hourly_rate ;;
    overtime_salary <- Py.mul t (Py.PyFloat Py.float_1_5) ;;
    contract_salary <- Py.mul contract_hours hourly_rate ;;
    s <- Py.add contract_salary overtime_salary ;;
    Py.mul s (Py.PyInt 4).

(** The body of the inner loop (lines 37-57): returns the entry appended to
    [employee_list] and the record as the call leaves it. *)
Definition process_employee (employee_details : Raw.t) : result (Emp.t * Raw.t) :=
  let hourly_rate := Raw.get (Raw.hourly_rate employee_details) in
  let weekly_hours_worked := Raw.get (Raw.weekly_hours_worked employee_details) in
  let contract_hours := Raw.get (Raw.contract_hours employee_details) in
  monthly_salary <- monthly_salary_value hourly_rate weekly_hours_worked contract_hours ;;
  let employee_details := Raw.update_monthly_salary employee_details monthly_salary in
  name <- Raw.getitem "name" (Raw.name employee_details) ;;
  job <- Raw.getitem "job" (Raw.job employee_details) ;;
  v <- Raw.getitem "monthly_salary" (Raw.monthly_salary employee_details) ;;
  z <- Py.int v ;;
  Ok (Emp.mk name job z, employee_details).

(** The inner loop over [personnel_data], with [employee_list] as
    accumulator; also returns the records as the loop leaves them. *)
Fixpoint loop_employees (personnel_data : list Raw.t) (employee_list : list Emp.t)
  : result (list Emp.t * list Raw.t) :=
  match personnel_data with
  | [] => Ok (employee_list, [])
  | employee_details :: rest =>
      '(e, employee_details') <- process_employee employee_details ;;
      '(employee_list', rest') <- loop_employees rest (employee_list ++ [e]) ;;
      Ok (employee_list', employee_details' :: rest')
  end.

(** The outer loop over [employee_data.items()]. *)
Fixpoint loop_subsidiaries (items : list (string * list Raw.t))
         (employee_details_per_subsidiary : salary_map)
  : result (salary_map * roster) :=
  match items with
  | [] => Ok (employee_details_per_subsidiary, [])
  | (subsidiary_names, personnel_data) :: rest =>
      '(employee_list, personnel_data') <- loop_employees personnel_data [] ;;
      '(out, rest') <-
        loop_subsidiaries rest
          (dict_setitem employee_details_per_subsidiary subsidiary_names employee_list) ;;
      Ok (out, (subsidiary_names, personnel_data') :: rest')
  end.

(** Returns the output mapping together with the input roster as the call
    leaves it. *)
Definition calculate_monthly_salaries (employee_data : roster)
  : result (salary_map * roster) :=
  loop_subsidiaries employee_data [].

(** ** The aggregators *)

(** [[employee['monthly_salary'] for employee in employees]] *)
Definition salaries_of (employees : list Emp.t) : list Z :=
  map Emp.monthly_salary employees.

(** The comprehension of lines 90-94. *)
Fixpoint collect_salaries (salary_data : salary_map) (subsidiaries : list string)
  : result (list Z) :=
  match subsidiaries with
  | [] => Ok []
  | subsidiary :: rest =>
      employees <- dict_getitem salary_data subsidiary ;;
      more <- collect_salaries salary_data rest ;;
      Ok (salaries_of employees ++ more)
  end.

Definition global_company_statistics (salary_data : salary_map) : result Stats.t :=
  let subsidiaries := dict_keys salary_data in
  all_salaries <- collect_salaries salary_data subsidiaries ;;
  match all_salaries with
  | _ :: _ =>
      average <- Py.truediv (Py.sum all_salaries) (Py.len all_salaries) ;;
      highest <- Py.max all_salaries ;;
      lowest <- Py.min all_salaries ;;
      Ok (Stats.mk average highest lowest None)
  | [] => Ok (Stats.mk (Py.PyInt 0) 0 0 None)
  end.

(** The loop of lines 139-148, with [subsidiary_employee_statistics] as
    accumulator. *)
Fixpoint loop_statistics (salary_data : salary_map) (subsidiaries : list string)
         (subsidiary_employee_statistics : dict Stats.t) : result (dict Stats.t) :=
  match subsidiaries with
  | [] => Ok subsidiary_employee_statistics
  | subsidiary :: rest =>
      employees <- dict_getitem salary_data subsidiary ;;
      let all_employee_salaries := salaries_of employees in
      match all_employee_salaries with
      | _ :: _ =>
          average <- Py.truediv (Py.sum all_employee_salaries)
                                (Py.len all_employee_salaries) ;;
          highest <- Py.max all_employee_salaries ;;
          lowest <- Py.min all_employee_salaries ;;
          employees' <- dict_getitem salary_data subsidiary ;;
          loop_statistics salary_data rest
            (dict_setitem subsidiary_employee_statistics subsidiary
               (Stats.mk average highest lowest (Some employees')))
      | [] => loop_statistics salary_data rest subsidiary_employee_statistics
      end
  end.

Definition subsidiary_company_statistics (salary_data : salary_map)
  : result (dict Stats.t) :=
  let subsidiaries := dict_keys salary_data in
  loop_statistics salary_data subsidiaries [].

(** ** Text

    A [str] is held as its UTF-8 encoding, so that the literals of the
    source are the literals here; what the formatting mini-language counts
    are code points. *)

Module Text.

(** A byte [10xxxxxx] continues a code point. *)
Definition continuation (c : ascii) : bool :=
  let n := N_of_ascii c in ((128 <=? n) && (n <? 192))%N.

(** [len(s)] *)
Fixpoint len (s : string) : nat :=
  match s with
  | EmptyString => O
  | String c rest => if continuation c then len rest else S (len rest)
  end.

Fixpoint spaces (n : nat) : string :=
  match n with
  | O => EmptyString
  | S k => String " " (spaces k)
  end.

(** [format(s, '<w')]: filled with spaces on the right up to [w] code
    points, never cut. *)
Definition ljust (w : nat) (s : string) : string := (s ++ spaces (w - len s))%string.

(** [str(n)] for [0 <= n] *)
Definition decimal (n : Z) : string := NilZero.string_of_uint (N.to_uint (Z.to_N n)).

(** [n / d] rounded to the nearest integer, a tie to the even one
    ([0 <= n], [0 < d]). *)
Definition round_half_even (n d : Z) : Z :=
  let q := n / d in
  match 2 * (n mod d) ?= d with
  | Lt => q
  | Gt => q + 1
  | Eq => if Z.even q then q else q + 1
  end.

(** The magnitude [m * 2^e] in hundredths, rounded to an integer. *)
Definition hundredths (m : positive) (e : Z) : Z :=
  if 0 <=? e then Z.pos m * 2 ^ e * 100
  else round_half_even (Z.pos m * 100) (2 ^ (- e)).

(** [q] hundredths in fixed notation with two decimals. *)
Definition fixed2 (negative : bool) (q : Z) : string :=
  let units := q / 100 in
  let cents := q mod 100 in
  let pad := cents <? 10 in
  ((if negative then "-" else "") ++ decimal units ++ "."
   ++ (if pad then "0" else "") ++ decimal cents)%string.

(** [format(f, '.2f')] on a float: the exact value rounded to two decimals,
    a tie to the even digit; the sign of a negative zero is kept. *)
Definition format_float_2f (f : spec_float) : string :=
  match f with
  | S754_nan => "nan"%string
  | S754_infinity s => if s then "-inf"%string else "inf"%string
  | S754_zero s => fixed2 s 0
  | S754_finite s m e => fixed2 s (hundredths m e)
  end.

(** [format(x, '.2f')]: an int is converted to a float first. *)
Definition format_2f (x : Py.number) : result string :=
  f <- Py.as_float x ;;
  Ok (format_float_2f f).

(** [round(x, 2)]: an int is returned as it is; a float becomes the float
    nearest to its value rounded to two decimals. *)
Definition round2 (x : Py.number) : result Py.number :=
  match x with
  | Py.PyInt z => Ok (Py.PyInt z)
  | Py.PyFloat (S754_finite s m e) =>
      let q := hundredths m e in
      if q =? 0 then Ok (Py.PyFloat (S754_zero s))
      else Py.truediv (cond_Zopp s q) 100
  | Py.PyFloat f => Ok (Py.PyFloat f)
  end.

Definition newline : string := String "010" EmptyString.
Definition quote : string := String "034" EmptyString.
End Text.

(** ** Sorting

    [sorted(l, key=key, reverse=True)]: descending by key, items with equal
    keys in the order they have in [l]. *)

(** [x] put in front of the first item whose key is not greater. *)
Fixpoint insert_reverse {A : Type} (key : A -> Z) (x : A) (l : list A) : list A :=
  match l with
  | [] => [x]
  | y :: rest =>
      if key x <? key y then y :: insert_reverse key x rest else x :: y :: rest
  end.

Definition sorted_reverse {A : Type} (key : A -> Z) (l : list A) : list A :=
  fold_right (insert_reverse key) [] l.

(** ** Output

    [display_results.py] prints and [export_data.py] writes rows through a
    [csv.writer]: a call of one of them is modelled by the events it causes,
    in order, together with its outcome.  An exception ends the call and
    leaves the events that came before it.  A row is recorded as the list of
    values handed to [writerow]; the characters the writer makes of them and
    failures of the file system are outside the model. *)

Inductive cell : Type :=
| CStr (s : string)
| CNum (x : Py.number).

Inductive event : Type :=
| Print (text : string)
| OpenFile (filename : string)
| WriteRow (row : list cell).

Definition io (A : Type) : Type := (list event * result A)%type.

Definition ret {A : Type} (a : A) : io A := ([], Ok a).

Definition emit (ev : event) : io unit := ([ev], Ok tt).

Definition lift {A : Type} (c : result A) : io A := ([], c).

Definition io_bind {A B : Type} (c : io A) (k : A -> io B) : io B :=
  match snd c with
  | Ok a => (fst c ++ fst (k a), snd (k a))
  | Raise e => (fst c, Raise e)
  end.

Notation "x <~ c ;; k" := (io_bind c (fun x => k))
  (at level 61, c at next level, right associativity) : py_scope.
Notation "c ;;; k" := (io_bind c (fun _ => k))
  (at level 61, right associativity) : py_scope.

(** [print(text)] *)
Definition print (text : string) : io unit := emit (Print text).

(** ** The report ([display_results.py]) *)

Definition rule : string :=
  "========================================================".

(** The f-string of line 33. *)
Definition employee_line (employee : Emp.t) : result string :=
  amount <- Text.format_2f (Py.PyInt (Emp.monthly_salary employee)) ;;
  Ok (Text.ljust 10 (Emp.name employee) ++ " | " ++ Text.ljust 15 (Emp.job employee)
      ++ " | Salaire mensuel: " ++ amount ++ "€")%string.

(** The loop of lines 32-33. *)
Fixpoint print_employees (sorted_employee_details : list Emp.t) : io unit :=
  match sorted_employee_details with
  | [] => ret tt
  | employee :: rest =>
      line <~ lift (employee_line employee) ;;
      print line ;;;
      print_employees rest
  end.

(** The body of the loop over the companies (lines 24-41). *)
Definition print_company (company : string) (statistics : Stats.t) : io unit :=
  print ("Entreprise: " ++ company) ;;;
  match Stats.employee_salary statistics with
  | Some ((_ :: _) as employees) =>
      print_employees (sorted_reverse Emp.monthly_salary employees)
  | _ => ret tt
  end ;;;
  print (Text.newline ++ rule) ;;;
  print ("Statistiques des salaires pour l'entreprise " ++ company ++ ":") ;;;
  average <~ lift (Text.format_2f (Stats.average_salary statistics)) ;;
  print ("Salaire moyen: " ++ average ++ "€") ;;;
  highest <~ lift (Text.format_2f (Py.PyInt (Stats.highest_salary statistics))) ;;
  print ("Salaire le plus élevé: " ++ highest ++ "€") ;;;
  lowest <~ lift (Text.format_2f (Py.PyInt (Stats.lowest_salary statistics))) ;;
  print ("Salaire le plus bas: " ++ lowest ++ "€") ;;;
  print (rule ++ Text.newline).

Fixpoint print_statistics (subsidiary_data : dict Stats.t) : io unit :=
  match subsidiary_data with
  | [] => ret tt
  | (company, statistics) :: rest =>
      print_company company statistics ;;;
      print_statistics rest
  end.

(** ** The CSV export ([export_data.py]) *)

Definition employee_header : list cell :=
  [CStr "Company"; CStr "Employee Name"; CStr "Job Title"; CStr "Monthly Salary (€)"].

Definition statistics_header : list cell :=
  [CStr "Company"; CStr "Average Salary (€)"; CStr "Highest Salary (€)";
   CStr "Lowest Salary (€)"].

(** The row of line 15. *)
Definition employee_row (subsidiary : string) (employee : Emp.t) : result (list cell) :=
  salary <- Text.round2 (Py.PyInt (Emp.monthly_salary employee)) ;;
  Ok [CStr subsidiary; CStr (Emp.name employee); CStr (Emp.job employee); CNum salary].

(** The row of line 25. *)
Definition statistics_row (subsidiary : string) (stats : Stats.t) : result (list cell) :=
  average <- Text.round2 (Stats.average_salary stats) ;;
  Ok [CStr subsidiary; CNum average; CNum (Py.PyInt (Stats.highest_salary stats));
      CNum (Py.PyInt (Stats.lowest_salary stats))].

(** The loop of lines 14-15. *)
Fixpoint write_employees (subsidiary : string) (employees : list Emp.t) : io unit :=
  match employees with
  | [] => ret tt
  | employee :: rest =>
      row <~ lift (employee_row subsidiary employee) ;;
      emit (WriteRow row) ;;;
      write_employees subsidiary rest
  end.

(** The loop of lines 12-15. *)
Fixpoint write_salaries (items : dict Stats.t) : io unit :=
  match items with
  | [] => ret tt
  | (subsidiary, stats) :: rest =>
      match Stats.employee_salary stats with
      | Some ((_ :: _) as employees) => write_employees subsidiary employees
      | _ => ret tt
      end ;;;
      write_salaries rest
  end.

(** The loop of lines 24-25. *)
Fixpoint write_statistics (items : dict Stats.t) : io unit :=
  match items with
  | [] => ret tt
  | (subsidiary, stats) :: rest =>
      row <~ lift (statistics_row subsidiary stats) ;;
      emit (WriteRow row) ;;;
      write_statistics rest
  end.

Definition default_filename : string := "salary_statistics_3_subsidiaries.csv".

Definition generate_csv (subsidiary_statistics : dict Stats.t) (filename : string)
  : io unit :=
  emit (OpenFile filename) ;;;
  emit (WriteRow employee_header) ;;;
  write_salaries subsidiary_statistics ;;;
  emit (WriteRow []) ;;;
  emit (WriteRow statistics_header) ;;;
  write_statistics subsidiary_statistics ;;;
  print ("CSV file " ++ Text.quote ++ filename ++ Text.quote ++ " generated successfully.").

(** ** The program ([main.py])

    [main] on the roster that [load_employee_data] returned. *)
Definition main (employee_data : roster) : io unit :=
  calculated <~ lift (calculate_monthly_salaries employee_data) ;;
  let global_employee_salaries := fst calculated in
  global_statistics <~ lift (global_company_statistics global_employee_salaries) ;;
  subsidiary_statistics <~ lift (subsidiary_company_statistics global_employee_salaries) ;;
  print_statistics subsidiary_statistics ;;;
  generate_csv subsidiary_statistics default_filename.

(** ** Specification-side notions *)

(** All salaries of a salary map, subsidiary after subsidiary. *)
Definition flatten_salaries (salary_data : salary_map) : list Z :=
  List.concat (map (fun kv => salaries_of (snd kv)) salary_data).

Definition is_maximum (l : list Z) (m : Z) : Prop :=
  In m l /\ Forall (fun x => x <= m) l.

Definition is_minimum (l : list Z) (m : Z) : Prop :=
  In m l /\ Forall (fun x => m <= x) l.

Definition total (l : list Z) : Z := fold_right Z.add 0 l.

(** Two dicts with the same keys in the same order and related values. *)
Definition dict_rel {A B : Type} (R : A -> B -> Prop) (d : dict A) (d' : dict B) : Prop :=
  Forall2 (fun x y => fst x = fst y /\ R (snd x) (snd y)) d d'.

(** [f] applied to each element in turn, stopping at the first exception. *)
Fixpoint mapM {A B : Type} (f : A -> result B) (l : list A) : result (list B) :=
  match l with
  | [] => Ok []
  | a :: rest =>
      b <- f a ;;
      bs <- mapM f rest ;;
      Ok (b :: bs)
  end.

(** The salary formulas as the specification words them. *)
Definition spec_regular_pay (weekly_hours_worked hourly_rate : Py.number)
  : result Py.number :=
  t <- Py.mul weekly_hours_worked hourly_rate ;;
  Py.mul t (Py.PyInt 4).

Definition spec_overtime_pay (hourly_rate weekly_hours_worked contract_hours : Py.number)
  : result Py.number :=
  contract_pay <- Py.mul contract_hours hourly_rate ;;
  overtime_hours <- Py.sub weekly_hours_worked contract_hours ;;
  t <- Py.mul overtime_hours hourly_rate ;;
  overtime_pay <- Py.mul t (Py.PyFloat Py.float_1_5) ;;
  s <- Py.add contract_pay overtime_pay ;;
  Py.mul s (Py.PyInt 4).


(** [z] is [n / d] with its fractional part discarded: no farther from zero
    than [n / d], less than one away from it, and on the same side of zero. *)
Definition truncation_of (n d z : Z) : Prop :=
  0 < d /\ Z.abs z * d <= Z.abs n < (Z.abs z + 1) * d /\ 0 <= z * n.


(** One subsidiary: every record processed in order. *)
Definition process_subsidiary (item : string * list Raw.t)
  : result (string * list (Emp.t * Raw.t)) :=
  ps <- mapM process_employee (snd item) ;; Ok (fst item, ps).

(** The record of one subsidiary with employees (lines 143-148). *)
Definition subsidiary_record (item : string * list Emp.t) : result (string * Stats.t) :=
  let all_employee_salaries := salaries_of (snd item) in
  average <- Py.truediv (Py.sum all_employee_salaries) (Py.len all_employee_salaries) ;;
  highest <- Py.max all_employee_salaries ;;
  lowest <- Py.min all_employee_salaries ;;
  Ok (fst item, Stats.mk average highest lowest (Some (snd item))).

Definition has_employees {A : Type} (item : string * list A) : bool :=
  match snd item with
  | [] => false
  | _ :: _ => true
  end.

(** Unique keys, as a check. *)
Fixpoint unique_keys (ks : list string) : bool :=
  match ks with
  | [] => true
  | k :: rest => negb (existsb (String.eqb k) rest) && unique_keys rest
  end.

(** What the calculator guarantees for one record and its output entry:
    the salary is the worded formula with its fraction discarded, which is
    the rounding down whenever the formula's value is not negative. *)
Definition salary_rule (r : Raw.t) (e : Emp.t) : Prop :=
  let hourly_rate := Raw.get (Raw.hourly_rate r) in
  let weekly_hours_worked := Raw.get (Raw.weekly_hours_worked r) in
  let contract_hours := Raw.get (Raw.contract_hours r) in
  (Py.le weekly_hours_worked contract_hours = true ->
   exists v, spec_regular_pay weekly_hours_worked hourly_rate = Ok v /\
             Py.int v = Ok (Emp.monthly_salary e) /\
             (Py.le (Py.PyInt 0) v = true -> Py.floor v = Ok (Emp.monthly_salary e))) /\
  (Py.gt weekly_hours_worked contract_hours = true ->
   exists v, spec_overtime_pay hourly_rate weekly_hours_worked contract_hours = Ok v /\
             Py.int v = Ok (Emp.monthly_salary e) /\
             (Py.le (Py.PyInt 0) v = true -> Py.floor v = Ok (Emp.monthly_salary e))).

(** The magnitude of a float lies between two integers. *)
Definition magnitude_between (L H : Z) (sign : bool) (f : spec_float) : Prop :=
  match f with
  | S754_zero s => s = sign /\ L <= 0
  | S754_finite s m e =>
      s = sign /\
      if 0 <=? e then L <= Z.pos m * 2 ^ e <= H
      else L * 2 ^ (- e) <= Z.pos m <= H * 2 ^ (- e)
  | _ => False
  end.

(** The canonical binary64 form of [m * 2^e], for [m] of at most 53 bits in
    the normal range. *)
Definition canon (m : positive) (e : Z) : spec_float :=
  let d := Z.pos (digits2_pos m) in
  S754_finite false (Z.to_pos (Z.pos m * 2 ^ (53 - d))) (e + d - 53).

Definition repr (v e : Z) : spec_float :=
  match v with
  | Z.pos m => canon m e
  | _ => S754_zero false
  end.

(** A finite float in canonical form whose magnitude is at most [2^K]. *)
Definition small_float (K : Z) (f : spec_float) : bool :=
  match f with
  | S754_zero _ => true
  | S754_finite _ m e =>
      canonical_mantissa Py.prec Py.emax m e && (Z.pos m <=? 2 ^ (K - e))
  | _ => false
  end.

Definition small_number (K : Z) (x : Py.number) : bool :=
  match x with
  | Py.PyInt z => Z.abs z <=? 2 ^ K
  | Py.PyFloat f => small_float K f
  end.

(** An absent wage entry, or a number of magnitude at most 2^20. *)
Definition wage_ok (field : option Py.number) : bool :=
  match field with
  | None => true
  | Some x => small_number 20 x
  end.

Definition present {A : Type} (field : option A) : bool :=
  match field with
  | Some _ => true
  | None => false
  end.

Definition record_ok (r : Raw.t) : bool :=
  present (Raw.name r) && present (Raw.job r) &&
  wage_ok (Raw.hourly_rate r) && wage_ok (Raw.weekly_hours_worked r) &&
  wage_ok (Raw.contract_hours r).

Definition roster_ok (employee_data : roster) : bool :=
  forallb (fun item => forallb record_ok (snd item)) employee_data.

(** An absent wage entry, or a non-negative int below 2^24. *)
Definition int_wage_ok (field : option Py.number) : bool :=
  match field with
  | None => true
  | Some (Py.PyInt z) => (0 <=? z) && (z <? 2 ^ 24)
  | Some (Py.PyFloat _) => false
  end.

Definition int_record_ok (r : Raw.t) : bool :=
  int_wage_ok (Raw.hourly_rate r) && int_wage_ok (Raw.weekly_hours_worked r) &&
  int_wage_ok (Raw.contract_hours r).

(** The integer a wage entry stands for. *)
Definition wage (field : option Py.number) : Z :=
  match Raw.get field with
  | Py.PyInt z => z
  | Py.PyFloat _ => 0
  end.

(** The salary in exact integer arithmetic. *)
Definition exact_salary (hourly_rate weekly_hours_worked contract_hours : Z) : Z :=
  if weekly_hours_worked <=? contract_hours then weekly_hours_worked * hourly_rate * 4
  else 4 * (contract_hours * hourly_rate)
       + 6 * ((weekly_hours_worked - contract_hours) * hourly_rate).

(** [lowest_salary <= average_salary <= highest_salary] *)
Definition ordered (g : Stats.t) : Prop :=
  Py.le (Py.PyInt (Stats.lowest_salary g)) (Stats.average_salary g) = true /\
  Py.le (Stats.average_salary g) (Py.PyInt (Stats.highest_salary g)) = true.

(** The three figures of a statistics record are all 0. *)
Definition all_zero (g : Stats.t) : Prop :=
  Py.eqb (Stats.average_salary g) (Py.PyInt 0) = true /\
  Stats.highest_salary g = 0 /\ Stats.lowest_salary g = 0.

(** The value the calculator computes for a record, before [int]. *)
Definition computed_value (r : Raw.t) : result Py.number :=
  monthly_salary_value (Raw.get (Raw.hourly_rate r))
                       (Raw.get (Raw.weekly_hours_worked r))
                       (Raw.get (Raw.contract_hours r)).

(** A record with its ["monthly_salary"] entry removed. *)
Definition without_salary (r : Raw.t) : Raw.t :=
  Raw.mk (Raw.name r) (Raw.job r) (Raw.hourly_rate r) (Raw.weekly_hours_worked r)
         (Raw.contract_hours r) None.

(** A roster with the ["monthly_salary"] entries of all its records removed. *)
Definition clear_salaries (employee_data : roster) : roster :=
  map (fun item => (fst item, map without_salary (snd item))) employee_data.

(** All employees of a salary map, subsidiary after subsidiary. *)
Definition all_employees (salary_data : salary_map) : list Emp.t :=
  List.concat (map snd salary_data).

(** The employee lists attached to the per-subsidiary records. *)
Definition attached_employees (statistics : dict Stats.t) : list Emp.t :=
  List.concat (map (fun kv => match Stats.employee_salary (snd kv) with
                              | Some employees => employees
                              | None => []
                              end) statistics).


(** The employee list of a statistics record, empty when it has none. *)
Definition employees_of (statistics : Stats.t) : list Emp.t :=
  match Stats.employee_salary statistics with
  | Some employees => employees
  | None => []
  end.

(** The six lines that close the block of a company. *)
Definition summary_lines (company average highest lowest : string) : list string :=
  [(Text.newline ++ rule)%string;
   ("Statistiques des salaires pour l'entreprise " ++ company ++ ":")%string;
   ("Salaire moyen: " ++ average ++ "€")%string;
   ("Salaire le plus élevé: " ++ highest ++ "€")%string;
   ("Salaire le plus bas: " ++ lowest ++ "€")%string;
   (rule ++ Text.newline)%string].

Definition descending (l : list Emp.t) : Prop :=
  StronglySorted (fun a b => Emp.monthly_salary b <= Emp.monthly_salary a) l.

(** The employees of salary [s], in the order of [l]. *)
Definition earning (s : Z) (l : list Emp.t) : list Emp.t :=
  filter (fun e => Emp.monthly_salary e =? s) l.

(** The row of an employee, its salary written as an int. *)
Definition plain_row (subsidiary : string) (employee : Emp.t) : list cell :=
  [CStr subsidiary; CStr (Emp.name employee); CStr (Emp.job employee);
   CNum (Py.PyInt (Emp.monthly_salary employee))].

(** The events that touch the file. *)
Definition file_event (ev : event) : bool :=
  match ev with
  | Print _ => false
  | _ => true
  end.

(** The figures of a statistics record that the report formats from ints. *)
Definition int_figures (statistics : Stats.t) : list Z :=
  match Stats.average_salary statistics with
  | Py.PyInt z => [z]
  | Py.PyFloat _ => []
  end
  ++ [Stats.highest_salary statistics; Stats.lowest_salary statistics]
  ++ salaries_of (employees_of statistics).

(** The rows of the employees of all statistics records. *)
Definition employee_rows (items : dict Stats.t) : list (list cell) :=
  flat_map (fun kv => map (plain_row (fst kv)) (employees_of (snd kv))) items.

(** The columns of an employee line in front of the amount. *)
Definition line_columns (employee : Emp.t) : string :=
  (Text.ljust 10 (Emp.name employee) ++ " | " ++ Text.ljust 15 (Emp.job employee)
   ++ " | Salaire mensuel: ")%string.

(** A zero or a finite float with a significand below 2^53 and an exponent
    of at most 971: what a division that does not overflow returns. *)
Definition bounded_float (f : spec_float) : bool :=
  match f with
  | S754_zero _ => true
  | S754_finite _ m e => (Z.pos m <? 2 ^ 53) && (e <=? 971)
  | _ => false
  end.

(** The records of a roster, each with the name of its subsidiary, in the
    order of the roster. *)
Definition roster_records (employee_data : roster) : list (string * Raw.t) :=
  flat_map (fun item => map (pair (fst item)) (snd item)) employee_data.

(** The first cell of a row. *)
Definition first_cell (row : list cell) : option cell :=
  match row with
  | [] => None
  | c :: _ => Some c
  end.

(** ** Sample data *)

Module Sample.
Local Open Scope string_scope.

(** 35 hours worked on a 40 hour contract at 20 per hour *)
Definition ann : Raw.t :=
  Raw.mk (Some "Ann") (Some "dev") (Some (Py.PyInt 20)) (Some (Py.PyInt 35))
         (Some (Py.PyInt 40)) None.

(** 45 hours worked on a 40 hour contract at 20 per hour *)
Definition bob : Raw.t :=
  Raw.mk (Some "Bob") (Some "ops") (Some (Py.PyInt 20)) (Some (Py.PyInt 45))
         (Some (Py.PyInt 40)) None.

(** no wage entries at all *)
Definition cyd : Raw.t := Raw.mk (Some "Cyd") (Some "qa") None None None None.

(** no ["name"] entry *)
Definition nameless : Raw.t :=
  Raw.mk None (Some "dev") (Some (Py.PyInt 20)) (Some (Py.PyInt 35))
         (Some (Py.PyInt 40)) None.

(** the float [-0.125] *)
Definition minus_eighth : spec_float := S754_finite true 4503599627370496 (-55).

(** one hour worked on a one hour contract at an hourly rate of [-0.125] *)
Definition dan : Raw.t :=
  Raw.mk (Some "Dan") (Some "dev") (Some (Py.PyFloat minus_eighth))
         (Some (Py.PyInt 1)) (Some (Py.PyInt 1)) None.

Definition company : roster := [("TechCorp", [ann; bob]); ("DesignWorks", [])].

Definition company_salaries : salary_map :=
  [("TechCorp", [Emp.mk "Ann" "dev" 2800; Emp.mk "Bob" "ops" 3800]);
   ("DesignWorks", [])].

(** 3800.0 and 3300.0 *)
Definition f3800 : spec_float := S754_finite false 8356288371097600 (-41).
Definition f3300 : spec_float := S754_finite false 7256776743321600 (-41).

Definition company_after : roster :=
  [("TechCorp",
    [Raw.update_monthly_salary ann (Py.PyInt 2800);
     Raw.update_monthly_salary bob (Py.PyFloat f3800)]);
   ("DesignWorks", [])].

Definition company_global : Stats.t :=
  Stats.mk (Py.PyFloat f3300) 3800 2800 None.

Definition company_statistics : dict Stats.t :=
  [("TechCorp",
    Stats.mk (Py.PyFloat f3300) 3800 2800
             (Some [Emp.mk "Ann" "dev" 2800; Emp.mk "Bob" "ops" 3800]))].

(** 45 hours worked on a 40 hour contract at 12.5 per hour *)
Definition gil : Raw.t :=
  Raw.mk (Some "Gil") (Some "pm") (Some (Py.PyFloat (S754_finite false 7036874417766400 (-49))))
         (Some (Py.PyInt 45)) (Some (Py.PyInt 40)) None.

(** 2^53 + 1 hours worked on a contract of as many hours at 1 per hour *)
Definition eve : Raw.t :=
  Raw.mk (Some "Eve") (Some "cfo") (Some (Py.PyInt 1))
         (Some (Py.PyInt 9007199254740993)) (Some (Py.PyInt 9007199254740993)) None.

(** 2^55 + 4 *)
Definition fortune : Z := 36028797018963972.

Definition rich : salary_map := [("TechCorp", [Emp.mk "Eve" "cfo" fortune])].


Definition idle : salary_map := [("TechCorp", [Emp.mk "Cyd" "qa" 0])].
Definition vacant : salary_map := [("TechCorp", []); ("DesignWorks", [])].
End Sample.

(** Hourly rates of 2^1024 and -2^1024, one hour worked on a one hour
    contract: salaries of 2^1026 and -2^1026. *)
Definition windfall : roster :=
  [("TechCorp"%string,
    [Raw.mk (Some "Max"%string) (Some "cto"%string) (Some (Py.PyInt (2 ^ 1024)))
            (Some (Py.PyInt 1)) (Some (Py.PyInt 1)) None;
     Raw.mk (Some "Min"%string) (Some "cio"%string) (Some (Py.PyInt (- 2 ^ 1024)))
            (Some (Py.PyInt 1)) (Some (Py.PyInt 1)) None])].

(** * Scenarios *)

(** 35 hours on a 40 hour contract at 20: no overtime, 35*20*4. *)
Example scenario_no_overtime :
  process_employee Sample.ann
  = Ok (Emp.mk "Ann" "dev" 2800, Raw.update_monthly_salary Sample.ann (Py.PyInt 2800)).
Proof. reflexivity. Qed.

(** 45 hours on a 40 hour contract at 20: (40*20 + 5*20*1.5)*4. *)
Example scenario_overtime :
  process_employee Sample.bob
  = Ok (Emp.mk "Bob" "ops" 3800,
        Raw.update_monthly_salary Sample.bob (Py.PyFloat Sample.f3800)).
Proof. vm_compute. reflexivity. Qed.

(** No wage entries: each is read as 0. *)
Example scenario_absent_wages :
  process_employee Sample.cyd
  = Ok (Emp.mk "Cyd" "qa" 0, Raw.update_monthly_salary Sample.cyd (Py.PyInt 0)).
Proof. reflexivity. Qed.

(** 45 hours on a 40 hour contract at 12.5: (500.0 + 93.75) * 4. *)
Example scenario_float_rate :
  exists r', process_employee Sample.gil = Ok (Emp.mk "Gil" "pm" 2375, r').
Proof. eexists. vm_compute. reflexivity. Qed.

Example scenario_absent_name :
  process_employee Sample.nameless = Raise (KeyError "name").
Proof. reflexivity. Qed.

(** Two subsidiaries, one of them without employees. *)
Example scenario_calculator :
  calculate_monthly_salaries Sample.company
  = Ok (Sample.company_salaries, Sample.company_after).
Proof. vm_compute. reflexivity. Qed.

Example scenario_global :
  global_company_statistics Sample.company_salaries = Ok Sample.company_global.
Proof. vm_compute. reflexivity. Qed.

Example scenario_subsidiaries :
  subsidiary_company_statistics Sample.company_salaries = Ok Sample.company_statistics.
Proof. vm_compute. reflexivity. Qed.

Example scenario_empty_roster :
  global_company_statistics [] = Ok (Stats.mk (Py.PyInt 0) 0 0 None) /\
  subsidiary_company_statistics [] = Ok [].
Proof. split; reflexivity. Qed.

(** The numbers behave as the interpreter's: [1 / 3] is
    0.333...33148 (0x1.5555555555555p-2), [0 / -3] is [-0.0], [2**53 + 1]
    converts to [2.0**53], [0.1 + 0.2] is 0.30000000000000004, and
    [int(-2.5)] is [-2] where [math.floor(-2.5)] is [-3]. *)
Example number_one_third :
  Py.truediv 1 3 = Ok (Py.PyFloat (S754_finite false 6004799503160661 (-54))).
Proof. vm_compute. reflexivity. Qed.

Example number_negative_zero :
  Py.truediv 0 (-3) = Ok (Py.PyFloat (S754_zero true)).
Proof. reflexivity. Qed.

Example number_ties_to_even :
  Py.float_of_int (2 ^ 53 + 1) = Ok (S754_finite false 4503599627370496 1).
Proof. vm_compute. reflexivity. Qed.

Example number_tenth_plus_fifth :
  Py.add (Py.PyFloat (S754_finite false 7205759403792794 (-56)))
         (Py.PyFloat (S754_finite false 7205759403792794 (-55)))
  = Ok (Py.PyFloat (S754_finite false 5404319552844596 (-54))).
Proof. vm_compute. reflexivity. Qed.

Example number_int_and_floor :
  Py.int (Py.PyFloat (S754_finite true 5629499534213120 (-51))) = Ok (-2) /\
  Py.floor (Py.PyFloat (S754_finite true 5629499534213120 (-51))) = Ok (-3).
Proof. split; reflexivity. Qed.

Example number_exact_comparison :
  Py.le (Py.PyInt (2 ^ 53 + 1)) (Py.PyFloat (S754_finite false 4503599627370496 1)) = false /\
  Py.le (Py.PyFloat (S754_finite false 4503599627370496 1)) (Py.PyInt (2 ^ 53 + 1)) = true.
Proof. split; vm_compute; reflexivity. Qed.

(** Two decimals as the interpreter prints them: [0.125] is a tie and goes
    to the even digit, [2.675] is the float just below it, [-0.004] keeps
    its sign, [round] of it is [-0.0], and [2**53 + 1] is printed as the
    float it converts to. *)
Example format_tie_to_even :
  Text.format_2f (Py.PyFloat (S754_finite false 4503599627370496 (-55))) = Ok "0.12"%string.
Proof. vm_compute. reflexivity. Qed.

Example format_below_half :
  Text.format_2f (Py.PyFloat (S754_finite false 6023564501608038 (-51))) = Ok "2.67"%string.
Proof. vm_compute. reflexivity. Qed.

Example format_negative_zero :
  Text.format_2f (Py.PyFloat (S754_finite true 4611686018427388 (-60))) = Ok "-0.00"%string.
Proof. vm_compute. reflexivity. Qed.

Example format_large_int :
  Text.format_2f (Py.PyInt (2 ^ 53 + 1)) = Ok "9007199254740992.00"%string.
Proof. vm_compute. reflexivity. Qed.

Example format_too_large :
  Text.format_2f (Py.PyInt (2 ^ 1024)) = Raise OverflowError.
Proof. vm_compute. reflexivity. Qed.

Example round_two_decimals :
  Text.round2 (Py.PyFloat (S754_finite false 6963573642581333 (-43)))
  = Ok (Py.PyFloat (S754_finite false 6963602962891407 (-43))) /\
  Text.round2 (Py.PyFloat (S754_finite true 4611686018427388 (-60)))
  = Ok (Py.PyFloat (S754_zero true)) /\
  Text.round2 (Py.PyInt 2375) = Ok (Py.PyInt 2375).
Proof. repeat split; vm_compute; reflexivity. Qed.

(** Padding counts characters, not bytes. *)
Example pad_counts_characters :
  Text.ljust 10 "Élodie" = "Élodie    "%string /\
  Text.ljust 3 "Élodie" = "Élodie"%string.
Proof. split; reflexivity. Qed.

(** Equal salaries keep their order. *)
Example sorted_is_stable :
  sorted_reverse Emp.monthly_salary
    [Emp.mk "Cyd" "qa" 0; Emp.mk "Gil" "pm" 2375; Emp.mk "Dan" "dev" 0]
  = [Emp.mk "Gil" "pm" 2375; Emp.mk "Cyd" "qa" 0; Emp.mk "Dan" "dev" 0].
Proof. reflexivity. Qed.

Example scenario_report :
  print_statistics Sample.company_statistics
  = ([Print "Entreprise: TechCorp";
      Print "Bob        | ops             | Salaire mensuel: 3800.00€";
      Print "Ann        | dev             | Salaire mensuel: 2800.00€";
      Print (Text.newline ++ "========================================================");
      Print "Statistiques des salaires pour l'entreprise TechCorp:";
      Print "Salaire moyen: 3300.00€";
      Print "Salaire le plus élevé: 3800.00€";
      Print "Salaire le plus bas: 2800.00€";
      Print ("========================================================" ++ Text.newline)],
     Ok tt).
Proof. vm_compute. reflexivity. Qed.

Example scenario_export :
  generate_csv Sample.company_statistics "out.csv"
  = ([OpenFile "out.csv";
      WriteRow [CStr "Company"; CStr "Employee Name"; CStr "Job Title";
                CStr "Monthly Salary (€)"];
      WriteRow [CStr "TechCorp"; CStr "Ann"; CStr "dev"; CNum (Py.PyInt 2800)];
      WriteRow [CStr "TechCorp"; CStr "Bob"; CStr "ops"; CNum (Py.PyInt 3800)];
      WriteRow [];
      WriteRow [CStr "Company"; CStr "Average Salary (€)"; CStr "Highest Salary (€)";
                CStr "Lowest Salary (€)"];
      WriteRow [CStr "TechCorp"; CNum (Py.PyFloat Sample.f3300); CNum (Py.PyInt 3800);
                CNum (Py.PyInt 2800)];
      Print ("CSV file " ++ Text.quote ++ "out.csv" ++ Text.quote
             ++ " generated successfully.")],
     Ok tt).
Proof. vm_compute. reflexivity. Qed.

(** The program on the sample roster: the report, then the file. *)
Example scenario_main :
  main Sample.company
  = (fst (print_statistics Sample.company_statistics)
     ++ fst (generate_csv Sample.company_statistics default_filename),
     Ok tt).
Proof. vm_compute. reflexivity. Qed.

(** A record without a name stops the program before anything is printed. *)
Example scenario_main_absent_name :
  main [("TechCorp"%string, [Sample.ann; Sample.nameless])] = ([], Raise (KeyError "name")).
Proof. reflexivity. Qed.

(** A salary too large for a float stops the report after the header of
    the company; the file is not opened. *)
Example scenario_report_overflow :
  print_statistics
    [("TechCorp"%string,
      Stats.mk (Py.PyFloat (S754_infinity false)) (2 ^ 1024) 0
               (Some [Emp.mk "Flo" "ceo" (2 ^ 1024)]))]
  = ([Print "Entreprise: TechCorp"], Raise OverflowError).
Proof. vm_compute. reflexivity. Qed.

(** Salaries of 2^1026 and -2^1026: their mean is 0.0, so both aggregators
    return, and the report stops at the first employee line. *)
Example scenario_main_overflow :
  main windfall = ([Print "Entreprise: TechCorp"], Raise OverflowError).
Proof. vm_compute. reflexivity. Qed.

(** * Proofs *)

(** ** The result monad *)

Lemma bind_Ok {A B : Type} (c : result A) (k : A -> result B) (b : B) :
  bind c k = Ok b -> exists a, c = Ok a /\ k a = Ok b.
Proof.
  destruct c as [a|e]; simpl; intros H; [eauto | discriminate].
Qed.

Ltac inv_bind H :=
  let a := fresh "a" in
  let Ha := fresh "Ha" in
  apply bind_Ok in H; destruct H as (a & Ha & H).

Lemma mapM_Forall2 {A B : Type} (f : A -> result B) (l : list A) (bs : list B) :
  mapM f l = Ok bs <-> Forall2 (fun a b => f a = Ok b) l bs.
Proof.
  revert bs; induction l as [|a l IH]; intros bs; simpl.
  - split.
    + intros H; inversion H; constructor.
    + intros H; inversion H; reflexivity.
  - split.
    + intros H. inv_bind H. inv_bind H. inversion H; subst.
      constructor; [assumption | now apply IH].
    + intros H. inversion H as [|? b ? bs' Hb Hbs]; subst.
      rewrite Hb; simpl. apply IH in Hbs. rewrite Hbs. reflexivity.
Qed.

Lemma mapM_total {A B : Type} (f : A -> result B) (l : list A) :
  (forall a, In a l -> exists b, f a = Ok b) -> exists bs, mapM f l = Ok bs.
Proof.
  induction l as [|a l IH]; intros H; simpl.
  - eauto.
  - destruct (H a (or_introl eq_refl)) as (b & Hb).
    destruct IH as (bs & Hbs); [intros; apply H; now right|].
    rewrite Hb, Hbs; simpl; eauto.
Qed.

(** ** Dictionaries *)


Lemma dict_lookup_None {V : Type} (d : dict V) (k : string) :
  dict_lookup k d = None <-> ~ In k (dict_keys d).
Proof.
  induction d as [|[k' v'] d IH]; simpl.
  - tauto.
  - destruct (String.eqb_spec k k') as [->|Hne].
    + split; [discriminate | intros H; exfalso; apply H; now left].
    + rewrite IH. split; intros H; [intros [?|?]; [congruence | tauto] | tauto].
Qed.

Lemma In_dict_lookup {V : Type} (d : dict V) (k : string) (v : V) :
  dict_wf d -> In (k, v) d -> dict_lookup k d = Some v.
Proof.
  unfold dict_wf, dict_keys.
  induction d as [|[k' v'] d IH]; simpl; intros Hwf Hin; [contradiction|].
  inversion Hwf as [|? ? Hnotin Hwf']; subst.
  destruct Hin as [Heq|Hin].
  - inversion Heq; subst. now rewrite String.eqb_refl.
  - destruct (String.eqb_spec k k') as [->|Hne]; [|auto].
    exfalso; apply Hnotin. change k' with (fst (k', v)). now apply in_map.
Qed.

Lemma dict_setitem_new {V : Type} (d : dict V) (k : string) (v : V) :
  ~ In k (dict_keys d) -> dict_setitem d k v = d ++ [(k, v)].
Proof.
  induction d as [|[k' v'] d IH]; simpl; intros Hnotin; [reflexivity|].
  destruct (String.eqb_spec k k') as [->|Hne]; [tauto|].
  rewrite IH; tauto.
Qed.

Lemma dict_keys_app {V : Type} (d d' : dict V) :
  dict_keys (d ++ d') = dict_keys d ++ dict_keys d'.
Proof. apply map_app. Qed.

Lemma dict_rel_keys {A B : Type} (R : A -> B -> Prop) (d : dict A) (d' : dict B) :
  dict_rel R d d' -> dict_keys d' = dict_keys d.
Proof.
  induction 1 as [|x y d d' [Hk _] _ IH]; simpl; [reflexivity|].
  now rewrite IH, Hk.
Qed.

Lemma dict_rel_impl {A B : Type} (R R' : A -> B -> Prop) (d : dict A) (d' : dict B) :
  (forall k a b, In (k, a) d -> R a b -> R' a b) -> dict_rel R d d' -> dict_rel R' d d'.
Proof.
  intros HR H; induction H as [|[k a] [k' b] d d' [Hk Hab] _ IH]; constructor.
  - split; [assumption|]. simpl in *. apply (HR k); [now left | assumption].
  - apply IH. intros k0 a0 b0 Hin. apply (HR k0). now right.
Qed.

(** ** The loops of the calculator *)

Lemma loop_employees_mapM (personnel_data : list Raw.t) (employee_list : list Emp.t) :
  loop_employees personnel_data employee_list =
  (ps <- mapM process_employee personnel_data ;;
   Ok (employee_list ++ map fst ps, map snd ps)).
Proof.
  revert employee_list; induction personnel_data as [|r l IH]; intros acc; simpl.
  - now rewrite app_nil_r.
  - destruct (process_employee r) as [[e r']|x]; simpl; [|reflexivity].
    rewrite IH. destruct (mapM process_employee l) as [ps|x]; simpl; [|reflexivity].
    now rewrite <- app_assoc.
Qed.

Lemma loop_subsidiaries_mapM (items : list (string * list Raw.t)) (acc : salary_map) :
  NoDup (dict_keys acc ++ dict_keys items) ->
  loop_subsidiaries items acc =
  (pss <- mapM process_subsidiary items ;;
   Ok (acc ++ map (fun kp => (fst kp, map fst (snd kp))) pss,
       map (fun kp => (fst kp, map snd (snd kp))) pss)).
Proof.
  revert acc; induction items as [|[k l] items IH]; intros acc Hnd; simpl.
  - now rewrite app_nil_r.
  - rewrite loop_employees_mapM. unfold process_subsidiary at 1; simpl.
    destruct (mapM process_employee l) as [ps|x]; simpl; [|reflexivity].
    assert (Hk : ~ In k (dict_keys acc)).
    { intros Hin. apply NoDup_remove_2 in Hnd. apply Hnd.
      apply in_or_app; now left. }
    rewrite dict_setitem_new by assumption.
    rewrite IH.
    + destruct (mapM process_subsidiary items) as [pss|x]; simpl; [|reflexivity].
      now rewrite <- app_assoc.
    + rewrite dict_keys_app; simpl. rewrite <- app_assoc; simpl.
      simpl in Hnd. apply NoDup_remove_1 in Hnd as Hnd1.
      apply NoDup_remove_2 in Hnd as Hnd2.
      clear - Hnd1 Hnd2.
      induction (dict_keys acc) as [|a ks IHk]; simpl in *.
      * constructor; assumption.
      * inversion Hnd1 as [|? ? Ha Hrest]; subst. constructor.
        -- intros Hin. apply Ha. apply in_app_or in Hin as [Hin|[Hin|Hin]].
           ++ apply in_or_app; now left.
           ++ subst. exfalso. apply Hnd2. now left.
           ++ apply in_or_app; now right.
        -- apply IHk; [assumption|]. intros Hin. apply Hnd2. now right.
Qed.

(** The calculator on a well-formed roster: it returns exactly when every
    record can be processed, and then the output and the roster it leaves
    behind are the entry-wise images of the input. *)
Lemma calculate_monthly_salaries_spec (employee_data : roster) (out : salary_map)
      (after : roster) :
  dict_wf employee_data ->
  calculate_monthly_salaries employee_data = Ok (out, after) <->
  exists pss,
    Forall2 (fun item kp => process_subsidiary item = Ok kp) employee_data pss /\
    out = map (fun kp => (fst kp, map fst (snd kp))) pss /\
    after = map (fun kp => (fst kp, map snd (snd kp))) pss.
Proof.
  intros Hwf. unfold calculate_monthly_salaries.
  rewrite loop_subsidiaries_mapM by exact Hwf. simpl.
  split.
  - intros H. inv_bind H. inversion H; subst.
    exists a. split; [now apply mapM_Forall2 | auto].
  - intros (pss & HF & -> & ->). apply mapM_Forall2 in HF. now rewrite HF.
Qed.

Lemma process_subsidiary_Ok (item : string * list Raw.t) (kp : string * list (Emp.t * Raw.t)) :
  process_subsidiary item = Ok kp <->
  fst kp = fst item /\ Forall2 (fun r p => process_employee r = Ok p) (snd item) (snd kp).
Proof.
  unfold process_subsidiary. split.
  - intros H. inv_bind H. inversion H; subst; simpl. split; [reflexivity|].
    now apply mapM_Forall2.
  - intros [Hk HF]. apply mapM_Forall2 in HF. rewrite HF; simpl.
    destruct kp; simpl in *; now subst.
Qed.

Lemma Forall2_map_fst {A B C : Type} (R : A -> B * C -> Prop) (l : list A) (ps : list (B * C)) :
  Forall2 R l ps -> Forall2 (fun a b => exists c, R a (b, c)) l (map fst ps).
Proof.
  induction 1 as [|a [b c] l ps H _ IH]; simpl; constructor; eauto.
Qed.

Lemma Forall2_map_snd {A B C : Type} (R : A -> B * C -> Prop) (l : list A) (ps : list (B * C)) :
  Forall2 R l ps -> Forall2 (fun a c => exists b, R a (b, c)) l (map snd ps).
Proof.
  induction 1 as [|a [b c] l ps H _ IH]; simpl; constructor; eauto.
Qed.

(** Input records and output entries correspond one to one, in order. *)
Lemma calculate_output_rel (employee_data : roster) (out : salary_map) (after : roster) :
  dict_wf employee_data ->
  calculate_monthly_salaries employee_data = Ok (out, after) ->
  dict_rel (Forall2 (fun r e => exists r', process_employee r = Ok (e, r')))
           employee_data out.
Proof.
  intros Hwf H. apply calculate_monthly_salaries_spec in H; [|assumption].
  destruct H as (pss & HF & -> & _). unfold dict_rel. clear Hwf.
  induction HF as [|item kp d pss Hp _ IH]; simpl; constructor; [|assumption].
  apply process_subsidiary_Ok in Hp as [Hk Hl]; simpl. split; [auto|].
  now apply (Forall2_map_fst (fun r p => process_employee r = Ok p)).
Qed.

(** Input records before and after the call correspond one to one. *)
Lemma calculate_after_rel (employee_data : roster) (out : salary_map) (after : roster) :
  dict_wf employee_data ->
  calculate_monthly_salaries employee_data = Ok (out, after) ->
  dict_rel (Forall2 (fun r r' => exists e, process_employee r = Ok (e, r')))
           employee_data after.
Proof.
  intros Hwf H. apply calculate_monthly_salaries_spec in H; [|assumption].
  destruct H as (pss & HF & _ & ->). unfold dict_rel. clear Hwf.
  induction HF as [|item kp d pss Hp _ IH]; simpl; constructor; [|assumption].
  apply process_subsidiary_Ok in Hp as [Hk Hl]; simpl. split; [auto|].
  now apply (Forall2_map_snd (fun r p => process_employee r = Ok p)).
Qed.

Lemma calculate_total (employee_data : roster) :
  dict_wf employee_data ->
  (forall k l r, In (k, l) employee_data -> In r l ->
                 exists p, process_employee r = Ok p) ->
  exists out after, calculate_monthly_salaries employee_data = Ok (out, after).
Proof.
  intros Hwf Hall.
  destruct (mapM_total process_subsidiary employee_data) as (pss & Hpss).
  - intros [k l] Hin. unfold process_subsidiary; simpl.
    destruct (mapM_total process_employee l) as (ps & Hps).
    + intros r Hr. eapply Hall; eassumption.
    + rewrite Hps; simpl; eauto.
  - do 2 eexists. apply calculate_monthly_salaries_spec; [assumption|].
    exists pss. split; [now apply mapM_Forall2 | split; reflexivity].
Qed.

(** ** One employee record *)

Lemma truncation_of_quot (n d z : Z) : truncation_of n d z -> z = Z.quot n d.
Proof.
  intros (Hd & Habs & Hsgn).
  assert (Hq : Z.abs z = Z.abs n / d).
  { apply Z.div_unique with (r := Z.abs n - Z.abs z * d); lia. }
  rewrite Z.quot_div by lia.
  rewrite (Z.abs_eq d) by lia. rewrite <- Hq.
  rewrite (Z.sgn_pos d) by lia. rewrite Z.mul_1_r.
  destruct (Z.eq_dec z 0) as [->|Hz]; [simpl; lia|].
  assert (Hs : Z.sgn n = Z.sgn z) by nia.
  rewrite Hs. rewrite Z.mul_comm. symmetry. apply Z.abs_sgn.
Qed.

Lemma process_employee_Ok (r : Raw.t) (e : Emp.t) (r' : Raw.t) :
  process_employee r = Ok (e, r') <->
  exists v n j z,
    monthly_salary_value (Raw.get (Raw.hourly_rate r))
                         (Raw.get (Raw.weekly_hours_worked r))
                         (Raw.get (Raw.contract_hours r)) = Ok v /\
    Raw.name r = Some n /\ Raw.job r = Some j /\ Py.int v = Ok z /\
    e = Emp.mk n j z /\ r' = Raw.update_monthly_salary r v.
Proof.
  unfold process_employee. split.
  - intros H. inv_bind H. simpl in H.
    destruct (Raw.name r) as [n|]; [|discriminate].
    destruct (Raw.job r) as [j|]; [|discriminate]. simpl in H.
    inv_bind H. inversion H; subst. exists a, n, j, a0. auto 10.
  - intros (v & n & j & z & Hv & Hn & Hj & Hz & -> & ->).
    rewrite Hv; simpl. rewrite Hn, Hj; simpl. rewrite Hz; reflexivity.
Qed.

Lemma gt_not_le (x y : Py.number) : Py.gt x y = true -> Py.le x y = false.
Proof.
  unfold Py.gt, Py.le. destruct (Py.compare x y) as [[]|]; congruence.
Qed.

Lemma monthly_salary_value_regular (hr wh ch v : Py.number) :
  Py.le wh ch = true ->
  monthly_salary_value hr wh ch = Ok v -> spec_regular_pay wh hr = Ok v.
Proof.
  unfold monthly_salary_value, spec_regular_pay. now intros ->.
Qed.

Lemma monthly_salary_value_overtime (hr wh ch v : Py.number) :
  Py.gt wh ch = true ->
  monthly_salary_value hr wh ch = Ok v -> spec_overtime_pay hr wh ch = Ok v.
Proof.
  unfold monthly_salary_value, spec_overtime_pay.
  intros Hgt. rewrite (gt_not_le _ _ Hgt). intros H.
  do 4 inv_bind H. rewrite Ha2, Ha; simpl. rewrite Ha0; simpl. rewrite Ha1; simpl.
  exact H.
Qed.


Lemma nonneg_finite_sign (s : bool) (m : positive) (e : Z) :
  Py.le (Py.PyInt 0) (Py.PyFloat (S754_finite s m e)) = true -> s = false.
Proof.
  destruct s; [|reflexivity].
  unfold Py.le, Py.compare, Py.SFcompare_Z, cond_Zopp.
  destruct (Z.leb_spec 0 e) as [He|He]; cbv [option_map].
  - assert (H : - Z.pos m * 2 ^ e < 0).
    { assert (0 < 2 ^ e) by (apply Z.pow_pos_nonneg; lia). nia. }
    apply Z.compare_lt_iff in H. rewrite H. discriminate.
  - assert (H : - Z.pos m < 0 * 2 ^ (- e)) by lia.
    apply Z.compare_lt_iff in H. rewrite H. discriminate.
Qed.

(** For a value that is not negative, discarding the fraction and rounding
    down agree. *)
Lemma int_floor_nonneg (v : Py.number) (z : Z) :
  Py.int v = Ok z -> Py.le (Py.PyInt 0) v = true -> Py.floor v = Ok z.
Proof.
  destruct v as [k|[s|s| |s m e]]; simpl; intros H; inversion H; subst; clear H; auto.
  intros Hs. apply nonneg_finite_sign in Hs. subst s. cbv [cond_Zopp].
  destruct (Z.leb_spec 0 e) as [He|He].
  - now rewrite Z.shiftl_mul_pow2 by assumption.
  - now rewrite Z.shiftr_div_pow2 by lia.
Qed.

(** ** [sum], [max], [min] *)

Lemma sum_total (l : list Z) : Py.sum l = total l.
Proof.
  unfold Py.sum, total.
  assert (H : forall acc, fold_left Z.add l acc = acc + fold_right Z.add 0 l).
  { induction l as [|x l IH]; intros acc; simpl; [lia|]. rewrite IH. lia. }
  rewrite H. lia.
Qed.

Lemma max_is_maximum (l : list Z) (m : Z) : Py.max l = Ok m -> is_maximum l m.
Proof.
  destruct l as [|first rest]; simpl; [discriminate|].
  intros H; inversion H as [Hm]; clear H.
  assert (G : forall acc, let r := fold_left (fun maxitem item =>
                             if maxitem <? item then item else maxitem) rest acc in
                          (r = acc \/ In r rest) /\ acc <= r /\ Forall (fun x => x <= r) rest).
  { clear. induction rest as [|x rest IH]; intros acc; simpl.
    - repeat split; auto; lia.
    - specialize (IH (if acc <? x then x else acc)). simpl in IH.
      destruct IH as (Hin & Hle & Hall).
      destruct (Z.ltb_spec acc x); (split; [|split; [|constructor]]); try tauto; try lia.
      destruct Hin; auto. }
  specialize (G first). simpl in G. rewrite Hm in G.
  destruct G as (Hin & Hle & Hall). rewrite Hm. split.
  - simpl. destruct Hin; [left; congruence | right; assumption].
  - constructor; assumption.
Qed.

Lemma min_is_minimum (l : list Z) (m : Z) : Py.min l = Ok m -> is_minimum l m.
Proof.
  destruct l as [|first rest]; simpl; [discriminate|].
  intros H; inversion H as [Hm]; clear H.
  assert (G : forall acc, let r := fold_left (fun minitem item =>
                             if item <? minitem then item else minitem) rest acc in
                          (r = acc \/ In r rest) /\ r <= acc /\ Forall (fun x => r <= x) rest).
  { clear. induction rest as [|x rest IH]; intros acc; simpl.
    - repeat split; auto; lia.
    - specialize (IH (if x <? acc then x else acc)). simpl in IH.
      destruct IH as (Hin & Hle & Hall).
      destruct (Z.ltb_spec x acc); (split; [|split; [|constructor]]); try tauto; try lia.
      destruct Hin; auto. }
  specialize (G first). simpl in G. rewrite Hm in G.
  destruct G as (Hin & Hle & Hall). rewrite Hm. split.
  - simpl. destruct Hin; [left; congruence | right; assumption].
  - constructor; assumption.
Qed.

Lemma max_total (l : list Z) : l <> [] -> exists m, Py.max l = Ok m.
Proof. destruct l; [congruence | simpl; eauto]. Qed.

Lemma min_total (l : list Z) : l <> [] -> exists m, Py.min l = Ok m.
Proof. destruct l; [congruence | simpl; eauto]. Qed.

Lemma is_maximum_unique (l : list Z) (m m' : Z) :
  is_maximum l m -> is_maximum l m' -> m = m'.
Proof.
  intros [Hin Hall] [Hin' Hall']. rewrite Forall_forall in Hall, Hall'.
  apply Hall in Hin'. apply Hall' in Hin. lia.
Qed.

Lemma is_minimum_unique (l : list Z) (m m' : Z) :
  is_minimum l m -> is_minimum l m' -> m = m'.
Proof.
  intros [Hin Hall] [Hin' Hall']. rewrite Forall_forall in Hall, Hall'.
  apply Hall in Hin'. apply Hall' in Hin. lia.
Qed.

Lemma is_maximum_max (l : list Z) (m : Z) : is_maximum l m -> Py.max l = Ok m.
Proof.
  intros H. destruct (max_total l) as (m' & Hm').
  - destruct H as [Hin _]. intros ->. contradiction.
  - rewrite Hm'. f_equal. eapply is_maximum_unique; [|eassumption].
    now apply max_is_maximum.
Qed.

Lemma is_minimum_min (l : list Z) (m : Z) : is_minimum l m -> Py.min l = Ok m.
Proof.
  intros H. destruct (min_total l) as (m' & Hm').
  - destruct H as [Hin _]. intros ->. contradiction.
  - rewrite Hm'. f_equal. eapply is_minimum_unique; [|eassumption].
    now apply min_is_minimum.
Qed.

(** ** The loops of the aggregators *)

Lemma collect_salaries_flatten (salary_data items : salary_map) :
  (forall k l, In (k, l) items -> dict_lookup k salary_data = Some l) ->
  collect_salaries salary_data (dict_keys items) = Ok (flatten_salaries items).
Proof.
  induction items as [|[k l] items IH]; intros Hlook; simpl; [reflexivity|].
  unfold dict_getitem. rewrite (Hlook k l) by now left. simpl.
  rewrite IH by (intros; apply Hlook; now right). reflexivity.
Qed.

Lemma loop_statistics_mapM (salary_data items : salary_map) (acc : dict Stats.t) :
  (forall k l, In (k, l) items -> dict_lookup k salary_data = Some l) ->
  NoDup (dict_keys acc ++ dict_keys items) ->
  loop_statistics salary_data (dict_keys items) acc =
  (recs <- mapM subsidiary_record (filter has_employees items) ;; Ok (acc ++ recs)).
Proof.
  revert acc; induction items as [|[k l] items IH]; intros acc Hlook Hnd; simpl.
  - now rewrite app_nil_r.
  - unfold dict_getitem. rewrite (Hlook k l) by now left. simpl.
    assert (Hnd' : NoDup (dict_keys acc ++ dict_keys items)).
    { simpl in Hnd. now apply NoDup_remove_1 in Hnd. }
    assert (Hk : ~ In k (dict_keys acc ++ dict_keys items)).
    { simpl in Hnd. now apply NoDup_remove_2 in Hnd. }
    assert (Hlook' : forall k0 l0, In (k0, l0) items -> dict_lookup k0 salary_data = Some l0).
    { intros; apply Hlook; now right. }
    destruct l as [|e l]; unfold has_employees at 1; simpl.
    + now apply IH.
    + unfold subsidiary_record at 1. simpl.
      destruct (Py.truediv _ _) as [avg|x]; simpl; [|reflexivity].
      rewrite dict_setitem_new by (intros Hin; apply Hk, in_or_app; now left).
      rewrite IH; [|assumption|].
      * destruct (mapM subsidiary_record _) as [recs|x]; simpl; [|reflexivity].
        now rewrite <- app_assoc.
      * rewrite dict_keys_app, <- app_assoc. simpl.
        clear - Hnd' Hk. induction (dict_keys acc) as [|a ks IHk]; simpl in *.
        -- constructor; assumption.
        -- inversion Hnd' as [|? ? Ha Hrest]; subst. constructor.
           ++ intros Hin. apply in_app_or in Hin as [Hin|[Hin|Hin]].
              ** apply Ha, in_or_app; now left.
              ** subst. apply Hk. now left.
              ** apply Ha, in_or_app; now right.
           ++ apply IHk; [assumption|]. intros Hin. apply Hk. now right.
Qed.

Lemma global_company_statistics_spec (salary_data : salary_map) :
  dict_wf salary_data ->
  global_company_statistics salary_data =
  match flatten_salaries salary_data with
  | [] => Ok (Stats.mk (Py.PyInt 0) 0 0 None)
  | all_salaries =>
      average <- Py.truediv (Py.sum all_salaries) (Py.len all_salaries) ;;
      highest <- Py.max all_salaries ;;
      lowest <- Py.min all_salaries ;;
      Ok (Stats.mk average highest lowest None)
  end.
Proof.
  intros Hwf. unfold global_company_statistics.
  rewrite collect_salaries_flatten by (intros; now apply In_dict_lookup).
  simpl. destruct (flatten_salaries salary_data); reflexivity.
Qed.

Lemma subsidiary_company_statistics_spec (salary_data : salary_map) :
  dict_wf salary_data ->
  subsidiary_company_statistics salary_data =
  mapM subsidiary_record (filter has_employees salary_data).
Proof.
  intros Hwf. unfold subsidiary_company_statistics.
  rewrite loop_statistics_mapM.
  - destruct (mapM _ _); reflexivity.
  - intros; now apply In_dict_lookup.
  - exact Hwf.
Qed.

Lemma unique_keys_NoDup (ks : list string) : unique_keys ks = true -> NoDup ks.
Proof.
  induction ks as [|k ks IH]; simpl; intros H; constructor.
  - apply andb_prop in H as [H _]. intros Hin.
    assert (Hex : existsb (String.eqb k) ks = true).
    { apply existsb_exists. exists k. split; [assumption | apply String.eqb_refl]. }
    rewrite Hex in H. discriminate.
  - apply andb_prop in H as [_ H]. auto.
Qed.

Lemma unique_keys_wf {V : Type} (d : dict V) : unique_keys (dict_keys d) = true -> dict_wf d.
Proof. apply unique_keys_NoDup. Qed.

Lemma dict_rel_Forall2_impl {A B : Type} (R R' : A -> B -> Prop)
      (d : dict (list A)) (d' : dict (list B)) :
  (forall a b, R a b -> R' a b) ->
  dict_rel (Forall2 R) d d' -> dict_rel (Forall2 R') d d'.
Proof.
  intros HR. apply dict_rel_impl. intros _ l l' _ H.
  induction H; constructor; auto.
Qed.

(** * The claims *)



(** C1, as amended: for every record the calculator processes, with absent
    wage entries read as 0, the output [monthly_salary] is [int] of the
    worded formula: of [weekly_hours_worked * hourly_rate * 4] when
    [weekly_hours_worked <= contract_hours], and of
    [(contract_hours*hourly_rate + (weekly_hours_worked - contract_hours)
    *hourly_rate*1.5) * 4] when [weekly_hours_worked > contract_hours]; this
    is the floor of the formula whenever its value is not negative. *)
Theorem C1_salary_formula (employee_data : roster) (out : salary_map) (after : roster) :
  dict_wf employee_data ->
  calculate_monthly_salaries employee_data = Ok (out, after) ->
  dict_rel (Forall2 salary_rule) employee_data out.
Proof.
  intros Hwf H. apply calculate_output_rel in H; [|assumption].
  revert H. apply dict_rel_Forall2_impl.
  intros r e (r' & Hp). apply process_employee_Ok in Hp.
  destruct Hp as (v & n & j & z & Hv & _ & _ & Hz & -> & _).
  unfold salary_rule; simpl. split; intros Hcmp; exists v.
  - split; [now apply (monthly_salary_value_regular _ _ _ _ Hcmp)|].
    split; [assumption | now apply int_floor_nonneg].
  - split; [now apply (monthly_salary_value_overtime _ _ _ _ Hcmp)|].
    split; [assumption | now apply int_floor_nonneg].
Qed.

Lemma C1_witness :
  dict_rel (Forall2 salary_rule) Sample.company Sample.company_salaries.
Proof.
  apply (C1_salary_formula Sample.company Sample.company_salaries Sample.company_after).
  - apply unique_keys_wf. reflexivity.
  - vm_compute. reflexivity.
Defined.

(** C1 as stated fails: at an hourly rate of -0.125, one hour worked on a
    one hour contract, the formula's value is -0.5, whose floor is -1, and
    the output [monthly_salary] is 0. *)
Lemma C1_counterexample :
  calculate_monthly_salaries [("TechCorp"%string, [Sample.dan])] =
    Ok ([("TechCorp"%string, [Emp.mk "Dan" "dev" 0])],
        [("TechCorp"%string,
          [Raw.update_monthly_salary Sample.dan
             (Py.PyFloat (S754_finite true 4503599627370496 (-53)))])]) /\
  Py.le (Py.PyInt 1) (Py.PyInt 1) = true /\
  (v <- spec_regular_pay (Py.PyInt 1) (Py.PyFloat Sample.minus_eighth) ;; Py.floor v)
    = Ok (-1).
Proof. repeat split. Qed.

(** ** Order and shape of the outputs *)

Lemma mapM_subsidiary_record_keys (items : salary_map) (recs : dict Stats.t) :
  mapM subsidiary_record items = Ok recs -> dict_keys recs = dict_keys items.
Proof.
  intros H. apply mapM_Forall2 in H.
  induction H as [|item rec items recs Hr _ IH]; simpl; [reflexivity|].
  unfold subsidiary_record in Hr. do 3 inv_bind Hr. inversion Hr; subst; simpl.
  now rewrite IH.
Qed.

Lemma has_employees_rel {A B : Type} (R : A -> B -> Prop)
      (d : dict (list A)) (d' : dict (list B)) :
  dict_rel (Forall2 R) d d' ->
  dict_keys (filter has_employees d') = dict_keys (filter has_employees d).
Proof.
  induction 1 as [|[k l] [k' l'] d d' [Hk Hl] _ IH]; simpl in *; [reflexivity|].
  subst k'. unfold has_employees at 1 3; simpl.
  destruct Hl; simpl; [assumption | now rewrite IH].
Qed.

(** C6: on every roster the calculator's output has the input's subsidiaries
    in the input's order and, within each, exactly one entry per record in
    the records' order (each entry being the output of the record at its
    position and carrying its name and job); the per-subsidiary aggregator's
    output lists the subsidiaries that have employees, again in the input's
    order.  The calculator returns such an output whenever every record can
    be processed. *)
Theorem C6_order_preserved (employee_data : roster) :
  dict_wf employee_data ->
  (forall out after,
      calculate_monthly_salaries employee_data = Ok (out, after) ->
      dict_keys out = dict_keys employee_data /\
      dict_rel (Forall2 (fun r e =>
                  (exists r', process_employee r = Ok (e, r')) /\
                  Raw.name r = Some (Emp.name e) /\
                  Raw.job r = Some (Emp.job e)))
               employee_data out /\
      (forall statistics,
          subsidiary_company_statistics out = Ok statistics ->
          dict_keys statistics = dict_keys (filter has_employees employee_data))) /\
  ((forall k l r, In (k, l) employee_data -> In r l ->
                  exists p, process_employee r = Ok p) ->
   exists out after, calculate_monthly_salaries employee_data = Ok (out, after)).
Proof.
  intros Hwf. split; [|now apply calculate_total].
  intros out after H. apply calculate_output_rel in H as Hrel; [|assumption].
  assert (Hkeys : dict_keys out = dict_keys employee_data)
    by (eapply dict_rel_keys; eassumption).
  split; [assumption|]. split.
  - revert Hrel. apply dict_rel_Forall2_impl.
    intros r e (r' & Hp). split; [eauto|].
    apply process_employee_Ok in Hp.
    destruct Hp as (v & n & j & z & _ & Hn & Hj & _ & -> & _). simpl. auto.
  - intros statistics Hs.
    rewrite subsidiary_company_statistics_spec in Hs
      by (unfold dict_wf; rewrite Hkeys; exact Hwf).
    apply mapM_subsidiary_record_keys in Hs. rewrite Hs.
    eapply has_employees_rel; eassumption.
Qed.

Lemma C6_witness :
  dict_keys Sample.company_salaries = dict_keys Sample.company /\
  dict_rel (Forall2 (fun r e =>
              (exists r', process_employee r = Ok (e, r')) /\
              Raw.name r = Some (Emp.name e) /\
              Raw.job r = Some (Emp.job e)))
           Sample.company Sample.company_salaries /\
  dict_keys Sample.company_statistics = dict_keys (filter has_employees Sample.company) /\
  exists out after, calculate_monthly_salaries Sample.company = Ok (out, after).
Proof.
  destruct (C6_order_preserved Sample.company) as [Hshape Hreturns].
  { apply unique_keys_wf. reflexivity. }
  destruct (Hshape Sample.company_salaries Sample.company_after) as (Hk & Hrel & Hst).
  { vm_compute. reflexivity. }
  split; [exact Hk|]. split; [exact Hrel|]. split.
  - apply Hst. vm_compute. reflexivity.
  - apply Hreturns. intros k l r Hin Hr.
    destruct Hin as [Hin|[Hin|[]]]; inversion Hin; subst; clear Hin.
    + destruct Hr as [<-|[<-|[]]]; eexists; vm_compute; reflexivity.
    + destruct Hr.
Defined.

(** ** The effect on the input *)

(** C7, as amended: the call leaves the roster with the same subsidiaries
    and the same records in the same order, each record unchanged except for
    its ["monthly_salary"] entry, which now holds the value computed for the
    record (before conversion to [int]). *)
Theorem C7_input_annotated (employee_data : roster) (out : salary_map) (after : roster) :
  dict_wf employee_data ->
  calculate_monthly_salaries employee_data = Ok (out, after) ->
  dict_rel (Forall2 (fun r r' =>
              Raw.name r' = Raw.name r /\
              Raw.job r' = Raw.job r /\
              Raw.hourly_rate r' = Raw.hourly_rate r /\
              Raw.weekly_hours_worked r' = Raw.weekly_hours_worked r /\
              Raw.contract_hours r' = Raw.contract_hours r /\
              exists v, computed_value r = Ok v /\ Raw.monthly_salary r' = Some v))
           employee_data after.
Proof.
  intros Hwf H. apply calculate_after_rel in H; [|assumption].
  revert H. apply dict_rel_Forall2_impl.
  intros r r' (e & Hp). apply process_employee_Ok in Hp.
  destruct Hp as (v & n & j & z & Hv & _ & _ & _ & _ & ->). simpl.
  repeat (split; [reflexivity|]). eauto.
Qed.

Lemma C7_witness :
  dict_rel (Forall2 (fun r r' =>
              Raw.name r' = Raw.name r /\
              Raw.job r' = Raw.job r /\
              Raw.hourly_rate r' = Raw.hourly_rate r /\
              Raw.weekly_hours_worked r' = Raw.weekly_hours_worked r /\
              Raw.contract_hours r' = Raw.contract_hours r /\
              exists v, computed_value r = Ok v /\ Raw.monthly_salary r' = Some v))
           Sample.company Sample.company_after.
Proof.
  apply (C7_input_annotated Sample.company Sample.company_salaries Sample.company_after).
  - apply unique_keys_wf. reflexivity.
  - vm_compute. reflexivity.
Defined.

(** C7 as stated fails: after the call on the sample roster the records
    hold a ["monthly_salary"] entry they did not have before. *)
Lemma C7_counterexample :
  calculate_monthly_salaries Sample.company
    = Ok (Sample.company_salaries, Sample.company_after) /\
  Sample.company_after <> Sample.company /\
  Raw.monthly_salary Sample.ann = None /\
  Raw.monthly_salary (Raw.update_monthly_salary Sample.ann (Py.PyInt 2800))
    = Some (Py.PyInt 2800).
Proof.
  split; [vm_compute; reflexivity|]. split; [discriminate|]. split; reflexivity.
Qed.

(** ** Statistics *)


Lemma Forall2_In_r {A B : Type} (R : A -> B -> Prop) (l : list A) (l' : list B) (b : B) :
  Forall2 R l l' -> In b l' -> exists a, In a l /\ R a b.
Proof.
  induction 1 as [|x y l l' Hxy _ IH]; simpl; [contradiction|].
  intros [->|Hin]; [eauto|]. destruct (IH Hin) as (a & Ha & Hab). eauto.
Qed.

Lemma subsidiary_record_Ok (item : string * list Emp.t) (rec : string * Stats.t) :
  subsidiary_record item = Ok rec ->
  fst rec = fst item /\
  Stats.employee_salary (snd rec) = Some (snd item) /\
  Py.truediv (total (salaries_of (snd item))) (Py.len (salaries_of (snd item)))
    = Ok (Stats.average_salary (snd rec)) /\
  is_maximum (salaries_of (snd item)) (Stats.highest_salary (snd rec)) /\
  is_minimum (salaries_of (snd item)) (Stats.lowest_salary (snd rec)).
Proof.
  unfold subsidiary_record. intros H. do 3 inv_bind H. inversion H; subst; simpl.
  rewrite <- sum_total. split; [reflexivity|]. split; [reflexivity|].
  split; [assumption|]. split.
  - now apply max_is_maximum.
  - now apply min_is_minimum.
Qed.

Lemma subsidiary_record_total (item : string * list Emp.t) :
  has_employees item = true ->
  (exists a, Py.truediv (total (salaries_of (snd item))) (Py.len (salaries_of (snd item)))
             = Ok a) ->
  exists rec, subsidiary_record item = Ok rec.
Proof.
  unfold has_employees, subsidiary_record. destruct item as [k [|e l]]; simpl; [discriminate|].
  intros _ (a & Ha). rewrite sum_total. simpl. rewrite Ha. simpl. eauto.
Qed.

Lemma has_employees_true {A : Type} (item : string * list A) :
  has_employees item = true <-> snd item <> [].
Proof.
  unfold has_employees. destruct (snd item); split; congruence.
Qed.



Lemma statistics_entry_origin (salary_data : salary_map) (statistics : dict Stats.t)
      (k : string) (rec : Stats.t) :
  dict_wf salary_data ->
  subsidiary_company_statistics salary_data = Ok statistics ->
  In (k, rec) statistics ->
  exists employees, In (k, employees) salary_data /\ employees <> [] /\
                    subsidiary_record (k, employees) = Ok (k, rec).
Proof.
  intros Hwf Hs Hin.
  rewrite subsidiary_company_statistics_spec in Hs by assumption.
  apply mapM_Forall2 in Hs as HF.
  destruct (Forall2_In_r _ _ _ _ HF Hin) as ([k' employees] & Hitem & Hsr).
  apply subsidiary_record_Ok in Hsr as Hk. destruct Hk as (Hk & _). simpl in Hk. subst k'.
  apply filter_In in Hitem as [Hitem Hhas].
  exists employees. split; [assumption|]. split; [|assumption].
  now apply has_employees_true in Hhas.
Qed.

Lemma global_statistics_Ok (salary_data : salary_map) (g : Stats.t) :
  dict_wf salary_data ->
  global_company_statistics salary_data = Ok g ->
  flatten_salaries salary_data <> [] ->
  Py.truediv (total (flatten_salaries salary_data))
             (Py.len (flatten_salaries salary_data))
    = Ok (Stats.average_salary g) /\
  is_maximum (flatten_salaries salary_data) (Stats.highest_salary g) /\
  is_minimum (flatten_salaries salary_data) (Stats.lowest_salary g).
Proof.
  intros Hwf Hg Hne. rewrite global_company_statistics_spec in Hg by assumption.
  destruct (flatten_salaries salary_data) as [|x l] eqn:Hflat; [congruence|].
  do 3 inv_bind Hg. inversion Hg; subst.
  cbn [Stats.average_salary Stats.highest_salary Stats.lowest_salary].
  rewrite <- sum_total. split; [assumption|]. split.
  - now apply max_is_maximum.
  - now apply min_is_minimum.
Qed.




(** ** Empty input *)

Lemma truediv_not_ZeroDivisionError (a b : Z) :
  b <> 0 -> Py.truediv a b <> Raise ZeroDivisionError.
Proof.
  intros Hb. unfold Py.truediv.
  destruct (Z.eqb_spec b 0) as [|_]; [contradiction|].
  destruct (SFdiv _ _ _ _); discriminate.
Qed.

Lemma len_cons_nonzero {A : Type} (x : A) (l : list A) : Py.len (x :: l) <> 0.
Proof. unfold Py.len. simpl. lia. Qed.

Lemma statistics_not_ZeroDivisionError (all_salaries : list Z) (employees : option (list Emp.t)) :
  all_salaries <> [] ->
  (average <- Py.truediv (Py.sum all_salaries) (Py.len all_salaries) ;;
   highest <- Py.max all_salaries ;;
   lowest <- Py.min all_salaries ;;
   Ok (Stats.mk average highest lowest employees)) <> Raise ZeroDivisionError.
Proof.
  destruct all_salaries as [|x l]; [congruence|]. intros _.
  pose proof (truediv_not_ZeroDivisionError (Py.sum (x :: l)) _ (len_cons_nonzero x l)) as H.
  destruct (Py.truediv _ _) as [avg|e]; simpl; [discriminate|].
  intros Heq. apply H. inversion Heq. reflexivity.
Qed.

Lemma mapM_Raise {A B : Type} (f : A -> result B) (l : list A) (e : exn) :
  mapM f l = Raise e -> exists a, In a l /\ f a = Raise e.
Proof.
  induction l as [|a l IH]; simpl; [discriminate|].
  destruct (f a) as [b|e'] eqn:Hfa; simpl.
  - destruct (mapM f l) as [bs|e'']; simpl; [discriminate|].
    intros H. destruct (IH H) as (a' & Hin & Ha'). eauto.
  - intros H. inversion H; subst. eauto.
Qed.

Lemma all_empty_flatten (salary_data : salary_map) :
  (forall k employees, In (k, employees) salary_data -> employees = []) ->
  flatten_salaries salary_data = [].
Proof.
  unfold flatten_salaries.
  induction salary_data as [|[k l] d IH]; intros Hall; simpl; [reflexivity|].
  rewrite (Hall k l) by now left. simpl. apply IH. intros; eapply Hall; right; eassumption.
Qed.

(** C4: on a salary map with no employee anywhere [global_company_statistics]
    returns the record of three zeros; neither aggregator ever fails with a
    division by zero; and a subsidiary whose employee list is empty, though
    present in the input, has no entry in the output of
    [subsidiary_company_statistics]. *)
Theorem C4_empty_input (salary_data : salary_map) :
  dict_wf salary_data ->
  ((forall k employees, In (k, employees) salary_data -> employees = []) ->
   global_company_statistics salary_data = Ok (Stats.mk (Py.PyInt 0) 0 0 None)) /\
  global_company_statistics salary_data <> Raise ZeroDivisionError /\
  subsidiary_company_statistics salary_data <> Raise ZeroDivisionError /\
  (forall statistics k,
      subsidiary_company_statistics salary_data = Ok statistics ->
      dict_lookup k salary_data = Some [] ->
      dict_lookup k statistics = None).
Proof.
  intros Hwf. split; [|split; [|split]].
  - intros Hall. rewrite global_company_statistics_spec by assumption.
    now rewrite all_empty_flatten.
  - rewrite global_company_statistics_spec by assumption.
    destruct (flatten_salaries salary_data) as [|x l]; [discriminate|].
    apply statistics_not_ZeroDivisionError. discriminate.
  - rewrite subsidiary_company_statistics_spec by assumption.
    intros H. apply mapM_Raise in H as ([k employees] & Hin & H).
    apply filter_In in Hin as [_ Hhas]. apply has_employees_true in Hhas.
    simpl in Hhas. destruct employees as [|e l]; [congruence|].
    unfold subsidiary_record in H. simpl in H.
    pose proof (truediv_not_ZeroDivisionError
                  (Py.sum (salaries_of (e :: l))) _
                  (len_cons_nonzero (Emp.monthly_salary e) (salaries_of l))) as Hdiv.
    simpl in Hdiv.
    destruct (Py.truediv _ _) as [avg|x]; simpl in H; [discriminate|].
    apply Hdiv. inversion H. reflexivity.
  - intros statistics k Hs Hlook.
    rewrite subsidiary_company_statistics_spec in Hs by assumption.
    apply mapM_subsidiary_record_keys in Hs.
    apply dict_lookup_None. rewrite Hs. intros Hin.
    apply in_map_iff in Hin as ([k' employees] & Hk & Hin). simpl in Hk. subst k'.
    apply filter_In in Hin as [Hin Hhas].
    apply In_dict_lookup in Hin; [|assumption].
    rewrite Hin in Hlook. inversion Hlook; subst. discriminate.
Qed.

Lemma C4_witness :
  global_company_statistics Sample.vacant = Ok (Stats.mk (Py.PyInt 0) 0 0 None) /\
  global_company_statistics Sample.company_salaries <> Raise ZeroDivisionError /\
  subsidiary_company_statistics Sample.company_salaries <> Raise ZeroDivisionError /\
  dict_lookup "DesignWorks" Sample.company_statistics = None.
Proof.
  destruct (C4_empty_input Sample.vacant) as (Hzero & _).
  { apply unique_keys_wf. reflexivity. }
  destruct (C4_empty_input Sample.company_salaries) as (_ & Hg & Hs & Habsent).
  { apply unique_keys_wf. reflexivity. }
  split.
  - apply Hzero. intros k employees [H|[H|[]]]; inversion H; reflexivity.
  - split; [exact Hg|]. split; [exact Hs|].
    apply Habsent; vm_compute; reflexivity.
Defined.

(** ** Zero statistics *)

Lemma total_zero (l : list Z) : Forall (fun s => s = 0) l -> total l = 0.
Proof. induction 1 as [|x l Hx _ IH]; unfold total in *; simpl; lia. Qed.

Lemma truediv_zero {A : Type} (x : A) (l : list A) :
  Py.truediv 0 (Py.len (x :: l)) = Ok (Py.PyFloat (S754_zero false)).
Proof. reflexivity. Qed.

Lemma extremes_zero (l : list Z) (hi lo : Z) :
  is_maximum l hi -> is_minimum l lo ->
  (hi = 0 /\ lo = 0 <-> Forall (fun s => s = 0) l).
Proof.
  intros [Hhi Hmax] [Hlo Hmin]. rewrite Forall_forall in Hmax, Hmin. split.
  - intros [-> ->]. apply Forall_forall. intros x Hx.
    specialize (Hmax x Hx). specialize (Hmin x Hx). lia.
  - intros Hall. rewrite Forall_forall in Hall. split; now apply Hall.
Qed.

Lemma statistics_all_zero (all_salaries : list Z) (avg : Py.number) (hi lo : Z)
      (employees : option (list Emp.t)) :
  all_salaries <> [] ->
  Py.truediv (total all_salaries) (Py.len all_salaries) = Ok avg ->
  is_maximum all_salaries hi -> is_minimum all_salaries lo ->
  (all_zero (Stats.mk avg hi lo employees) <-> Forall (fun s => s = 0) all_salaries).
Proof.
  intros Hne Havg Hmax Hmin. unfold all_zero; simpl. split.
  - intros (_ & Hhi & Hlo). now apply (extremes_zero _ _ _ Hmax Hmin).
  - intros Hall. split; [|now apply (extremes_zero _ _ _ Hmax Hmin)].
    rewrite (total_zero _ Hall) in Havg.
    destruct all_salaries as [|x l]; [congruence|].
    rewrite truediv_zero in Havg. inversion Havg. reflexivity.
Qed.

(** C9, as amended: in every statistics record the aggregators produce,
    [average_salary], [highest_salary] and [lowest_salary] are all 0 exactly
    when every salary of the underlying set is 0, which includes the empty
    set; so when some salary is not 0 the three are not all 0. *)
Theorem C9_all_zero (salary_data : salary_map) :
  dict_wf salary_data ->
  (forall g, global_company_statistics salary_data = Ok g ->
             (all_zero g <-> Forall (fun s => s = 0) (flatten_salaries salary_data))) /\
  (forall statistics k rec,
      subsidiary_company_statistics salary_data = Ok statistics ->
      In (k, rec) statistics ->
      exists employees,
        In (k, employees) salary_data /\
        (all_zero rec <-> Forall (fun s => s = 0) (salaries_of employees))).
Proof.
  intros Hwf. split.
  - intros g Hg. rewrite global_company_statistics_spec in Hg by assumption.
    destruct (flatten_salaries salary_data) as [|x l] eqn:Hflat.
    + inversion Hg; subst. unfold all_zero; simpl. split; auto.
    + do 3 inv_bind Hg. inversion Hg; subst.
      apply statistics_all_zero.
      * discriminate.
      * now rewrite <- sum_total.
      * now apply max_is_maximum.
      * now apply min_is_minimum.
  - intros statistics k rec Hs Hin.
    destruct (statistics_entry_origin _ _ _ _ Hwf Hs Hin) as (employees & Hemp & Hne & Hrec).
    exists employees. split; [assumption|].
    apply subsidiary_record_Ok in Hrec. simpl in Hrec.
    destruct Hrec as (_ & Hes & Havg & Hmax & Hmin).
    destruct rec as [avg hi lo es]; simpl in *.
    unfold all_zero; simpl.
    apply (statistics_all_zero (salaries_of employees) avg hi lo es); try assumption.
    destruct employees; [congruence | discriminate].
Qed.

Lemma C9_witness :
  ~ all_zero Sample.company_global /\
  (all_zero (Stats.mk (Py.PyFloat (S754_zero false)) 0 0 None)
   <-> Forall (fun s => s = 0) (flatten_salaries Sample.idle)).
Proof.
  destruct (C9_all_zero Sample.company_salaries) as (Hg & _).
  { apply unique_keys_wf. reflexivity. }
  destruct (C9_all_zero Sample.idle) as (Hidle & _).
  { apply unique_keys_wf. reflexivity. }
  split.
  - intros Hz. apply (Hg Sample.company_global) in Hz; [|vm_compute; reflexivity].
    inversion Hz as [|? ? Habs]. discriminate Habs.
  - apply Hidle. vm_compute. reflexivity.
Defined.

(** C9 as stated fails: a subsidiary whose only employee has no wage
    entries gives a salary set that is not empty, and all three figures
    are 0. *)
Lemma C9_counterexample :
  calculate_monthly_salaries [("TechCorp"%string, [Sample.cyd])]
    = Ok (Sample.idle,
          [("TechCorp"%string, [Raw.update_monthly_salary Sample.cyd (Py.PyInt 0)])]) /\
  flatten_salaries Sample.idle = [0] /\
  global_company_statistics Sample.idle
    = Ok (Stats.mk (Py.PyFloat (S754_zero false)) 0 0 None) /\
  all_zero (Stats.mk (Py.PyFloat (S754_zero false)) 0 0 None).
Proof.
  split; [vm_compute; reflexivity|]. split; [reflexivity|].
  split; [vm_compute; reflexivity|]. repeat split.
Qed.

(** ** Global and per-subsidiary extremes *)

Lemma In_flatten (salary_data : salary_map) (x : Z) :
  In x (flatten_salaries salary_data) <->
  exists k employees, In (k, employees) salary_data /\ In x (salaries_of employees).
Proof.
  unfold flatten_salaries. rewrite in_concat. split.
  - intros (l & Hl & Hx). apply in_map_iff in Hl as ([k employees] & <- & Hin). eauto.
  - intros (k & employees & Hin & Hx). exists (salaries_of employees). split; [|assumption].
    apply in_map_iff. exists (k, employees). auto.
Qed.



(** * Floating point *)

(** ** Binary digits *)

Lemma digits2_pos_bounds (p : positive) :
  2 ^ (Z.pos (digits2_pos p) - 1) <= Z.pos p < 2 ^ Z.pos (digits2_pos p).
Proof.
  induction p as [p IH|p IH|]; simpl digits2_pos.
  - rewrite Pos2Z.inj_succ.
    replace (Z.succ (Z.pos (digits2_pos p)) - 1) with (Z.succ (Z.pos (digits2_pos p) - 1)) by lia.
    rewrite !Z.pow_succ_r by lia. lia.
  - rewrite Pos2Z.inj_succ.
    replace (Z.succ (Z.pos (digits2_pos p)) - 1) with (Z.succ (Z.pos (digits2_pos p) - 1)) by lia.
    rewrite !Z.pow_succ_r by lia. lia.
  - simpl. lia.
Qed.

Lemma Zdigits2_nonneg (m : Z) : 0 <= Zdigits2 m.
Proof. destruct m; simpl; lia. Qed.

Lemma Zdigits2_lt (m : Z) : 0 <= m -> m < 2 ^ Zdigits2 m.
Proof.
  destruct m as [|p|p]; simpl; try lia. intros _. apply digits2_pos_bounds.
Qed.

Lemma Zdigits2_ge (m : Z) : 0 < m -> 2 ^ (Zdigits2 m - 1) <= m.
Proof.
  destruct m as [|p|p]; simpl; try lia. intros _. apply digits2_pos_bounds.
Qed.

Lemma Zdigits2_le (m j : Z) : 0 <= j -> 0 <= m < 2 ^ j -> Zdigits2 m <= j.
Proof.
  intros Hj [Hm Hlt]. destruct (Z.eq_dec m 0) as [->|Hne]; [simpl; lia|].
  pose proof (Zdigits2_ge m ltac:(lia)) as Hge.
  destruct (Z_le_gt_dec (Zdigits2 m) j) as [|Hgt]; [assumption|exfalso].
  assert (2 ^ j <= 2 ^ (Zdigits2 m - 1)) by (apply Z.pow_le_mono_r; lia). lia.
Qed.

Lemma Zdigits2_unique (m d : Z) : 0 < d -> 2 ^ (d - 1) <= m < 2 ^ d -> Zdigits2 m = d.
Proof.
  intros Hd [Hlo Hhi].
  assert (Hm : 0 < m) by (assert (0 < 2 ^ (d - 1)) by (apply Z.pow_pos_nonneg; lia); lia).
  pose proof (Zdigits2_ge m Hm). pose proof (Zdigits2_lt m ltac:(lia)).
  pose proof (Zdigits2_nonneg m).
  destruct (Z.lt_trichotomy (Zdigits2 m) d) as [Hlt|[Heq|Hgt]]; [exfalso|assumption|exfalso].
  - assert (2 ^ Zdigits2 m <= 2 ^ (d - 1)) by (apply Z.pow_le_mono_r; lia). lia.
  - assert (2 ^ d <= 2 ^ (Zdigits2 m - 1)) by (apply Z.pow_le_mono_r; lia). lia.
Qed.

(** ** Shifting right with a round and a sticky bit *)

Lemma iter_pos_nat {A : Type} (f : A -> A) (p : positive) (x : A) :
  iter_pos f p x = Nat.iter (Pos.to_nat p) f x.
Proof.
  revert x; induction p as [p IH|p IH|]; intros x; simpl iter_pos.
  - rewrite !IH. rewrite <- Nat.iter_succ_r, <- Nat.iter_add. f_equal. lia.
  - rewrite !IH. rewrite <- Nat.iter_add. f_equal. lia.
  - reflexivity.
Qed.

Lemma shr_1_nonneg (m : Z) (r s : bool) :
  0 <= m ->
  shr_1 (Build_shr_record m r s) = Build_shr_record (m / 2) (Z.odd m) (r || s).
Proof.
  intros Hm. rewrite <- Z.div2_div.
  destruct m as [|[p|p|]|p]; try reflexivity; lia.
Qed.

Lemma shr_iter (n : nat) (m : Z) (r s : bool) :
  0 <= m ->
  exists r' s',
    Nat.iter n shr_1 (Build_shr_record m r s)
      = Build_shr_record (m / 2 ^ Z.of_nat n) r' s' /\
    (m mod 2 ^ Z.of_nat n = 0 -> r = false -> s = false -> r' = false /\ s' = false).
Proof.
  intros Hm. induction n as [|n IH].
  - exists r, s. simpl. rewrite Z.div_1_r. auto.
  - destruct IH as (r1 & s1 & Hiter & Hexact).
    simpl Nat.iter. rewrite Hiter.
    assert (Hpow : 0 < 2 ^ Z.of_nat n) by (apply Z.pow_pos_nonneg; lia).
    rewrite shr_1_nonneg by (apply Z.div_pos; lia).
    exists (Z.odd (m / 2 ^ Z.of_nat n)), (r1 || s1)%bool. split.
    + f_equal. rewrite Nat2Z.inj_succ, Z.pow_succ_r by lia.
      rewrite Z.div_div by lia. f_equal. lia.
    + rewrite Nat2Z.inj_succ, Z.pow_succ_r by lia. intros Hmod Hr Hs.
      assert (Hdiv : m = 2 * 2 ^ Z.of_nat n * (m / (2 * 2 ^ Z.of_nat n))).
      { apply Z.div_exact; lia. }
      assert (Hmod' : m mod 2 ^ Z.of_nat n = 0).
      { rewrite Hdiv. rewrite <- Z.mul_assoc, (Z.mul_comm 2), <- Z.mul_assoc.
        rewrite Z.mul_comm. apply Z.mod_mul. lia. }
      destruct (Hexact Hmod' Hr Hs) as [-> ->]. split; [|reflexivity].
      set (c := m / (2 * 2 ^ Z.of_nat n)) in *.
      replace (m / 2 ^ Z.of_nat n) with (2 * c).
      * rewrite Z.odd_mul. reflexivity.
      * rewrite Hdiv at 1. replace (2 * 2 ^ Z.of_nat n * c) with (2 * c * 2 ^ Z.of_nat n) by ring.
        rewrite Z.div_mul; lia.
Qed.

Lemma shr_spec (mx ex n : Z) (lx : location) :
  0 <= mx ->
  let k := Z.max 0 n in
  exists r' s',
    shr (shr_record_of_loc mx lx) ex n
      = (Build_shr_record (mx / 2 ^ k) r' s', ex + k) /\
    (mx mod 2 ^ k = 0 -> lx = loc_Exact -> r' = false /\ s' = false).
Proof.
  intros Hm k.
  assert (Hrec : exists r s, shr_record_of_loc mx lx = Build_shr_record mx r s /\
                             (lx = loc_Exact -> r = false /\ s = false)).
  { destruct lx as [|[]]; simpl; eexists _, _; split; try reflexivity; intros; try discriminate; auto. }
  destruct Hrec as (r & s & Hrec & Hex). rewrite Hrec.
  destruct n as [|p|p]; simpl shr; subst k.
  - exists r, s. simpl. rewrite Z.div_1_r, Z.add_0_r. split; [reflexivity|]. intros _ H; auto.
  - rewrite iter_pos_nat.
    destruct (shr_iter (Pos.to_nat p) mx r s Hm) as (r' & s' & Hiter & Hexact).
    rewrite positive_nat_Z in *.
    exists r', s'. rewrite Z.max_r by lia. split; [now rewrite Hiter|].
    intros Hmod Hl. destruct (Hex Hl) as [-> ->]. auto.
  - exists r, s. rewrite Z.max_l by lia. simpl. rewrite Z.div_1_r, Z.add_0_r.
    split; [reflexivity|]. intros _ H; auto.
Qed.

(** ** Rounding to binary64 *)

Lemma fexp_eq (e : Z) : fexp Py.prec Py.emax e = Z.max (e - 53) (-1074).
Proof. reflexivity. Qed.

Lemma pow2_pos (n : Z) : 0 <= n -> 0 < 2 ^ n.
Proof. intros; apply Z.pow_pos_nonneg; lia. Qed.

Lemma binary_round_aux_spec (s : bool) (mx ex : Z) (lx : location) :
  0 <= mx ->
  let k := Z.max 0 (fexp Py.prec Py.emax (Zdigits2 mx + ex) - ex) in
  let e' := ex + k in
  let q := mx / 2 ^ k in
  exists m1,
    (m1 = q \/ (m1 = q + 1 /\ ~ (lx = loc_Exact /\ mx mod 2 ^ k = 0))) /\
    0 <= m1 <= 2 ^ 53 /\
    binary_round_aux Py.prec Py.emax s mx ex lx =
      if m1 =? 0 then S754_zero s
      else if m1 <? 2 ^ 53 then
             if e' <=? 971 then S754_finite s (Z.to_pos m1) e' else S754_infinity s
           else
             if e' + 1 <=? 971 then S754_finite s (Z.to_pos (2 ^ 52)) (e' + 1)
             else S754_infinity s.
Proof.
  intros Hm k e' q.
  assert (Hk : 0 <= k) by (unfold k; lia).
  assert (Hkd : Zdigits2 mx - 53 <= k) by (unfold k; rewrite fexp_eq; lia).
  assert (He' : -1074 <= e') by (unfold e', k; rewrite fexp_eq; lia).
  assert (Hq : 0 <= q < 2 ^ 53).
  { unfold q. pose proof (pow2_pos k Hk). split; [apply Z.div_pos; lia|].
    apply Z.div_lt_upper_bound; [lia|].
    pose proof (Zdigits2_lt mx Hm). pose proof (Zdigits2_nonneg mx).
    assert (2 ^ Zdigits2 mx <= 2 ^ (k + 53)) by (apply Z.pow_le_mono_r; lia).
    rewrite Z.pow_add_r in H2 by lia. lia. }
  unfold binary_round_aux, shr_fexp.
  destruct (shr_spec mx ex (fexp Py.prec Py.emax (Zdigits2 mx + ex) - ex) lx Hm)
    as (r' & s' & Hshr & Hexact).
  fold k in Hshr, Hexact. fold q in Hshr. fold e' in Hshr. rewrite Hshr.
  cbn [shr_m].
  set (m1 := round_nearest_even q (loc_of_shr_record (Build_shr_record q r' s'))).
  assert (Hm1 : m1 = q \/ (m1 = q + 1 /\ ~ (lx = loc_Exact /\ mx mod 2 ^ k = 0))).
  { unfold m1. destruct r', s'; simpl.
    - right. split; [reflexivity|]. intros [Hl Hmod]. destruct (Hexact Hmod Hl); discriminate.
    - destruct (Z.even q); [now left|]. right. split; [reflexivity|].
      intros [Hl Hmod]. destruct (Hexact Hmod Hl); discriminate.
    - now left.
    - now left. }
  exists m1. split; [exact Hm1|].
  assert (Hm1b : 0 <= m1 <= 2 ^ 53) by lia.
  split; [exact Hm1b|].
  destruct (shr_spec m1 e' (fexp Py.prec Py.emax (Zdigits2 m1 + e') - e') loc_Exact
                     ltac:(lia)) as (r2 & s2 & Hshr2 & _).
  rewrite Hshr2. cbn [shr_m]. clear Hshr2 Hshr.
  destruct (Z.eqb_spec m1 0) as [Hz|Hnz].
  - rewrite Hz. simpl Zdigits2. rewrite fexp_eq.
    rewrite Z.max_l by lia. simpl. reflexivity.
  - destruct (Z.ltb_spec m1 (2 ^ 53)) as [Hlt|Hge].
    + assert (Hd : Zdigits2 m1 <= 53) by (apply Zdigits2_le; lia).
      rewrite fexp_eq. rewrite Z.max_l by lia.
      rewrite Z.pow_0_r, Z.div_1_r, Z.add_0_r.
      destruct m1 as [|p|p]; try lia. reflexivity.
    + assert (Heq : m1 = 2 ^ 53) by lia. rewrite Heq.
      change (Zdigits2 (2 ^ 53)) with 54. rewrite fexp_eq.
      replace (Z.max 0 (Z.max (54 + e' - 53) (-1074) - e')) with 1 by lia.
      reflexivity.
Qed.

(** ** Division of two ints *)

Lemma new_location_exact (b : Z) : new_location b 0 = loc_Exact.
Proof. unfold new_location. destruct (Z.even b); reflexivity. Qed.

Lemma SFdiv_core_binary_ints (a b : positive) :
  exists s, 0 <= s /\
    SFdiv_core_binary Py.prec Py.emax (Z.pos a) 0 (Z.pos b) 0
      = (Z.pos a * 2 ^ s / Z.pos b, - s, new_location (Z.pos b) ((Z.pos a * 2 ^ s) mod Z.pos b)).
Proof.
  unfold SFdiv_core_binary.
  set (e0 := Z.min _ _).
  assert (He0 : e0 <= 0) by (unfold e0; lia).
  exists (- e0). split; [lia|].
  replace (0 - 0 - e0) with (- e0) by lia.
  rewrite Z.opp_involutive.
  assert (Hm : match - e0 with
               | 0 => Z.pos a
               | Z.pos _ => Z.shiftl (Z.pos a) (- e0)
               | Z.neg _ => 0
               end = Z.pos a * 2 ^ (- e0)).
  { destruct (- e0) as [|p|p] eqn:He; try lia.
    rewrite Z.shiftl_mul_pow2 by lia. reflexivity. }
  rewrite Hm. unfold Z.div, Z.modulo.
  destruct (Z.div_eucl (Z.pos a * 2 ^ (- e0)) (Z.pos b)) as [q r]. reflexivity.
Qed.

Lemma SFdiv_ints_bounds (sa : bool) (a b : positive) (L H : Z) :
  0 <= L -> L * Z.pos b <= Z.pos a <= H * Z.pos b -> H < 2 ^ 53 ->
  magnitude_between L H sa
    (SFdiv Py.prec Py.emax (S754_finite sa a 0) (S754_finite false b 0)).
Proof.
  intros HL [Hlo Hhi] HH. unfold SFdiv.
  destruct (SFdiv_core_binary_ints a b) as (s & Hs & ->).
  rewrite xorb_false_r.
  set (A := Z.pos a) in *. set (B := Z.pos b) in *.
  assert (HA : 0 < A) by (unfold A; lia). assert (HB : 0 < B) by (unfold B; lia).
  pose proof (pow2_pos s Hs) as Hps.
  set (q0 := A * 2 ^ s / B).
  assert (Hq0 : 0 <= q0) by (unfold q0; apply Z.div_pos; lia).
  assert (Hq0lt : q0 < 2 ^ (53 + s)).
  { unfold q0. apply Z.div_lt_upper_bound; [lia|]. rewrite Z.pow_add_r by lia. nia. }
  destruct (binary_round_aux_spec sa q0 (- s)
              (new_location B ((A * 2 ^ s) mod B)) Hq0) as (m1 & Hm1 & Hm1b & ->).
  set (k := Z.max 0 (fexp Py.prec Py.emax (Zdigits2 q0 + - s) - - s)) in *.
  set (e1 := - s + k) in *.
  assert (Hk : 0 <= k) by (unfold k; lia).
  assert (He1 : e1 <= 0).
  { unfold e1, k. rewrite fexp_eq.
    assert (Zdigits2 q0 <= 53 + s) by (apply Zdigits2_le; lia). lia. }
  set (T := 2 ^ (- e1)).
  assert (HT : 0 < T) by (unfold T; apply pow2_pos; lia).
  pose proof (pow2_pos k Hk) as Hpk.
  assert (Hsplit : 2 ^ s = T * 2 ^ k).
  { unfold T. rewrite <- Z.pow_add_r by lia. f_equal. unfold e1. lia. }
  assert (Hq : q0 / 2 ^ k = A * T / B).
  { unfold q0. rewrite Z.div_div by lia. rewrite Hsplit.
    replace (A * (T * 2 ^ k)) with (A * T * 2 ^ k) by ring.
    rewrite Z.div_mul_cancel_r by lia. reflexivity. }
  rewrite Hq in Hm1.
  assert (Hlow : L * T <= A * T / B).
  { apply Z.div_le_lower_bound; [lia|]. nia. }
  assert (Hup : m1 <= H * T).
  { assert (Hle : A * T / B <= H * T) by (apply Z.div_le_upper_bound; [lia|]; nia).
    destruct Hm1 as [->|[-> Hinexact]]; [assumption|].
    destruct (Z.eq_dec (A * T / B) (H * T)) as [Heq|Hne]; [exfalso|lia].
    apply Hinexact.
    assert (HAT : A * T = H * T * B).
    { pose proof (Z.mul_div_le (A * T) B HB). nia. }
    assert (HAs : A * 2 ^ s = H * T * 2 ^ k * B) by (rewrite Hsplit; nia).
    split.
    - rewrite HAs, Z.mod_mul by lia. apply new_location_exact.
    - unfold q0. rewrite HAs, Z.div_mul by lia. apply Z.mod_mul. lia. }
  assert (Hm1lo : L * T <= m1) by (destruct Hm1 as [->|[-> _]]; lia).
  destruct (Z.eqb_spec m1 0) as [Hz|Hnz].
  - cbn [magnitude_between]. split; [reflexivity|]. nia.
  - destruct (Z.ltb_spec m1 (2 ^ 53)) as [Hlt|Hge].
    + rewrite (proj2 (Z.leb_le e1 971)) by lia. cbn [magnitude_between].
      split; [reflexivity|]. rewrite Z2Pos.id by lia.
      destruct (Z.leb_spec 0 e1) as [He|He].
      * assert (E : e1 = 0) by lia. unfold T in *. rewrite E in *.
        change (2 ^ (- 0)) with 1 in *. rewrite Z.pow_0_r. lia.
      * fold T. lia.
    + assert (Heq : m1 = 2 ^ 53) by lia.
      assert (HT2 : 2 <= T) by nia.
      assert (He1' : e1 <= -1).
      { destruct (Z.eq_dec e1 0) as [E|E]; [|lia]. unfold T in HT2. rewrite E in HT2.
        change (2 ^ (- 0)) with 1 in HT2. lia. }
      rewrite (proj2 (Z.leb_le (e1 + 1) 971)) by lia. cbn [magnitude_between].
      split; [reflexivity|].
      assert (HTT : T = 2 * 2 ^ (- (e1 + 1))).
      { unfold T. rewrite <- Z.pow_succ_r by lia. f_equal. lia. }
      rewrite Z2Pos.id by (apply pow2_pos; lia).
      destruct (Z.leb_spec 0 (e1 + 1)) as [He|He].
      * assert (E : e1 + 1 = 0) by lia. rewrite E in *.
        change (2 ^ (- 0)) with 1 in HTT. rewrite Z.pow_0_r.
        change (2 ^ 53) with (2 * 2 ^ 52) in *. lia.
      * set (T' := 2 ^ (- (e1 + 1))) in *.
        change (2 ^ 53) with (2 * 2 ^ 52) in *. nia.
Qed.

(** ** Comparing ints with floats *)

Lemma le_int_float (L : Z) (s : bool) (m : positive) (e : Z) :
  Py.le (Py.PyInt L) (Py.PyFloat (S754_finite s m e)) = true <->
  if 0 <=? e then L <= cond_Zopp s (Z.pos m) * 2 ^ e
  else L * 2 ^ (- e) <= cond_Zopp s (Z.pos m).
Proof.
  unfold Py.le, Py.compare, Py.SFcompare_Z.
  destruct (0 <=? e); cbv [option_map].
  - destruct (Z.compare_spec (cond_Zopp s (Z.pos m) * 2 ^ e) L); simpl;
      split; intros; try discriminate; try reflexivity; lia.
  - destruct (Z.compare_spec (cond_Zopp s (Z.pos m)) (L * 2 ^ (- e))); simpl;
      split; intros; try discriminate; try reflexivity; lia.
Qed.

Lemma le_float_int (H : Z) (s : bool) (m : positive) (e : Z) :
  Py.le (Py.PyFloat (S754_finite s m e)) (Py.PyInt H) = true <->
  if 0 <=? e then cond_Zopp s (Z.pos m) * 2 ^ e <= H
  else cond_Zopp s (Z.pos m) <= H * 2 ^ (- e).
Proof.
  unfold Py.le, Py.compare, Py.SFcompare_Z.
  destruct (0 <=? e).
  - destruct (Z.compare_spec (cond_Zopp s (Z.pos m) * 2 ^ e) H);
      split; intros; try discriminate; try reflexivity; lia.
  - destruct (Z.compare_spec (cond_Zopp s (Z.pos m)) (H * 2 ^ (- e)));
      split; intros; try discriminate; try reflexivity; lia.
Qed.

Lemma le_int_zero (L : Z) (s : bool) :
  Py.le (Py.PyInt L) (Py.PyFloat (S754_zero s)) = true <-> L <= 0.
Proof.
  unfold Py.le, Py.compare, Py.SFcompare_Z. cbv [option_map].
  destruct (Z.compare_spec 0 L); simpl; split; intros; try discriminate; try reflexivity; lia.
Qed.

Lemma le_zero_int (H : Z) (s : bool) :
  Py.le (Py.PyFloat (S754_zero s)) (Py.PyInt H) = true <-> 0 <= H.
Proof.
  unfold Py.le, Py.compare, Py.SFcompare_Z.
  destruct (Z.compare_spec 0 H); simpl; split; intros; try discriminate; try reflexivity; lia.
Qed.

(** The quotient of two ints lies between any two integer bounds of the
    exact quotient that are below 2^53 in magnitude; in particular the
    division does not overflow. *)
Lemma truediv_bounds (a b L H : Z) :
  0 < b -> L * b <= a <= H * b -> - 2 ^ 53 < L -> H < 2 ^ 53 ->
  exists avg,
    Py.truediv a b = Ok avg /\
    Py.le (Py.PyInt L) avg = true /\ Py.le avg (Py.PyInt H) = true.
Proof.
  intros Hb [Hlo Hhi] HL HH. unfold Py.truediv.
  destruct (Z.eqb_spec b 0) as [|_]; [lia|].
  destruct b as [|pb|pb]; try lia. clear Hb.
  destruct a as [|pa|pa]; cbn [Py.Z2SF].
  - cbn [SFdiv xorb]. eexists. split; [reflexivity|].
    split; [apply le_int_zero | apply le_zero_int]; nia.
  - pose proof (SFdiv_ints_bounds false pa pb (Z.max 0 L) H) as Hmag.
    destruct (SFdiv _ _ _ _) as [s|s| |s m e] eqn:Hdiv;
      cbn [magnitude_between] in Hmag;
      try (exfalso; apply Hmag; [lia|nia|lia]).
    + destruct Hmag as [-> Hz]; [lia|nia|lia|].
      eexists. split; [reflexivity|].
      split; [apply le_int_zero | apply le_zero_int]; nia.
    + destruct Hmag as [-> Hm]; [lia|nia|lia|].
      eexists. split; [reflexivity|].
      split; [apply le_int_float | apply le_float_int]; cbn [cond_Zopp];
        destruct (0 <=? e); lia.
  - pose proof (SFdiv_ints_bounds true pa pb (Z.max 0 (- H)) (- L)) as Hmag.
    assert (Hneg : Z.neg pa = - Z.pos pa) by reflexivity.
    destruct (SFdiv _ _ _ _) as [s|s| |s m e] eqn:Hdiv;
      cbn [magnitude_between] in Hmag;
      try (exfalso; apply Hmag; [lia|nia|lia]).
    + destruct Hmag as [-> Hz]; [lia|nia|lia|].
      eexists. split; [reflexivity|].
      split; [apply le_int_zero | apply le_zero_int]; nia.
    + destruct Hmag as [-> Hm]; [lia|nia|lia|].
      eexists. split; [reflexivity|].
      assert (0 <= e \/ 0 < 2 ^ (- e)) by (destruct (Z_le_gt_dec 0 e); [left; lia | right; apply Z.pow_pos_nonneg; lia]).
      split; [apply le_int_float | apply le_float_int]; cbn [cond_Zopp];
        destruct (Z.leb_spec 0 e); try nia.
Qed.

(** ** Exact float arithmetic on small values *)

Lemma Zdigits2_shift (m j : Z) : 0 < m -> 0 <= j -> Zdigits2 (m * 2 ^ j) = Zdigits2 m + j.
Proof.
  intros Hm Hj. pose proof (Zdigits2_ge m Hm). pose proof (Zdigits2_lt m ltac:(lia)).
  pose proof (Zdigits2_nonneg m).
  assert (0 < Zdigits2 m) by (destruct m; simpl in *; lia).
  pose proof (pow2_pos j Hj).
  apply Zdigits2_unique; [lia|].
  replace (Zdigits2 m + j - 1) with (Zdigits2 m - 1 + j) by lia.
  rewrite !Z.pow_add_r by lia. nia.
Qed.

Lemma Zdigits2_pos (m : positive) : Zdigits2 (Z.pos m) = Z.pos (digits2_pos m).
Proof. reflexivity. Qed.

Lemma binary_round_aux_exact (s : bool) (mx ex : Z) :
  0 < mx ->
  let k := Z.max 0 (fexp Py.prec Py.emax (Zdigits2 mx + ex) - ex) in
  mx mod 2 ^ k = 0 -> ex + k <= 971 ->
  binary_round_aux Py.prec Py.emax s mx ex loc_Exact
    = S754_finite s (Z.to_pos (mx / 2 ^ k)) (ex + k).
Proof.
  intros Hm k Hmod He.
  destruct (binary_round_aux_spec s mx ex loc_Exact ltac:(lia)) as (m1 & Hm1 & Hb & ->).
  fold k in Hm1 |- *.
  assert (Hk : 0 <= k) by (unfold k; lia). pose proof (pow2_pos k Hk).
  assert (Hq : m1 = mx / 2 ^ k) by (destruct Hm1 as [?|[_ Hn]]; [assumption | exfalso; auto]).
  assert (Hq1 : 0 < mx / 2 ^ k).
  { apply Z.div_str_pos. split; [lia|]. apply Z.divide_pos_le; [lia|].
    now apply Z.mod_divide; [lia|]. }
  assert (Hlt : m1 < 2 ^ 53).
  { rewrite Hq. apply Z.div_lt_upper_bound; [lia|].
    pose proof (Zdigits2_lt mx ltac:(lia)). pose proof (Zdigits2_nonneg mx).
    assert (Zdigits2 mx - 53 <= k) by (unfold k; rewrite fexp_eq; lia).
    assert (2 ^ Zdigits2 mx <= 2 ^ (k + 53)) by (apply Z.pow_le_mono_r; lia).
    rewrite Z.pow_add_r in * by lia. lia. }
  rewrite <- Hq.
  destruct (Z.eqb_spec m1 0); [lia|].
  destruct (Z.ltb_spec m1 (2 ^ 53)); [|lia].
  destruct (Z.leb_spec (ex + k) 971); [reflexivity|lia].
Qed.

(** Rounding [c * 2^j] at exponent [ex], exactly, for [c] of at most 53
    bits followed by enough zero bits. *)
Lemma binary_round_aux_canon (c : positive) (j ex : Z) :
  let d := Z.pos (digits2_pos c) in
  d <= 53 -> 53 - d <= j ->
  -1074 <= ex + j + d - 53 <= 971 ->
  binary_round_aux Py.prec Py.emax false (Z.pos c * 2 ^ j) ex loc_Exact = canon c (ex + j).
Proof.
  intros d Hd Hj Hrange.
  assert (Hj0 : 0 <= j) by lia.
  pose proof (pow2_pos j Hj0).
  assert (Hmx : 0 < Z.pos c * 2 ^ j) by lia.
  assert (Hdig : Zdigits2 (Z.pos c * 2 ^ j) = d + j).
  { rewrite Zdigits2_shift by lia. reflexivity. }
  assert (Hk : Z.max 0 (fexp Py.prec Py.emax (Zdigits2 (Z.pos c * 2 ^ j) + ex) - ex)
               = d + j - 53).
  { rewrite Hdig, fexp_eq. lia. }
  assert (Hsplit : 2 ^ j = 2 ^ (53 - d) * 2 ^ (d + j - 53)).
  { rewrite <- Z.pow_add_r by lia. f_equal. lia. }
  assert (Hp : 0 < 2 ^ (d + j - 53)) by (apply pow2_pos; lia).
  rewrite binary_round_aux_exact; rewrite ?Hk; try lia.
  - unfold canon. fold d. f_equal.
    + f_equal. rewrite Hsplit, Z.mul_assoc, Z.div_mul by lia. reflexivity.
    + lia.
  - rewrite Hsplit, Z.mul_assoc. apply Z.mod_mul. lia.
Qed.

Lemma Pos_iter_xO (m p : positive) : Z.pos (Pos.iter xO m p) = Z.pos m * 2 ^ Z.pos p.
Proof.
  induction p as [|p IH] using Pos.peano_ind.
  - simpl. lia.
  - rewrite Pos.iter_succ. rewrite Pos2Z.inj_xO, IH, Pos2Z.inj_succ, Z.pow_succ_r by lia. ring.
Qed.

Lemma shl_align_spec (mx : positive) (ex ez : Z) :
  ez <= ex ->
  shl_align mx ex ez = (Z.to_pos (Z.pos mx * 2 ^ (ex - ez)), ez).
Proof.
  intros Hle. unfold shl_align.
  destruct (ez - ex) as [|p|p] eqn:Hd; try lia.
  - assert (ez = ex) by lia. subst ez. rewrite Z.sub_diag, Z.pow_0_r, Z.mul_1_r. reflexivity.
  - replace (ex - ez) with (Z.pos p) by lia. rewrite <- Pos_iter_xO. reflexivity.
Qed.

Lemma binary_round_canon (S c : positive) (j ex : Z) :
  let d := Z.pos (digits2_pos c) in
  Z.pos S = Z.pos c * 2 ^ j -> 0 <= j -> d <= 53 ->
  -1074 <= ex + j + d - 53 <= 971 ->
  binary_round Py.prec Py.emax false S ex = canon c (ex + j).
Proof.
  intros d HS Hj Hd Hrange. unfold binary_round.
  assert (HdS : Z.pos (digits2_pos S) = d + j).
  { rewrite <- Zdigits2_pos, HS, Zdigits2_shift by lia. reflexivity. }
  rewrite HdS, fexp_eq. rewrite Z.max_l by lia.
  destruct (Z_le_gt_dec (d + j + ex - 53) ex) as [Hle|Hgt].
  - rewrite shl_align_spec by lia.
    assert (Hp : 0 < 2 ^ (ex - (d + j + ex - 53))) by (apply pow2_pos; lia).
    pose proof (pow2_pos j Hj).
    rewrite Z2Pos.id by lia. rewrite HS, <- Z.mul_assoc, <- Z.pow_add_r by lia.
    rewrite binary_round_aux_canon; fold d; try lia. f_equal. lia.
  - unfold shl_align. destruct (d + j + ex - 53 - ex) as [|p|p] eqn:Hdiff; try lia.
    rewrite HS. rewrite binary_round_aux_canon; fold d; try lia. reflexivity.
Qed.

Lemma float_of_int_repr (v : Z) :
  0 <= v < 2 ^ 53 -> Py.float_of_int v = Ok (repr v 0).
Proof.
  intros [Hv Hlt]. unfold Py.float_of_int, binary_normalize.
  destruct v as [|m|m]; try lia; [reflexivity|]. cbn [repr].
  assert (Hd : Z.pos (digits2_pos m) <= 53).
  { rewrite <- Zdigits2_pos. apply Zdigits2_le; lia. }
  rewrite (binary_round_canon m m 0 0); try lia.
  reflexivity.
Qed.

Lemma Zdigits2_mul_ge (a b : positive) :
  Z.pos (digits2_pos a) + Z.pos (digits2_pos b) - 1 <= Z.pos (digits2_pos (a * b)).
Proof.
  pose proof (digits2_pos_bounds a) as [Ha _]. pose proof (digits2_pos_bounds b) as [Hb _].
  pose proof (digits2_pos_bounds (a * b)) as [_ Hab].
  set (da := Z.pos (digits2_pos a)) in *. set (db := Z.pos (digits2_pos b)) in *.
  set (dab := Z.pos (digits2_pos (a * b))) in *.
  assert (0 < da) by (unfold da; lia). assert (0 < db) by (unfold db; lia).
  assert (0 < dab) by (unfold dab; lia).
  destruct (Z_le_gt_dec (da + db - 1) dab) as [|Hgt]; [assumption|exfalso].
  assert (H2 : 2 ^ dab <= 2 ^ (da - 1 + (db - 1))) by (apply Z.pow_le_mono_r; lia).
  rewrite Z.pow_add_r in H2 by lia. rewrite Pos2Z.inj_mul in Hab.
  assert (0 < 2 ^ (da - 1)) by (apply pow2_pos; lia).
  assert (0 < 2 ^ (db - 1)) by (apply pow2_pos; lia). nia.
Qed.

Lemma SFmul_canon (a b : positive) (e1 e2 : Z) :
  Z.pos a * Z.pos b < 2 ^ 53 ->
  -1000 <= e1 + e2 <= 900 ->
  SFmul Py.prec Py.emax (canon a e1) (canon b e2) = canon (a * b) (e1 + e2).
Proof.
  intros Hab Hrange. unfold canon at 1 2. cbn [SFmul xorb].
  set (da := Z.pos (digits2_pos a)). set (db := Z.pos (digits2_pos b)).
  pose proof (Zdigits2_mul_ge a b) as Hge. fold da db in Hge.
  assert (Hdab : Z.pos (digits2_pos (a * b)) <= 53).
  { rewrite <- Zdigits2_pos. apply Zdigits2_le; lia. }
  assert (0 < da) by (unfold da; lia). assert (0 < db) by (unfold db; lia).
  assert (Hda : da <= 53) by lia. assert (Hdb : db <= 53) by lia.
  assert (Hpa : 0 < 2 ^ (53 - da)) by (apply pow2_pos; lia).
  assert (Hpb : 0 < 2 ^ (53 - db)) by (apply pow2_pos; lia).
  rewrite Pos2Z.inj_mul, !Z2Pos.id by lia.
  replace (Z.pos a * 2 ^ (53 - da) * (Z.pos b * 2 ^ (53 - db)))
    with (Z.pos (a * b) * 2 ^ (106 - da - db)).
  - rewrite binary_round_aux_canon; try lia. f_equal. lia.
  - rewrite Pos2Z.inj_mul.
    replace (106 - da - db) with ((53 - da) + (53 - db)) by lia.
    rewrite Z.pow_add_r by lia. ring.
Qed.

Lemma SFadd_canon (a b : positive) (e : Z) :
  Z.pos a + Z.pos b < 2 ^ 53 ->
  -1000 <= e <= 900 ->
  SFadd Py.prec Py.emax (canon a e) (canon b e) = canon (a + b) e.
Proof.
  intros Hab Hrange. unfold canon at 1 2. cbn [SFadd cond_Zopp].
  set (da := Z.pos (digits2_pos a)). set (db := Z.pos (digits2_pos b)).
  assert (Hda : da <= 53) by (unfold da; rewrite <- Zdigits2_pos; apply Zdigits2_le; lia).
  assert (Hdb : db <= 53) by (unfold db; rewrite <- Zdigits2_pos; apply Zdigits2_le; lia).
  assert (0 < da) by (unfold da; lia). assert (0 < db) by (unfold db; lia).
  assert (Hdab : Z.pos (digits2_pos (a + b)) <= 53).
  { rewrite <- Zdigits2_pos. apply Zdigits2_le; lia. }
  set (ez := Z.min (e + da - 53) (e + db - 53)).
  assert (Hpa : 0 < 2 ^ (53 - da)) by (apply pow2_pos; lia).
  assert (Hpb : 0 < 2 ^ (53 - db)) by (apply pow2_pos; lia).
  rewrite !shl_align_spec by (unfold ez; lia). cbn [fst].
  assert (Hp1 : 0 < 2 ^ (e + da - 53 - ez)) by (apply pow2_pos; unfold ez; lia).
  assert (Hp2 : 0 < 2 ^ (e + db - 53 - ez)) by (apply pow2_pos; unfold ez; lia).
  rewrite !Z2Pos.id by nia.
  assert (Hsum : Z.pos a * 2 ^ (53 - da) * 2 ^ (e + da - 53 - ez)
                 + Z.pos b * 2 ^ (53 - db) * 2 ^ (e + db - 53 - ez)
                 = Z.pos (a + b) * 2 ^ (e - ez)).
  { rewrite <- !Z.mul_assoc, <- !Z.pow_add_r by (unfold ez; lia).
    replace (53 - da + (e + da - 53 - ez)) with (e - ez) by lia.
    replace (53 - db + (e + db - 53 - ez)) with (e - ez) by lia.
    rewrite Pos2Z.inj_add. ring. }
  rewrite Hsum. assert (Hpe : 0 < 2 ^ (e - ez)) by (apply pow2_pos; unfold ez; lia).
  destruct (Z.pos (a + b) * 2 ^ (e - ez)) as [|S|S] eqn:HS; try lia.
  cbn [binary_normalize].
  rewrite (binary_round_canon S (a + b) (e - ez) ez); try lia.
  f_equal. lia.
Qed.

Lemma canon_double (a : positive) (e : Z) :
  Z.pos a < 2 ^ 52 -> canon (a~0) e = canon a (e + 1).
Proof.
  intros Ha. unfold canon. cbn [digits2_pos]. rewrite Pos2Z.inj_succ.
  set (d := Z.pos (digits2_pos a)).
  assert (Hd : d <= 52) by (unfold d; rewrite <- Zdigits2_pos; apply Zdigits2_le; lia).
  f_equal; [|lia]. f_equal.
  replace (53 - d) with (Z.succ (53 - Z.succ d)) by lia.
  rewrite Z.pow_succ_r by lia. rewrite Pos2Z.inj_xO. ring.
Qed.

Lemma int_canon (a : positive) :
  Z.pos a < 2 ^ 53 -> Py.int (Py.PyFloat (canon a 0)) = Ok (Z.pos a).
Proof.
  intros Ha. unfold canon, Py.int. cbn [cond_Zopp].
  set (d := Z.pos (digits2_pos a)).
  assert (Hd : d <= 53) by (unfold d; rewrite <- Zdigits2_pos; apply Zdigits2_le; lia).
  assert (Hp : 0 < 2 ^ (53 - d)) by (apply pow2_pos; lia).
  f_equal. rewrite Z2Pos.id by lia.
  destruct (Z.leb_spec 0 (0 + d - 53)) as [He|He].
  - replace (0 + d - 53) with 0 by lia. replace (53 - d) with 0 by lia.
    rewrite Z.shiftl_0_r, Z.pow_0_r. lia.
  - rewrite Z.shiftr_div_pow2 by lia. replace (- (0 + d - 53)) with (53 - d) by lia.
    apply Z.div_mul. lia.
Qed.

Lemma SFmul_repr (a b e1 e2 : Z) :
  0 <= a -> 0 <= b -> a * b < 2 ^ 53 -> -1000 <= e1 + e2 <= 900 ->
  SFmul Py.prec Py.emax (repr a e1) (repr b e2) = repr (a * b) (e1 + e2).
Proof.
  intros Ha Hb Hab Hrange.
  destruct a as [|pa|pa]; try lia; destruct b as [|pb|pb]; try lia; try reflexivity.
  cbn [repr Z.mul]. now apply SFmul_canon.
Qed.

Lemma SFadd_repr (a b e : Z) :
  0 <= a -> 0 <= b -> a + b < 2 ^ 53 -> -1000 <= e <= 900 ->
  SFadd Py.prec Py.emax (repr a e) (repr b e) = repr (a + b) e.
Proof.
  intros Ha Hb Hab Hrange.
  destruct a as [|pa|pa]; try lia; destruct b as [|pb|pb]; try lia; try reflexivity.
  cbn [repr Z.add]. now apply SFadd_canon.
Qed.

Lemma repr_double (a e : Z) : 0 <= a < 2 ^ 52 -> repr (2 * a) e = repr a (e + 1).
Proof.
  intros [Ha Hlt]. destruct a as [|pa|pa]; try lia; [reflexivity|].
  cbn [repr Z.mul]. now apply canon_double.
Qed.

Lemma int_repr (v : Z) : 0 <= v < 2 ^ 53 -> Py.int (Py.PyFloat (repr v 0)) = Ok v.
Proof.
  intros [Hv Hlt]. destruct v as [|pv|pv]; try lia; [reflexivity|].
  cbn [repr]. now apply int_canon.
Qed.

Lemma float_1_5_repr : Py.float_1_5 = repr 3 (-1).
Proof. reflexivity. Qed.

(** ** The overtime formula on small ints *)

Lemma overtime_exact (k c : Z) :
  0 <= k < 2 ^ 48 -> 0 <= c < 2 ^ 48 ->
  (overtime_salary <- Py.mul (Py.PyInt k) (Py.PyFloat Py.float_1_5) ;;
   s <- Py.add (Py.PyInt c) overtime_salary ;;
   Py.mul s (Py.PyInt 4)) = Ok (Py.PyFloat (repr (4 * c + 6 * k) 0)).
Proof.
  intros Hk Hc.
  assert (H48 : 2 ^ 53 = 32 * 2 ^ 48) by reflexivity.
  assert (H52 : 2 ^ 52 = 16 * 2 ^ 48) by reflexivity.
  unfold Py.mul, Py.add, Py.arith. cbn [Py.as_float].
  rewrite (float_of_int_repr k) by lia. cbn [bind Py.as_float].
  rewrite float_1_5_repr, SFmul_repr by lia. change (0 + -1) with (-1).
  rewrite (float_of_int_repr c) by lia. cbn [bind Py.as_float].
  replace (repr c 0) with (repr (2 * c) (-1)) by (rewrite repr_double by lia; reflexivity).
  rewrite SFadd_repr by lia.
  rewrite (float_of_int_repr 4) by lia. cbn [bind Py.as_float].
  rewrite SFmul_repr by lia. change (-1 + 0) with (-1).
  replace ((2 * c + k * 3) * 4) with (2 * (4 * c + 6 * k)) by ring.
  rewrite repr_double by lia. reflexivity.
Qed.

Lemma le_ints (a b : Z) : Py.le (Py.PyInt a) (Py.PyInt b) = (a <=? b).
Proof. unfold Py.le, Py.compare, Z.leb. destruct (a ?= b); reflexivity. Qed.

Lemma monthly_salary_value_ints (hr wh ch : Z) :
  0 <= hr < 2 ^ 24 -> 0 <= wh < 2 ^ 24 -> 0 <= ch < 2 ^ 24 ->
  exists v, monthly_salary_value (Py.PyInt hr) (Py.PyInt wh) (Py.PyInt ch) = Ok v /\
            Py.int v = Ok (exact_salary hr wh ch).
Proof.
  intros Hhr Hwh Hch. unfold monthly_salary_value, exact_salary. rewrite le_ints.
  destruct (Z.leb_spec wh ch) as [Hle|Hgt].
  - eexists. split; reflexivity.
  - assert (H48 : 2 ^ 48 = 2 ^ 24 * 2 ^ 24) by reflexivity.
    assert (H53 : 2 ^ 53 = 32 * 2 ^ 48) by reflexivity.
    change (Py.sub (Py.PyInt wh) (Py.PyInt ch)) with (Ok (Py.PyInt (wh - ch))).
    cbn [bind].
    change (Py.mul (Py.PyInt (wh - ch)) (Py.PyInt hr)) with (Ok (Py.PyInt ((wh - ch) * hr))).
    cbn [bind].
    change (Py.mul (Py.PyInt ch) (Py.PyInt hr)) with (Ok (Py.PyInt (ch * hr))).
    assert (Hk : 0 <= (wh - ch) * hr < 2 ^ 48).
    { rewrite H48. split; [apply Z.mul_nonneg_nonneg; lia|].
      apply Z.mul_lt_mono_nonneg; lia. }
    assert (Hc : 0 <= ch * hr < 2 ^ 48).
    { rewrite H48. split; [apply Z.mul_nonneg_nonneg; lia|].
      apply Z.mul_lt_mono_nonneg; lia. }
    pose proof (overtime_exact ((wh - ch) * hr) (ch * hr) Hk Hc) as Hover.
    destruct (Py.mul (Py.PyInt ((wh - ch) * hr)) (Py.PyFloat Py.float_1_5)) as [os|x];
      [|discriminate].
    cbn [bind] in Hover |- *. rewrite Hover.
    eexists. split; [reflexivity|]. apply int_repr. lia.
Qed.

Lemma int_wage_ok_get (field : option Py.number) :
  int_wage_ok field = true ->
  Raw.get field = Py.PyInt (wage field) /\ 0 <= wage field < 2 ^ 24.
Proof.
  unfold int_wage_ok, wage. destruct field as [[z|f]|]; cbn [Raw.get]; intros H.
  - apply andb_prop in H as [H1 H2]. apply Z.leb_le in H1. apply Z.ltb_lt in H2.
    split; [reflexivity|]. lia.
  - discriminate.
  - split; [reflexivity|]. split; [lia | reflexivity].
Qed.

(** On wage entries that are non-negative ints below 2^24 the salary is the
    formula evaluated exactly. *)
Lemma process_employee_exact (r : Raw.t) (e : Emp.t) (r' : Raw.t) :
  int_record_ok r = true ->
  process_employee r = Ok (e, r') ->
  Emp.monthly_salary e
    = exact_salary (wage (Raw.hourly_rate r)) (wage (Raw.weekly_hours_worked r))
                   (wage (Raw.contract_hours r)).
Proof.
  unfold int_record_ok. intros H Hp.
  apply andb_prop in H as [H Hch]. apply andb_prop in H as [Hhr Hwh].
  apply int_wage_ok_get in Hch as [Hch Hchb]. apply int_wage_ok_get in Hwh as [Hwh Hwhb].
  apply int_wage_ok_get in Hhr as [Hhr Hhrb].
  destruct (monthly_salary_value_ints _ _ _ Hhrb Hwhb Hchb) as (v & Hv & Hint).
  apply process_employee_Ok in Hp.
  destruct Hp as (v' & n & j & z & Hv' & _ & _ & Hz & -> & _).
  rewrite Hhr, Hwh, Hch, Hv in Hv'. inversion Hv'; subst v'.
  rewrite Hint in Hz. inversion Hz. reflexivity.
Qed.

(** ** Bounded float arithmetic *)

Lemma small_float_finite (K : Z) (s : bool) (m : positive) (e : Z) :
  small_float K (S754_finite s m e) = true <->
  fexp Py.prec Py.emax (Zdigits2 (Z.pos m) + e) = e /\ Z.pos m <= 2 ^ (K - e).
Proof.
  unfold small_float, canonical_mantissa. rewrite andb_true_iff, Z.eqb_eq, Z.leb_le.
  reflexivity.
Qed.

Lemma pow2_le_inv (a b : Z) (m : Z) : 0 < m -> 2 ^ a <= m <= 2 ^ b -> 0 <= a -> a <= b.
Proof.
  intros Hm [Ha Hb] Ha0.
  destruct (Z_lt_le_dec b 0) as [Hneg|Hb0].
  - rewrite (Z.pow_neg_r 2 b Hneg) in Hb. lia.
  - apply (Z.pow_le_mono_r_iff 2); lia.
Qed.

Lemma binary_round_aux_small (s : bool) (mx ex K : Z) :
  0 < mx -> ex <= fexp Py.prec Py.emax (Zdigits2 mx + ex) ->
  mx <= 2 ^ (K - ex) -> 0 <= K <= 1023 ->
  small_float K (binary_round_aux Py.prec Py.emax s mx ex loc_Exact) = true.
Proof.
  intros Hm Hex Hle HK.
  destruct (binary_round_aux_spec s mx ex loc_Exact ltac:(lia)) as (m1 & Hm1 & Hb & ->).
  set (d := Zdigits2 mx) in *.
  assert (Hd1 : 2 ^ (d - 1) <= mx) by (apply Zdigits2_ge; lia).
  assert (Hd2 : mx < 2 ^ d) by (apply Zdigits2_lt; lia).
  assert (Hd0 : 0 < d) by (unfold d; destruct mx; simpl; lia).
  assert (HdK : d - 1 <= K - ex) by (apply (pow2_le_inv _ _ mx); lia).
  set (e' := fexp Py.prec Py.emax (d + ex)) in *.
  assert (He' : e' = Z.max (d + ex - 53) (-1074)) by (unfold e'; apply fexp_eq).
  replace (Z.max 0 (e' - ex)) with (e' - ex) in * by lia.
  replace (ex + (e' - ex)) with e' in * by lia.
  set (k := e' - ex) in *.
  assert (Hk : 0 <= k) by (unfold k; lia).
  pose proof (pow2_pos k Hk) as Hpk.
  assert (HKe : 0 <= K - e') by lia.
  pose proof (pow2_pos _ HKe) as HpK.
  assert (Hsplit : 2 ^ (K - ex) = 2 ^ (K - e') * 2 ^ k).
  { rewrite <- Z.pow_add_r by lia. f_equal. unfold k. lia. }
  assert (Hq : mx / 2 ^ k <= 2 ^ (K - e')).
  { apply Z.div_le_upper_bound; [lia|]. rewrite Z.mul_comm, <- Hsplit. assumption. }
  assert (Hm1le : m1 <= 2 ^ (K - e')).
  { destruct Hm1 as [->|[-> Hinexact]]; [assumption|].
    destruct (Z.eq_dec (mx / 2 ^ k) (2 ^ (K - e'))) as [Heq|Hne]; [exfalso|lia].
    apply Hinexact. split; [reflexivity|].
    pose proof (Z.mul_div_le mx (2 ^ k) Hpk) as Hmd. rewrite Heq in Hmd.
    assert (mx = 2 ^ (K - e') * 2 ^ k) by lia.
    rewrite H. apply Z.mod_mul. lia. }
  assert (Hqlo : d + ex - 53 >= -1074 -> 2 ^ 52 <= mx / 2 ^ k).
  { intros Hn. assert (Hkd : k = d - 53) by (unfold k; lia).
    apply Z.div_le_lower_bound; [lia|].
    rewrite Hkd, <- Z.pow_add_r by lia. replace (d - 53 + 52) with (d - 1) by lia.
    assumption. }
  destruct (Z.eqb_spec m1 0) as [Hz|Hnz]; [reflexivity|].
  destruct (Z.ltb_spec m1 (2 ^ 53)) as [Hlt|Hge].
  - rewrite (proj2 (Z.leb_le e' 971)) by lia.
    apply small_float_finite. rewrite Z2Pos.id by lia. split; [|assumption].
    rewrite fexp_eq.
    destruct (Z_lt_le_dec (d + ex - 53) (-1074)) as [Hsub|Hnorm].
    + assert (Zdigits2 m1 <= 53) by (apply Zdigits2_le; lia). lia.
    + assert (Zdigits2 m1 = 53).
      { apply Zdigits2_unique; [lia|]. split; [|assumption].
        change (53 - 1) with 52.
        specialize (Hqlo ltac:(lia)). destruct Hm1 as [->|[-> _]]; lia. }
      lia.
  - assert (Heq : m1 = 2 ^ 53) by lia.
    assert (H53 : 53 <= K - e').
    { apply (pow2_le_inv _ _ m1); lia. }
    rewrite (proj2 (Z.leb_le (e' + 1) 971)) by lia.
    apply small_float_finite. split.
    + change (Zdigits2 (Z.pos (Z.to_pos (2 ^ 52)))) with 53. rewrite fexp_eq. lia.
    + change (Z.pos (Z.to_pos (2 ^ 52))) with (2 ^ 52).
      apply Z.pow_le_mono_r; lia.
Qed.

Lemma small_float_mono (K K' : Z) (f : spec_float) :
  K <= K' -> small_float K f = true -> small_float K' f = true.
Proof.
  intros HK. destruct f as [s|s| |s m e]; try (intros; assumption).
  rewrite !small_float_finite. intros [Hc Hle]. split; [assumption|].
  destruct (Z_lt_le_dec (K - e) 0) as [Hneg|Hpos].
  - rewrite (Z.pow_neg_r 2 _ Hneg) in Hle. lia.
  - assert (2 ^ (K - e) <= 2 ^ (K' - e)) by (apply Z.pow_le_mono_r; lia). lia.
Qed.

Lemma binary_round_small (s : bool) (m : positive) (ex K : Z) :
  Z.pos m <= 2 ^ (K - ex) -> 0 <= K <= 1023 ->
  small_float K (binary_round Py.prec Py.emax s m ex) = true.
Proof.
  intros Hle HK. unfold binary_round.
  set (f := fexp Py.prec Py.emax (Z.pos (digits2_pos m) + ex)).
  destruct (Z_lt_le_dec f ex) as [Hlt|Hge].
  - rewrite shl_align_spec by lia.
    assert (Hp : 0 < 2 ^ (ex - f)) by (apply pow2_pos; lia).
    assert (HKex : 0 <= K - ex).
    { destruct (Z_lt_le_dec (K - ex) 0) as [Hneg|]; [|assumption].
      rewrite (Z.pow_neg_r 2 _ Hneg) in Hle. lia. }
    apply binary_round_aux_small; rewrite ?Z2Pos.id by lia; try lia.
    + rewrite Zdigits2_shift by lia. rewrite Zdigits2_pos.
      replace (Z.pos (digits2_pos m) + (ex - f) + f) with (Z.pos (digits2_pos m) + ex) by lia.
      fold f. lia.
    + replace (K - f) with (K - ex + (ex - f)) by lia.
      rewrite Z.pow_add_r by lia. nia.
  - unfold shl_align. destruct (f - ex) as [|p|p] eqn:Hdiff; try lia.
    + apply binary_round_aux_small; try lia. rewrite Zdigits2_pos. fold f. lia.
    + apply binary_round_aux_small; try lia. rewrite Zdigits2_pos. fold f. lia.
Qed.

Lemma binary_normalize_small (z ex K : Z) :
  Z.abs z <= 2 ^ (K - ex) -> 0 <= K <= 1023 ->
  small_float K (binary_normalize Py.prec Py.emax z ex false) = true.
Proof.
  intros Hle HK. destruct z as [|p|p]; cbn [binary_normalize].
  - reflexivity.
  - apply binary_round_small; [|assumption]. simpl in Hle. lia.
  - apply binary_round_small; [|assumption]. simpl in Hle. lia.
Qed.

Lemma canonical_digits (m : positive) (e : Z) :
  fexp Py.prec Py.emax (Zdigits2 (Z.pos m) + e) = e ->
  Zdigits2 (Z.pos m) <= 53 /\ -1074 <= e /\ (Zdigits2 (Z.pos m) = 53 \/ e = -1074).
Proof. rewrite fexp_eq. lia. Qed.

Lemma small_float_exponent (K e : Z) (m : positive) : Z.pos m <= 2 ^ (K - e) -> 0 <= K - e.
Proof.
  intros Hle. destruct (Z_lt_le_dec (K - e) 0) as [Hneg|]; [|assumption].
  rewrite (Z.pow_neg_r 2 _ Hneg) in Hle. lia.
Qed.

Lemma SFmul_small (K1 K2 : Z) (x y : spec_float) :
  0 <= K1 -> 0 <= K2 -> K1 + K2 <= 1023 ->
  small_float K1 x = true -> small_float K2 y = true ->
  small_float (K1 + K2) (SFmul Py.prec Py.emax x y) = true.
Proof.
  intros HK1 HK2 HK Hx Hy.
  destruct x as [sx|sx| |sx mx ex]; try discriminate;
    destruct y as [sy|sy| |sy my ey]; try discriminate; try reflexivity.
  apply small_float_finite in Hx as [Hcx Hlx]. apply small_float_finite in Hy as [Hcy Hly].
  apply canonical_digits in Hcx as (Hdx & Hex & Hnx).
  apply canonical_digits in Hcy as (Hdy & Hey & Hny).
  pose proof (small_float_exponent _ _ _ Hlx). pose proof (small_float_exponent _ _ _ Hly).
  cbn [SFmul]. apply binary_round_aux_small; try lia.
  - rewrite fexp_eq.
    pose proof (Zdigits2_mul_ge mx my) as Hge. rewrite <- !Zdigits2_pos in Hge.
    assert (0 < Zdigits2 (Z.pos mx)) by (simpl; lia).
    assert (0 < Zdigits2 (Z.pos my)) by (simpl; lia). lia.
  - replace (K1 + K2 - (ex + ey)) with ((K1 - ex) + (K2 - ey)) by lia.
    rewrite Z.pow_add_r by lia. rewrite Pos2Z.inj_mul.
    apply Z.mul_le_mono_nonneg; lia.
Qed.

Lemma aligned_bound (K e ez : Z) (m : positive) :
  ez <= e -> Z.pos m <= 2 ^ (K - e) ->
  Z.pos (fst (shl_align m e ez)) <= 2 ^ (K - ez).
Proof.
  intros Hez Hle. pose proof (small_float_exponent _ _ _ Hle).
  rewrite shl_align_spec by assumption. cbn [fst].
  assert (0 < 2 ^ (e - ez)) by (apply pow2_pos; lia).
  rewrite Z2Pos.id by lia.
  replace (K - ez) with (K - e + (e - ez)) by lia. rewrite Z.pow_add_r by lia. nia.
Qed.

Lemma SFadd_small (K : Z) (x y : spec_float) :
  0 <= K < 1023 ->
  small_float K x = true -> small_float K y = true ->
  small_float (K + 1) (SFadd Py.prec Py.emax x y) = true.
Proof.
  intros HK Hx Hy.
  destruct x as [sx|sx| |sx mx ex]; try discriminate;
    destruct y as [sy|sy| |sy my ey]; try discriminate.
  - destruct sx, sy; reflexivity.
  - apply (small_float_mono K); [lia | assumption].
  - apply (small_float_mono K); [lia | assumption].
  - apply small_float_finite in Hx as [_ Hlx]. apply small_float_finite in Hy as [_ Hly].
    cbn [SFadd]. set (ez := Z.min ex ey).
    pose proof (aligned_bound K ex ez mx ltac:(unfold ez; lia) Hlx) as Hax.
    pose proof (aligned_bound K ey ez my ltac:(unfold ez; lia) Hly) as Hay.
    apply binary_normalize_small; [|lia].
    replace (K + 1 - ez) with (Z.succ (K - ez)) by lia.
    pose proof (small_float_exponent _ _ _ Hax).
    rewrite Z.pow_succ_r by lia.
    destruct sx, sy; cbn [cond_Zopp]; lia.
Qed.

Lemma SFsub_small (K : Z) (x y : spec_float) :
  0 <= K < 1023 ->
  small_float K x = true -> small_float K y = true ->
  small_float (K + 1) (SFsub Py.prec Py.emax x y) = true.
Proof.
  intros HK Hx Hy.
  destruct x as [sx|sx| |sx mx ex]; try discriminate;
    destruct y as [sy|sy| |sy my ey]; try discriminate.
  - destruct sx, sy; reflexivity.
  - apply (small_float_mono K); [lia | exact Hy].
  - apply (small_float_mono K); [lia | assumption].
  - apply small_float_finite in Hx as [_ Hlx]. apply small_float_finite in Hy as [_ Hly].
    cbn [SFsub]. set (ez := Z.min ex ey).
    pose proof (aligned_bound K ex ez mx ltac:(unfold ez; lia) Hlx) as Hax.
    pose proof (aligned_bound K ey ez my ltac:(unfold ez; lia) Hly) as Hay.
    apply binary_normalize_small; [|lia].
    replace (K + 1 - ez) with (Z.succ (K - ez)) by lia.
    pose proof (small_float_exponent _ _ _ Hax).
    rewrite Z.pow_succ_r by lia.
    destruct sx, sy; cbn [cond_Zopp]; lia.
Qed.

Lemma float_of_int_small (K z : Z) :
  0 <= K <= 1023 -> Z.abs z <= 2 ^ K ->
  exists f, Py.float_of_int z = Ok f /\ small_float K f = true.
Proof.
  intros HK Hz. unfold Py.float_of_int.
  pose proof (binary_normalize_small z 0 K) as Hs. rewrite Z.sub_0_r in Hs.
  specialize (Hs Hz HK).
  destruct (binary_normalize Py.prec Py.emax z 0 false) as [s|s| |s m e];
    try discriminate; eauto.
Qed.

Lemma int_small (K : Z) (f : spec_float) :
  0 <= K -> small_float K f = true ->
  exists z, Py.int (Py.PyFloat f) = Ok z /\ Z.abs z <= 2 ^ K.
Proof.
  intros HK Hf. pose proof (pow2_pos K HK).
  destruct f as [s|s| |s m e]; try discriminate.
  - exists 0. split; [reflexivity|]. simpl. lia.
  - apply small_float_finite in Hf as [_ Hle].
    pose proof (small_float_exponent _ _ _ Hle) as HKe.
    eexists. split; [reflexivity|].
    assert (Habs : forall v, Z.abs (cond_Zopp s v) = Z.abs v) by (intros; destruct s; simpl; lia).
    rewrite Habs.
    destruct (Z.leb_spec 0 e) as [He|He].
    + rewrite Z.shiftl_mul_pow2 by lia. pose proof (pow2_pos e He).
      rewrite Z.abs_eq by lia.
      replace K with (K - e + e) at 1 by lia. rewrite Z.pow_add_r by lia. nia.
    + rewrite Z.shiftr_div_pow2 by lia.
      assert (Hp : 0 < 2 ^ (- e)) by (apply pow2_pos; lia).
      rewrite Z.abs_eq by (apply Z.div_pos; lia).
      apply Z.div_le_upper_bound; [lia|].
      replace (K - e) with (- e + K) in Hle by lia. rewrite Z.pow_add_r in Hle by lia. lia.
Qed.

(** ** Bounded numbers *)

Lemma small_number_mono (K K' : Z) (x : Py.number) :
  0 <= K <= K' -> small_number K x = true -> small_number K' x = true.
Proof.
  intros HK. destruct x as [z|f]; simpl.
  - rewrite !Z.leb_le. intros Hz.
    assert (2 ^ K <= 2 ^ K') by (apply Z.pow_le_mono_r; lia). lia.
  - apply small_float_mono. lia.
Qed.

Lemma as_float_small (K : Z) (x : Py.number) :
  0 <= K <= 1023 -> small_number K x = true ->
  exists f, Py.as_float x = Ok f /\ small_float K f = true.
Proof.
  intros HK. destruct x as [z|f]; simpl.
  - rewrite Z.leb_le. now apply float_of_int_small.
  - eauto.
Qed.

Lemma mul_small (K1 K2 : Z) (x y : Py.number) :
  0 <= K1 -> 0 <= K2 -> K1 + K2 <= 1023 ->
  small_number K1 x = true -> small_number K2 y = true ->
  exists r, Py.mul x y = Ok r /\ small_number (K1 + K2) r = true.
Proof.
  intros HK1 HK2 HK Hx Hy.
  destruct (as_float_small K1 x ltac:(lia) Hx) as (fx & Hfx & Hsx).
  destruct (as_float_small K2 y ltac:(lia) Hy) as (fy & Hfy & Hsy).
  pose proof (SFmul_small K1 K2 fx fy HK1 HK2 HK Hsx Hsy) as Hmul.
  unfold Py.mul, Py.arith.
  destruct x as [a|f]; destruct y as [b|g];
    try (rewrite Hfx; cbn [bind]; rewrite Hfy; cbn [bind]; eexists; split; [reflexivity|exact Hmul]).
  eexists. split; [reflexivity|]. simpl in *.
  apply Z.leb_le in Hx, Hy. apply Z.leb_le.
  rewrite Z.abs_mul, Z.pow_add_r by lia.
  apply Z.mul_le_mono_nonneg; lia.
Qed.

Lemma add_small (K : Z) (x y : Py.number) :
  0 <= K < 1023 ->
  small_number K x = true -> small_number K y = true ->
  exists r, Py.add x y = Ok r /\ small_number (K + 1) r = true.
Proof.
  intros HK Hx Hy.
  destruct (as_float_small K x ltac:(lia) Hx) as (fx & Hfx & Hsx).
  destruct (as_float_small K y ltac:(lia) Hy) as (fy & Hfy & Hsy).
  pose proof (SFadd_small K fx fy HK Hsx Hsy) as Hadd.
  unfold Py.add, Py.arith.
  destruct x as [a|f]; destruct y as [b|g];
    try (rewrite Hfx; cbn [bind]; rewrite Hfy; cbn [bind]; eexists; split; [reflexivity|exact Hadd]).
  eexists. split; [reflexivity|]. simpl in *.
  apply Z.leb_le in Hx, Hy. apply Z.leb_le.
  rewrite Z.pow_add_r by lia. change (2 ^ 1) with 2. lia.
Qed.

Lemma sub_small (K : Z) (x y : Py.number) :
  0 <= K < 1023 ->
  small_number K x = true -> small_number K y = true ->
  exists r, Py.sub x y = Ok r /\ small_number (K + 1) r = true.
Proof.
  intros HK Hx Hy.
  destruct (as_float_small K x ltac:(lia) Hx) as (fx & Hfx & Hsx).
  destruct (as_float_small K y ltac:(lia) Hy) as (fy & Hfy & Hsy).
  pose proof (SFsub_small K fx fy HK Hsx Hsy) as Hsub.
  unfold Py.sub, Py.arith.
  destruct x as [a|f]; destruct y as [b|g];
    try (rewrite Hfx; cbn [bind]; rewrite Hfy; cbn [bind]; eexists; split; [reflexivity|exact Hsub]).
  eexists. split; [reflexivity|]. simpl in *.
  apply Z.leb_le in Hx, Hy. apply Z.leb_le.
  rewrite Z.pow_add_r by lia. change (2 ^ 1) with 2. lia.
Qed.

Lemma int_number_small (K : Z) (v : Py.number) :
  0 <= K -> small_number K v = true ->
  exists z, Py.int v = Ok z /\ Z.abs z <= 2 ^ K.
Proof.
  intros HK. destruct v as [z|f]; simpl.
  - rewrite Z.leb_le. eauto.
  - now apply int_small.
Qed.

(** The value computed for wage entries of magnitude at most 2^20 is
    defined and of magnitude at most 2^45. *)
Lemma monthly_salary_value_small (hr wh ch : Py.number) :
  small_number 20 hr = true -> small_number 20 wh = true -> small_number 20 ch = true ->
  exists v, monthly_salary_value hr wh ch = Ok v /\ small_number 45 v = true.
Proof.
  intros Hhr Hwh Hch. unfold monthly_salary_value.
  assert (H4 : small_number 2 (Py.PyInt 4) = true) by reflexivity.
  assert (H15 : small_number 1 (Py.PyFloat Py.float_1_5) = true) by reflexivity.
  destruct (Py.le wh ch).
  - destruct (mul_small 20 20 wh hr) as (t & -> & Ht); try lia; try assumption.
    cbn [bind].
    destruct (mul_small (20 + 20) 2 t (Py.PyInt 4)) as (v & -> & Hv); try lia; try assumption.
    exists v. split; [reflexivity|]. revert Hv. apply small_number_mono. lia.
  - destruct (sub_small 20 wh ch) as (ow & -> & How); try lia; try assumption.
    cbn [bind].
    destruct (mul_small (20 + 1) 20 ow hr) as (t & -> & Ht); try lia; try assumption.
    cbn [bind].
    destruct (mul_small (20 + 1 + 20) 1 t (Py.PyFloat Py.float_1_5)) as (os & -> & Hos);
      try lia; try assumption.
    cbn [bind].
    destruct (mul_small 20 20 ch hr) as (cs & -> & Hcs); try lia; try assumption.
    cbn [bind].
    destruct (add_small (20 + 1 + 20 + 1) cs os) as (s & -> & Hs); try lia; try assumption.
    { revert Hcs. apply small_number_mono. lia. }
    cbn [bind].
    destruct (mul_small (20 + 1 + 20 + 1 + 1) 2 s (Py.PyInt 4)) as (v & -> & Hv);
      try lia; try assumption.
    exists v. split; [reflexivity|]. exact Hv.
Qed.

Lemma wage_ok_get (field : option Py.number) :
  wage_ok field = true -> small_number 20 (Raw.get field) = true.
Proof. unfold wage_ok. destruct field; [auto | reflexivity]. Qed.

Lemma process_employee_small (r : Raw.t) :
  record_ok r = true ->
  exists e r', process_employee r = Ok (e, r') /\ Z.abs (Emp.monthly_salary e) <= 2 ^ 45.
Proof.
  unfold record_ok. intros H.
  apply andb_prop in H as [H Hch]. apply andb_prop in H as [H Hwh].
  apply andb_prop in H as [H Hhr]. apply andb_prop in H as [Hn Hj].
  apply wage_ok_get in Hch, Hwh, Hhr.
  destruct (Raw.name r) as [n|] eqn:En; [|discriminate].
  destruct (Raw.job r) as [j|] eqn:Ej; [|discriminate].
  destruct (monthly_salary_value_small _ _ _ Hhr Hwh Hch) as (v & Hv & Hsmall).
  destruct (int_number_small 45 v ltac:(lia) Hsmall) as (z & Hz & Hb).
  exists (Emp.mk n j z), (Raw.update_monthly_salary r v).
  split; [|exact Hb].
  apply process_employee_Ok. exists v, n, j, z. auto 10.
Qed.

(** ** The average between the extremes *)

Lemma total_bounds (l : list Z) (lo hi : Z) :
  Forall (fun x => lo <= x <= hi) l -> lo * Py.len l <= total l <= hi * Py.len l.
Proof.
  unfold Py.len, total. induction 1 as [|x l Hx _ IH].
  - simpl. lia.
  - cbn [List.length fold_right]. rewrite Nat2Z.inj_succ. lia.
Qed.

Lemma extremes_bounds (l : list Z) (P : Z -> Prop) (hi lo : Z) :
  Forall P l -> is_maximum l hi -> is_minimum l lo ->
  P hi /\ P lo /\ Forall (fun x => lo <= x <= hi) l.
Proof.
  intros HP [Hhi Hmax] [Hlo Hmin]. rewrite Forall_forall in HP, Hmax, Hmin.
  split; [now apply HP|]. split; [now apply HP|].
  apply Forall_forall. intros x Hx. split; [now apply Hmin | now apply Hmax].
Qed.

Lemma len_pos {A : Type} (l : list A) : l <> [] -> 0 < Py.len l.
Proof. destruct l; [congruence|]. intros _. unfold Py.len. simpl. lia. Qed.

Lemma statistics_ordered (l : list Z) (avg : Py.number) (hi lo : Z)
      (employees : option (list Emp.t)) :
  l <> [] -> Forall (fun s => - 2 ^ 53 < s < 2 ^ 53) l ->
  Py.truediv (total l) (Py.len l) = Ok avg ->
  is_maximum l hi -> is_minimum l lo ->
  ordered (Stats.mk avg hi lo employees).
Proof.
  intros Hne Hsmall Havg Hmax Hmin.
  destruct (extremes_bounds l _ hi lo Hsmall Hmax Hmin) as (Hhi & Hlo & Hall).
  destruct (truediv_bounds (total l) (Py.len l) lo hi) as (avg' & Havg' & Hle1 & Hle2).
  - now apply len_pos.
  - now apply total_bounds.
  - lia.
  - lia.
  - rewrite Havg in Havg'. inversion Havg'; subst. split; assumption.
Qed.

Lemma mean_defined (l : list Z) :
  l <> [] -> Forall (fun s => - 2 ^ 53 < s < 2 ^ 53) l ->
  exists avg, Py.truediv (total l) (Py.len l) = Ok avg.
Proof.
  intros Hne Hsmall.
  destruct (truediv_bounds (total l) (Py.len l) (- (2 ^ 53 - 1)) (2 ^ 53 - 1))
    as (avg & Havg & _).
  - now apply len_pos.
  - apply total_bounds. revert Hsmall. apply Forall_impl. intros; lia.
  - lia.
  - lia.
  - eauto.
Qed.

Lemma flatten_Forall (salary_data : salary_map) (P : Z -> Prop) (k : string)
      (employees : list Emp.t) :
  Forall P (flatten_salaries salary_data) -> In (k, employees) salary_data ->
  Forall P (salaries_of employees).
Proof.
  intros HP Hin. rewrite Forall_forall in *. intros x Hx.
  apply HP. apply In_flatten. eauto.
Qed.

(** C3, as amended: in every statistics record that either aggregator
    produces over a non-empty salary set whose salaries all lie strictly
    between -2^53 and 2^53,
    [lowest_salary <= average_salary <= highest_salary]. *)
Theorem C3_average_between_extremes (salary_data : salary_map) :
  dict_wf salary_data ->
  Forall (fun s => - 2 ^ 53 < s < 2 ^ 53) (flatten_salaries salary_data) ->
  (forall g, global_company_statistics salary_data = Ok g ->
             flatten_salaries salary_data <> [] -> ordered g) /\
  (forall statistics k rec,
      subsidiary_company_statistics salary_data = Ok statistics ->
      In (k, rec) statistics -> ordered rec).
Proof.
  intros Hwf Hsmall. split.
  - intros g Hg Hne.
    destruct (global_statistics_Ok salary_data g Hwf Hg Hne) as (Havg & Hmax & Hmin).
    destruct g as [avg hi lo es]. simpl in *.
    now apply (statistics_ordered (flatten_salaries salary_data)).
  - intros statistics k rec Hs Hin.
    destruct (statistics_entry_origin _ _ _ _ Hwf Hs Hin) as (employees & Hemp & Hne & Hrec).
    apply subsidiary_record_Ok in Hrec. simpl in Hrec.
    destruct Hrec as (_ & _ & Havg & Hmax & Hmin).
    destruct rec as [avg hi lo es]. simpl in *.
    apply (statistics_ordered (salaries_of employees)); try assumption.
    + destruct employees; [congruence | discriminate].
    + eapply flatten_Forall; eassumption.
Qed.

Lemma C3_witness :
  ordered Sample.company_global /\
  ordered (Stats.mk (Py.PyFloat Sample.f3300) 3800 2800
                    (Some [Emp.mk "Ann" "dev" 2800; Emp.mk "Bob" "ops" 3800])).
Proof.
  destruct (C3_average_between_extremes Sample.company_salaries) as (Hg & Hs).
  - apply unique_keys_wf. reflexivity.
  - repeat constructor.
  - split.
    + apply Hg; [vm_compute; reflexivity | discriminate].
    + apply (Hs Sample.company_statistics "TechCorp"%string).
      * vm_compute. reflexivity.
      * left. reflexivity.
Defined.

(** C3 as stated fails: one employee with 2^53 + 1 hours worked and
    contracted at 1 per hour earns 2^55 + 4, which is not a float; the
    average is the float 2^55, below the lowest salary. *)
Lemma C3_counterexample :
  calculate_monthly_salaries [("TechCorp"%string, [Sample.eve])]
    = Ok (Sample.rich,
          [("TechCorp"%string,
            [Raw.update_monthly_salary Sample.eve (Py.PyInt Sample.fortune)])]) /\
  global_company_statistics Sample.rich
    = Ok (Stats.mk (Py.PyFloat (S754_finite false 4503599627370496 3))
                   Sample.fortune Sample.fortune None) /\
  Py.le (Py.PyInt Sample.fortune) (Py.PyFloat (S754_finite false 4503599627370496 3))
    = false.
Proof.
  split; [vm_compute; reflexivity|]. split; vm_compute; reflexivity.
Qed.

(** ** Totality *)

Lemma Forall2_impl_In {A B : Type} (R R' : A -> B -> Prop) (l : list A) (l' : list B) :
  (forall a b, In a l -> R a b -> R' a b) -> Forall2 R l l' -> Forall2 R' l l'.
Proof.
  intros HR H. induction H as [|a b l l' Hab _ IH]; constructor.
  - apply HR; [now left | assumption].
  - apply IH. intros a0 b0 Hin. apply HR. now right.
Qed.

Lemma roster_ok_record (employee_data : roster) (k : string) (l : list Raw.t) (r : Raw.t) :
  roster_ok employee_data = true -> In (k, l) employee_data -> In r l ->
  record_ok r = true.
Proof.
  unfold roster_ok. intros Hok Hin Hr.
  rewrite forallb_forall in Hok. specialize (Hok _ Hin). simpl in Hok.
  rewrite forallb_forall in Hok. now apply Hok.
Qed.

Lemma dict_rel_flatten (R : Raw.t -> Emp.t -> Prop) (P : Z -> Prop)
      (employee_data : roster) (out : salary_map) :
  (forall r e, R r e -> P (Emp.monthly_salary e)) ->
  dict_rel (Forall2 R) employee_data out -> Forall P (flatten_salaries out).
Proof.
  intros HRP H. unfold flatten_salaries.
  induction H as [|[k l] [k' es] d out' [_ Hl] _ IH]; simpl; [constructor|].
  apply Forall_app. split; [|assumption].
  simpl in Hl. clear - Hl HRP. induction Hl; simpl; constructor; eauto.
Qed.

(** On a roster of records whose wage entries are absent or non-negative
    ints below 2^24, every salary the calculator returns is the formula
    evaluated in exact integer arithmetic. *)
Theorem calculator_exact_on_small_ints (employee_data : roster) (out : salary_map)
        (after : roster) :
  dict_wf employee_data ->
  forallb (fun item => forallb int_record_ok (snd item)) employee_data = true ->
  calculate_monthly_salaries employee_data = Ok (out, after) ->
  dict_rel (Forall2 (fun r e =>
              Emp.monthly_salary e
                = exact_salary (wage (Raw.hourly_rate r))
                               (wage (Raw.weekly_hours_worked r))
                               (wage (Raw.contract_hours r))))
           employee_data out.
Proof.
  intros Hwf Hok Hcalc.
  pose proof (calculate_output_rel _ _ _ Hwf Hcalc) as Hrel.
  revert Hrel. apply dict_rel_impl. intros k l es Hin.
  apply Forall2_impl_In. intros r e Hr (r' & Hp).
  apply (process_employee_exact r e r'); [|assumption].
  rewrite forallb_forall in Hok. specialize (Hok _ Hin). simpl in Hok.
  rewrite forallb_forall in Hok. now apply Hok.
Qed.




(** * More on the calculator and the aggregators *)

(** ** Running the calculator again *)

Lemma process_employee_without_salary (r : Raw.t) :
  process_employee (without_salary r) = process_employee r.
Proof. destruct r. reflexivity. Qed.

Lemma loop_employees_without_salary (l : list Raw.t) (acc : list Emp.t) :
  loop_employees (map without_salary l) acc = loop_employees l acc.
Proof.
  revert acc. induction l as [|r l IH]; intros acc; [reflexivity|].
  simpl. rewrite process_employee_without_salary.
  destruct (process_employee r) as [[e r']|]; [|reflexivity].
  simpl. now rewrite IH.
Qed.

Lemma loop_subsidiaries_without_salary (items : roster) (acc : salary_map) :
  loop_subsidiaries (clear_salaries items) acc = loop_subsidiaries items acc.
Proof.
  revert acc. induction items as [|[k l] items IH]; intros acc; [reflexivity|].
  simpl. rewrite loop_employees_without_salary.
  destruct (loop_employees l []) as [[es l']|]; [|reflexivity].
  simpl. now rewrite IH.
Qed.

(** The calculator never reads a ["monthly_salary"] entry that its input
    brings along: with those entries removed, the call returns the same
    output, leaves the same records behind, or raises the same exception. *)
Theorem calculator_ignores_stale_salary (employee_data : roster) :
  calculate_monthly_salaries (clear_salaries employee_data)
  = calculate_monthly_salaries employee_data.
Proof. apply loop_subsidiaries_without_salary. Qed.

Lemma process_employee_again (r : Raw.t) (e : Emp.t) (r' : Raw.t) :
  process_employee r = Ok (e, r') -> process_employee r' = Ok (e, r').
Proof.
  intros H. apply process_employee_Ok in H.
  destruct H as (v & n & j & z & Hv & Hn & Hj & Hz & He & Hr').
  apply process_employee_Ok. exists v, n, j, z. subst r'.
  repeat split; assumption.
Qed.

Lemma mapM_again {A B : Type} (f : A -> result (B * A)) (l : list A) (ps : list (B * A)) :
  (forall a p, f a = Ok p -> f (snd p) = Ok p) ->
  mapM f l = Ok ps -> mapM f (map snd ps) = Ok ps.
Proof.
  intros Hf H. apply mapM_Forall2 in H. apply mapM_Forall2.
  induction H as [|a p l ps Hp _ IH]; simpl; constructor; eauto.
Qed.

(** Running the calculator on the roster it has annotated gives the same
    output and leaves the roster as it is: the annotation of a first run
    does not change what a second run computes. *)
Theorem calculator_rerun (employee_data : roster) (out : salary_map) (after : roster) :
  dict_wf employee_data ->
  calculate_monthly_salaries employee_data = Ok (out, after) ->
  calculate_monthly_salaries after = Ok (out, after).
Proof.
  intros Hwf H.
  apply calculate_monthly_salaries_spec in H; [|assumption].
  destruct H as (pss & HF & -> & ->).
  assert (Hkeys : map fst pss = dict_keys employee_data).
  { clear Hwf. induction HF as [|item kp l l' Hp _ IH]; [reflexivity|].
    simpl. apply process_subsidiary_Ok in Hp. destruct Hp as [-> _]. now f_equal. }
  apply calculate_monthly_salaries_spec.
  - unfold dict_wf, dict_keys. rewrite map_map. simpl.
    unfold dict_wf in Hwf. now rewrite <- Hkeys in Hwf.
  - exists pss. split; [|split; reflexivity].
    clear Hwf Hkeys. induction HF as [|item kp l l' Hp _ IH]; simpl; constructor; [|exact IH].
    apply process_subsidiary_Ok in Hp. destruct Hp as [Hk Hrs].
    apply process_subsidiary_Ok. split; [reflexivity|]. simpl.
    clear Hk. induction Hrs as [|r p rs ps Hr _ IH']; simpl; constructor; [|exact IH'].
    destruct p as [e r']. simpl. now apply (process_employee_again r).
Qed.

Lemma calculator_rerun_witness :
  calculate_monthly_salaries Sample.company_after
  = Ok (Sample.company_salaries, Sample.company_after).
Proof.
  apply (calculator_rerun Sample.company).
  - apply unique_keys_wf. reflexivity.
  - vm_compute. reflexivity.
Defined.

(** ** The exceptions of the calculator *)

Lemma as_float_Raise (x : Py.number) (e : exn) :
  Py.as_float x = Raise e -> e = OverflowError.
Proof.
  destruct x as [z|f]; simpl; [|discriminate].
  unfold Py.float_of_int.
  destruct (binary_normalize Py.prec Py.emax z 0 false); congruence.
Qed.










(** ** Salaries in exact arithmetic *)

Lemma exact_salary_mono (hr wh wh' ch : Z) :
  0 <= hr -> wh <= wh' -> exact_salary hr wh ch <= exact_salary hr wh' ch.
Proof.
  intros Hhr Hle. unfold exact_salary.
  destruct (Z.leb_spec wh ch), (Z.leb_spec wh' ch); nia.
Qed.

(** More hours, same rate and same contract: the salary is not lower.  For
    two records with non-negative int wage entries below 2^24 that differ
    only in the hours worked, the one with more hours gets at least the
    salary of the other. *)
Theorem salary_monotone_in_hours (r1 r2 : Raw.t) (e1 e2 : Emp.t) (r1' r2' : Raw.t) :
  int_record_ok r1 = true -> int_record_ok r2 = true ->
  Raw.hourly_rate r1 = Raw.hourly_rate r2 ->
  Raw.contract_hours r1 = Raw.contract_hours r2 ->
  wage (Raw.weekly_hours_worked r1) <= wage (Raw.weekly_hours_worked r2) ->
  process_employee r1 = Ok (e1, r1') ->
  process_employee r2 = Ok (e2, r2') ->
  Emp.monthly_salary e1 <= Emp.monthly_salary e2.
Proof.
  intros Hok1 Hok2 Hhr Hch Hwh H1 H2.
  rewrite (process_employee_exact r1 e1 r1' Hok1 H1).
  rewrite (process_employee_exact r2 e2 r2' Hok2 H2).
  rewrite Hhr, Hch. apply exact_salary_mono; [|assumption].
  unfold int_record_ok in Hok2. rewrite !andb_true_iff in Hok2.
  destruct Hok2 as [[Hr _] _]. apply int_wage_ok_get in Hr. lia.
Qed.

Lemma salary_monotone_in_hours_witness :
  Emp.monthly_salary (Emp.mk "Ann" "dev" 2800) <= Emp.monthly_salary (Emp.mk "Bob" "ops" 3800).
Proof.
  apply (salary_monotone_in_hours Sample.ann Sample.bob _ _
           (Raw.update_monthly_salary Sample.ann (Py.PyInt 2800))
           (Raw.update_monthly_salary Sample.bob (Py.PyFloat Sample.f3800)));
    try reflexivity.
  vm_compute. discriminate.
Defined.

Lemma calculator_exact_on_small_ints_witness :
  dict_rel (Forall2 (fun r e =>
              Emp.monthly_salary e
                = exact_salary (wage (Raw.hourly_rate r))
                               (wage (Raw.weekly_hours_worked r))
                               (wage (Raw.contract_hours r))))
           Sample.company Sample.company_salaries.
Proof.
  apply (calculator_exact_on_small_ints Sample.company Sample.company_salaries
           Sample.company_after).
  - apply unique_keys_wf. reflexivity.
  - reflexivity.
  - vm_compute. reflexivity.
Defined.

(** ** Statistics and the order of the data *)

Lemma total_Permutation (l l' : list Z) : Permutation l l' -> total l = total l'.
Proof.
  unfold total. induction 1; simpl; lia.
Qed.

Lemma is_maximum_Permutation (l l' : list Z) (m : Z) :
  Permutation l l' -> is_maximum l m -> is_maximum l' m.
Proof.
  intros HP [Hin Hall]. split.
  - now apply (Permutation_in _ HP).
  - now apply (Permutation_Forall HP).
Qed.

Lemma is_minimum_Permutation (l l' : list Z) (m : Z) :
  Permutation l l' -> is_minimum l m -> is_minimum l' m.
Proof.
  intros HP [Hin Hall]. split.
  - now apply (Permutation_in _ HP).
  - now apply (Permutation_Forall HP).
Qed.

Lemma max_Permutation (l l' : list Z) : Permutation l l' -> Py.max l = Py.max l'.
Proof.
  intros HP. destruct l as [|x l].
  - apply Permutation_nil in HP. now subst.
  - destruct (max_total (x :: l)) as [m Hm]; [discriminate|].
    rewrite Hm. symmetry. apply is_maximum_max.
    apply (is_maximum_Permutation _ _ _ HP). now apply max_is_maximum.
Qed.

Lemma min_Permutation (l l' : list Z) : Permutation l l' -> Py.min l = Py.min l'.
Proof.
  intros HP. destruct l as [|x l].
  - apply Permutation_nil in HP. now subst.
  - destruct (min_total (x :: l)) as [m Hm]; [discriminate|].
    rewrite Hm. symmetry. apply is_minimum_min.
    apply (is_minimum_Permutation _ _ _ HP). now apply min_is_minimum.
Qed.

(** The company-wide statistics depend on the salaries only, not on their
    order nor on the subsidiaries they sit in: two salary maps whose salaries
    are the same up to order get the same record. *)
Theorem global_statistics_permutation (salary_data salary_data' : salary_map) :
  dict_wf salary_data -> dict_wf salary_data' ->
  Permutation (flatten_salaries salary_data) (flatten_salaries salary_data') ->
  global_company_statistics salary_data = global_company_statistics salary_data'.
Proof.
  intros Hwf Hwf' HP.
  rewrite !global_company_statistics_spec by assumption.
  destruct (flatten_salaries salary_data) as [|x l] eqn:E.
  - apply Permutation_nil in HP. now rewrite HP.
  - destruct (flatten_salaries salary_data') as [|x' l'] eqn:E'.
    + apply Permutation_sym, Permutation_nil in HP. discriminate.
    + cbv beta iota zeta. rewrite !sum_total, (total_Permutation _ _ HP).
      unfold Py.len. rewrite (Permutation_length HP).
      now rewrite (max_Permutation _ _ HP), (min_Permutation _ _ HP).
Qed.

Lemma global_statistics_permutation_witness :
  global_company_statistics Sample.company_salaries
  = global_company_statistics
      [("DesignWorks"%string, [Emp.mk "Bob" "ops" 3800]);
       ("TechCorp"%string, [Emp.mk "Ann" "dev" 2800])].
Proof.
  apply global_statistics_permutation.
  - apply unique_keys_wf. reflexivity.
  - apply unique_keys_wf. reflexivity.
  - apply perm_swap.
Defined.

Lemma total_repeat (l : list Z) (s : Z) :
  Forall (fun x => x = s) l -> total l = s * Py.len l.
Proof.
  unfold total, Py.len. induction 1 as [|x l Hx _ IH]; [simpl; lia|].
  cbn [fold_right List.length]. rewrite IH, Nat2Z.inj_succ. lia.
Qed.

Lemma le_antisym_eqb (x : Py.number) (s : Z) :
  Py.le (Py.PyInt s) x = true -> Py.le x (Py.PyInt s) = true -> Py.eqb x (Py.PyInt s) = true.
Proof.
  unfold Py.le, Py.eqb. destruct x as [z|f]; simpl.
  - destruct (Z.compare_spec s z), (Z.compare_spec z s); try discriminate; auto; lia.
  - destruct (Py.SFcompare_Z f s) as [[| |]|]; simpl; auto; discriminate.
Qed.

(** When all employees earn the same salary [s], below 2^53 in magnitude,
    the average compares equal to [s]: the float division loses nothing. *)
Theorem uniform_salaries_average (salary_data : salary_map) (s : Z) :
  dict_wf salary_data ->
  - 2 ^ 53 < s < 2 ^ 53 ->
  flatten_salaries salary_data <> [] ->
  Forall (fun x => x = s) (flatten_salaries salary_data) ->
  exists g, global_company_statistics salary_data = Ok g /\
            Py.eqb (Stats.average_salary g) (Py.PyInt s) = true /\
            Stats.highest_salary g = s /\ Stats.lowest_salary g = s.
Proof.
  intros Hwf Hs Hne Hall.
  rewrite global_company_statistics_spec by assumption.
  destruct (flatten_salaries salary_data) as [|x l] eqn:E; [congruence|].
  cbv beta iota zeta. rewrite sum_total, (total_repeat _ _ Hall).
  destruct (truediv_bounds (s * Py.len (x :: l)) (Py.len (x :: l)) s s)
    as (avg & Havg & Hlo & Hhi); try lia.
  { apply len_pos. discriminate. }
  rewrite Havg. cbn [bind].
  destruct (max_total (x :: l)) as [hi Hmax]; [discriminate|].
  destruct (min_total (x :: l)) as [lo Hmin]; [discriminate|].
  rewrite Hmax, Hmin. cbn [bind].
  eexists. split; [reflexivity|]. cbn [Stats.average_salary Stats.highest_salary Stats.lowest_salary].
  split; [now apply le_antisym_eqb|].
  apply max_is_maximum in Hmax. apply min_is_minimum in Hmin.
  destruct Hmax as [Hin _], Hmin as [Hin' _].
  rewrite Forall_forall in Hall. split; now apply Hall.
Qed.

Lemma uniform_salaries_average_witness :
  exists g, global_company_statistics
              [("TechCorp"%string, [Emp.mk "Ann" "dev" 2800]);
               ("DesignWorks"%string, [Emp.mk "Bob" "ops" 2800; Emp.mk "Cyd" "qa" 2800])]
            = Ok g /\
            Py.eqb (Stats.average_salary g) (Py.PyInt 2800) = true /\
            Stats.highest_salary g = 2800 /\ Stats.lowest_salary g = 2800.
Proof.
  apply uniform_salaries_average.
  - apply unique_keys_wf. reflexivity.
  - lia.
  - discriminate.
  - repeat constructor.
Defined.

(** ** The exceptions of the aggregators *)

Lemma truediv_Raise (a b : Z) (e : exn) :
  b <> 0 -> Py.truediv a b = Raise e -> e = OverflowError.
Proof.
  intros Hb. unfold Py.truediv. apply Z.eqb_neq in Hb. rewrite Hb.
  destruct (SFdiv Py.prec Py.emax (Py.Z2SF a) (Py.Z2SF b)); congruence.
Qed.

Lemma statistics_Raise (all_salaries : list Z) (employees : option (list Emp.t)) (e : exn) :
  all_salaries <> [] ->
  (average <- Py.truediv (Py.sum all_salaries) (Py.len all_salaries) ;;
   highest <- Py.max all_salaries ;;
   lowest <- Py.min all_salaries ;;
   Ok (Stats.mk average highest lowest employees)) = Raise e ->
  Py.truediv (Py.sum all_salaries) (Py.len all_salaries) = Raise OverflowError /\
  e = OverflowError.
Proof.
  intros Hne H.
  destruct (max_total _ Hne) as [hi Hhi]. destruct (min_total _ Hne) as [lo Hlo].
  rewrite Hhi, Hlo in H.
  destruct (Py.truediv (Py.sum all_salaries) (Py.len all_salaries)) eqn:Hd;
    [discriminate|].
  simpl in H. injection H as <-.
  apply truediv_Raise in Hd as He.
  - subst. auto.
  - destruct all_salaries; [congruence | apply len_cons_nonzero].
Qed.

Lemma global_statistics_Raise (salary_data : salary_map) (e : exn) :
  dict_wf salary_data ->
  global_company_statistics salary_data = Raise e ->
  e = OverflowError /\
  Py.truediv (Py.sum (flatten_salaries salary_data))
             (Py.len (flatten_salaries salary_data)) = Raise OverflowError.
Proof.
  intros Hwf. rewrite global_company_statistics_spec by assumption.
  destruct (flatten_salaries salary_data) as [|x l]; [discriminate|].
  intros H. apply statistics_Raise in H; [tauto | discriminate].
Qed.

Lemma subsidiary_statistics_Raise (salary_data : salary_map) (e : exn) :
  dict_wf salary_data ->
  subsidiary_company_statistics salary_data = Raise e ->
  e = OverflowError /\
  exists k employees,
    In (k, employees) salary_data /\ employees <> [] /\
    Py.truediv (Py.sum (salaries_of employees)) (Py.len (salaries_of employees))
      = Raise OverflowError.
Proof.
  intros Hwf. rewrite subsidiary_company_statistics_spec by assumption.
  intros H. apply mapM_Raise in H. destruct H as ([k employees] & Hin & H).
  apply filter_In in Hin. destruct Hin as [Hin Hhas].
  apply has_employees_true in Hhas. simpl in Hhas.
  unfold subsidiary_record in H. cbn [fst snd] in H.
  assert (Hne : salaries_of employees <> []).
  { destruct employees; [congruence | discriminate]. }
  destruct (max_total _ Hne) as [hi Hhi]. destruct (min_total _ Hne) as [lo Hlo].
  rewrite Hhi, Hlo in H.
  destruct (Py.truediv (Py.sum (salaries_of employees)) (Py.len (salaries_of employees)))
    eqn:Hd; [discriminate|].
  simpl in H. injection H as <-.
  apply truediv_Raise in Hd as He.
  - subst. split; [reflexivity|]. exists k, employees. auto.
  - destruct (salaries_of employees); [congruence | apply len_cons_nonzero].
Qed.

(** The aggregators raise nothing but [OverflowError], and only where the
    mean of some salary list is too large for a float: the company-wide
    mean for [global_company_statistics], the mean of one subsidiary for
    [subsidiary_company_statistics]. *)
Theorem aggregator_exceptions (salary_data : salary_map) (e : exn) :
  dict_wf salary_data ->
  (global_company_statistics salary_data = Raise e ->
   e = OverflowError /\
   Py.truediv (Py.sum (flatten_salaries salary_data))
              (Py.len (flatten_salaries salary_data)) = Raise OverflowError) /\
  (subsidiary_company_statistics salary_data = Raise e ->
   e = OverflowError /\
   exists k employees,
     In (k, employees) salary_data /\ employees <> [] /\
     Py.truediv (Py.sum (salaries_of employees)) (Py.len (salaries_of employees))
       = Raise OverflowError).
Proof.
  intros Hwf. split.
  - now apply global_statistics_Raise.
  - now apply subsidiary_statistics_Raise.
Qed.

Lemma aggregator_exceptions_witness :
  OverflowError = OverflowError /\
  Py.truediv (Py.sum [4 * 2 ^ 1024]) (Py.len [4 * 2 ^ 1024]) = Raise OverflowError.
Proof.
  apply (aggregator_exceptions [("TechCorp"%string, [Emp.mk "Flo" "ceo" (4 * 2 ^ 1024)])]).
  - apply unique_keys_wf. reflexivity.
  - vm_compute. reflexivity.
Defined.

(** ** Subsidiary records and the company as a whole *)

(** A company with a single subsidiary: the record of the subsidiary
    carries the company-wide figures. *)
Theorem single_subsidiary_statistics (k : string) (employees : list Emp.t) (g : Stats.t) :
  employees <> [] ->
  global_company_statistics [(k, employees)] = Ok g ->
  subsidiary_company_statistics [(k, employees)]
  = Ok [(k, Stats.mk (Stats.average_salary g) (Stats.highest_salary g)
                     (Stats.lowest_salary g) (Some employees))].
Proof.
  intros Hne.
  assert (Hwf : dict_wf [(k, employees)]).
  { apply NoDup_cons; [intros [] | constructor]. }
  rewrite global_company_statistics_spec, subsidiary_company_statistics_spec by assumption.
  unfold flatten_salaries. cbn [map List.concat snd filter].
  rewrite app_nil_r.
  destruct employees as [|e0 es]; [congruence|].
  cbn [has_employees snd mapM]. unfold subsidiary_record. cbn [fst snd].
  change (salaries_of (e0 :: es)) with (Emp.monthly_salary e0 :: salaries_of es).
  cbv beta iota zeta.
  destruct (Py.truediv _ _) as [avg|]; cbn [bind]; [|discriminate].
  destruct (Py.max _) as [hi|]; cbn [bind]; [|discriminate].
  destruct (Py.min _) as [lo|]; cbn [bind]; [|discriminate].
  now intros [= <-].
Qed.

Lemma single_subsidiary_statistics_witness :
  subsidiary_company_statistics
    [("TechCorp"%string, [Emp.mk "Ann" "dev" 2800; Emp.mk "Bob" "ops" 3800])]
  = Ok [("TechCorp"%string,
         Stats.mk (Py.PyFloat Sample.f3300) 3800 2800
                  (Some [Emp.mk "Ann" "dev" 2800; Emp.mk "Bob" "ops" 3800]))].
Proof.
  apply (single_subsidiary_statistics "TechCorp"
           [Emp.mk "Ann" "dev" 2800; Emp.mk "Bob" "ops" 3800] Sample.company_global).
  - discriminate.
  - vm_compute. reflexivity.
Defined.

Lemma concat_filter_has_employees {A : Type} (d : dict (list A)) :
  List.concat (map snd (filter has_employees d)) = List.concat (map snd d).
Proof.
  induction d as [|[k l] d IH]; [reflexivity|].
  simpl. unfold has_employees at 1. simpl.
  destruct l; simpl; now rewrite IH.
Qed.

Lemma mapM_subsidiary_record_employees (items : salary_map) (recs : dict Stats.t) :
  mapM subsidiary_record items = Ok recs ->
  attached_employees recs = all_employees items.
Proof.
  intros H. apply mapM_Forall2 in H.
  unfold attached_employees, all_employees.
  induction H as [|item rec items recs Hr _ IH]; [reflexivity|].
  simpl. apply subsidiary_record_Ok in Hr. destruct Hr as (_ & -> & _).
  now rewrite IH.
Qed.

(** The per-subsidiary records carry every employee of the salary map
    exactly once, in the order of the map: no employee is lost, repeated or
    moved by [subsidiary_company_statistics]. *)
Theorem subsidiary_statistics_keep_employees (salary_data : salary_map)
        (statistics : dict Stats.t) :
  dict_wf salary_data ->
  subsidiary_company_statistics salary_data = Ok statistics ->
  attached_employees statistics = all_employees salary_data.
Proof.
  intros Hwf H.
  rewrite subsidiary_company_statistics_spec in H by assumption.
  apply mapM_subsidiary_record_employees in H. rewrite H.
  apply concat_filter_has_employees.
Qed.

Lemma subsidiary_statistics_keep_employees_witness :
  attached_employees Sample.company_statistics = all_employees Sample.company_salaries.
Proof.
  apply subsidiary_statistics_keep_employees.
  - apply unique_keys_wf. reflexivity.
  - vm_compute. reflexivity.
Defined.

(** * The report, the export and the program *)

(** ** Events *)

Lemma io_bind_Ok {A B : Type} (c : io A) (k : A -> io B) (trace : list event) (b : B) :
  io_bind c k = (trace, Ok b) <->
  exists t1 a t2, c = (t1, Ok a) /\ k a = (t2, Ok b) /\ trace = t1 ++ t2.
Proof.
  unfold io_bind. destruct c as [t1 [a|e]]; simpl.
  - destruct (k a) as [t2 r] eqn:Hk. simpl. split.
    + intros [= <- ->]. exists t1, a, t2. auto.
    + intros (t1' & a' & t2' & [= <- <-] & Hk' & ->).
      rewrite Hk in Hk'. now inversion Hk'.
  - split; [discriminate|]. intros (? & ? & ? & [=] & _).
Qed.

Lemma io_bind_Raise {A B : Type} (c : io A) (k : A -> io B) (trace : list event) (e : exn) :
  io_bind c k = (trace, Raise e) <->
  c = (trace, Raise e) \/
  exists t1 a t2, c = (t1, Ok a) /\ k a = (t2, Raise e) /\ trace = t1 ++ t2.
Proof.
  unfold io_bind. destruct c as [t1 [a|e']]; simpl.
  - destruct (k a) as [t2 r] eqn:Hk. simpl. split.
    + intros [= <- ->]. right. exists t1, a, t2. auto.
    + intros [[=]|(t1' & a' & t2' & [= <- <-] & Hk' & ->)].
      rewrite Hk in Hk'. now inversion Hk'.
  - split.
    + intros [= <- <-]. now left.
    + intros [[= <- <-]|(? & ? & ? & [=] & _)]. reflexivity.
Qed.

Lemma io_unit (c : io unit) (trace : list event) (u : unit) :
  c = (trace, Ok u) -> c = (trace, Ok tt).
Proof. now destruct u. Qed.

(** ** [sorted] with [reverse=True] *)

Lemma insert_reverse_Permutation {A : Type} (key : A -> Z) (x : A) (l : list A) :
  Permutation (x :: l) (insert_reverse key x l).
Proof.
  induction l as [|y l IH]; simpl; [reflexivity|].
  destruct (key x <? key y); [|reflexivity].
  rewrite perm_swap. now constructor.
Qed.

Lemma sorted_reverse_Permutation {A : Type} (key : A -> Z) (l : list A) :
  Permutation l (sorted_reverse key l).
Proof.
  induction l as [|x l IH]; simpl; [constructor|].
  rewrite <- insert_reverse_Permutation. now constructor.
Qed.

Lemma insert_reverse_sorted {A : Type} (key : A -> Z) (x : A) (l : list A) :
  StronglySorted (fun a b => key b <= key a) l ->
  StronglySorted (fun a b => key b <= key a) (insert_reverse key x l).
Proof.
  induction 1 as [|y l Hs IH Hy]; simpl.
  - constructor; constructor.
  - destruct (Z.ltb_spec (key x) (key y)) as [Hlt|Hge].
    + constructor; [exact IH|].
      apply (Permutation_Forall (insert_reverse_Permutation key x l)).
      constructor; [lia | exact Hy].
    + constructor; [now constructor|].
      constructor; [exact Hge|].
      revert Hy. apply Forall_impl. intros z Hz. lia.
Qed.

Lemma sorted_reverse_sorted {A : Type} (key : A -> Z) (l : list A) :
  StronglySorted (fun a b => key b <= key a) (sorted_reverse key l).
Proof.
  induction l as [|x l IH]; simpl; [constructor|].
  now apply insert_reverse_sorted.
Qed.

Lemma insert_reverse_stable {A : Type} (key : A -> Z) (s : Z) (x : A) (l : list A) :
  filter (fun a => key a =? s) (insert_reverse key x l)
  = filter (fun a => key a =? s) (x :: l).
Proof.
  induction l as [|y l IH]; [reflexivity|].
  cbn [insert_reverse]. destruct (Z.ltb_spec (key x) (key y)) as [Hlt|Hge]; [|reflexivity].
  cbn [filter] in *. rewrite IH.
  destruct (Z.eqb_spec (key x) s), (Z.eqb_spec (key y) s); try reflexivity. lia.
Qed.

Lemma sorted_reverse_stable {A : Type} (key : A -> Z) (s : Z) (l : list A) :
  filter (fun a => key a =? s) (sorted_reverse key l) = filter (fun a => key a =? s) l.
Proof.
  induction l as [|x l IH]; [reflexivity|].
  cbn [sorted_reverse fold_right]. rewrite insert_reverse_stable.
  cbn [filter]. unfold sorted_reverse in IH. now rewrite IH.
Qed.

(** ** Text *)

Lemma len_app (s t : string) : Text.len (s ++ t) = (Text.len s + Text.len t)%nat.
Proof.
  induction s as [|c s IH]; [reflexivity|].
  simpl. destruct (Text.continuation c); simpl; now rewrite IH.
Qed.

Lemma len_spaces (n : nat) : Text.len (Text.spaces n) = n.
Proof. induction n as [|n IH]; [reflexivity|]. simpl. now rewrite IH. Qed.

Lemma len_ljust (w : nat) (s : string) :
  Text.len (Text.ljust w s) = Nat.max w (Text.len s).
Proof. unfold Text.ljust. rewrite len_app, len_spaces. lia. Qed.

Lemma round_half_even_exact (k d : Z) : 0 < d -> Text.round_half_even (k * d) d = k.
Proof.
  intros Hd. unfold Text.round_half_even.
  rewrite Z.mod_mul, Z.div_mul by lia.
  destruct (Z.compare_spec (2 * 0) d); [lia | reflexivity | lia].
Qed.

Lemma round_half_even_bounds (n d a b : Z) :
  0 < d -> a * d <= n <= b * d ->
  a <= Text.round_half_even n d <= b.
Proof.
  intros Hd [Ha Hb]. unfold Text.round_half_even.
  pose proof (Z.div_mod n d ltac:(lia)) as Hdm.
  pose proof (Z.mod_pos_bound n d Hd) as Hr.
  set (q := n / d) in *. set (r := n mod d) in *.
  assert (Hq : a <= q) by nia.
  assert (Hq' : q <= b) by nia.
  assert (Hq'' : 0 < r -> q + 1 <= b) by nia.
  destruct (Z.compare_spec (2 * r) d) as [E|E|E].
  - destruct (Z.even q); lia.
  - lia.
  - lia.
Qed.

Lemma hundredths_exact (v : positive) :
  Z.pos v < 2 ^ 53 ->
  match canon v 0 with
  | S754_finite s m e => s = false /\ Text.hundredths m e = Z.pos v * 100
  | _ => False
  end.
Proof.
  intros Hv. unfold canon. split; [reflexivity|].
  set (d := Z.pos (digits2_pos v)).
  assert (Hd : 1 <= d <= 53).
  { unfold d. split; [lia|]. rewrite <- Zdigits2_pos. apply Zdigits2_le; lia. }
  pose proof (pow2_pos (53 - d) ltac:(lia)) as Hp.
  unfold Text.hundredths. rewrite Z2Pos.id by lia.
  destruct (Z.leb_spec 0 (0 + d - 53)) as [He|He].
  - replace (0 + d - 53) with 0 by lia. replace (53 - d) with 0 by lia.
    rewrite !Z.pow_0_r. lia.
  - replace (- (0 + d - 53)) with (53 - d) by lia.
    replace (Z.pos v * 2 ^ (53 - d) * 100) with (Z.pos v * 100 * 2 ^ (53 - d)) by ring.
    now apply round_half_even_exact.
Qed.

Lemma fixed2_whole (z : Z) :
  0 <= z -> Text.fixed2 false (z * 100) = (Text.decimal z ++ ".00")%string.
Proof.
  intros Hz. unfold Text.fixed2.
  rewrite Z.div_mul, Z.mod_mul by lia. reflexivity.
Qed.

Lemma format_2f_whole (z : Z) :
  0 <= z < 2 ^ 53 ->
  Text.format_2f (Py.PyInt z) = Ok (Text.decimal z ++ ".00")%string.
Proof.
  intros Hz. unfold Text.format_2f. cbn [Py.as_float].
  rewrite float_of_int_repr by assumption. cbn [bind]. f_equal.
  destruct z as [|v|v]; [reflexivity| |lia].
  cbn [repr]. pose proof (hundredths_exact v ltac:(lia)) as H.
  destruct (canon v 0) as [| | |s m e]; try contradiction.
  destruct H as [-> H]. cbn [Text.format_float_2f]. rewrite H.
  apply fixed2_whole. lia.
Qed.

(** ** The report *)

Lemma print_employees_Ok (l : list Emp.t) (trace : list event) :
  print_employees l = (trace, Ok tt) <->
  exists lines, mapM employee_line l = Ok lines /\ trace = map Print lines.
Proof.
  revert trace. induction l as [|x l IH]; intros trace.
  - simpl. unfold ret. split.
    + intros [= <-]. exists []. auto.
    + intros (lines & [= <-] & ->). reflexivity.
  - cbn [print_employees mapM]. destruct (employee_line x) as [line|e].
    + unfold io_bind, lift, print, emit. cbn [fst snd bind app].
      destruct (print_employees l) as [t r] eqn:Hl. cbn [fst snd]. split.
      * intros [= <- ->]. destruct (proj1 (IH t) eq_refl) as (lines & -> & ->).
        exists (line :: lines). auto.
      * intros (lines & H & ->). destruct (mapM employee_line l) as [ls|]; [|discriminate].
        injection H as <-. simpl.
        assert (H' : (t, r) = (map Print ls, Ok tt)) by (apply IH; eauto).
        injection H' as -> ->. reflexivity.
    + unfold io_bind, lift. simpl. split; [discriminate|].
      intros (lines & [=] & _).
Qed.

Lemma print_employees_Raise (l : list Emp.t) (trace : list event) (e : exn) :
  print_employees l = (trace, Raise e) ->
  exists x, In x l /\ employee_line x = Raise e.
Proof.
  revert trace. induction l as [|x l IH]; intros trace; [discriminate|].
  cbn [print_employees]. destruct (employee_line x) as [line|e'] eqn:Hx.
  - unfold io_bind, lift, print, emit. cbn [fst snd app].
    destruct (print_employees l) as [t r] eqn:Hl. cbn [fst snd].
    intros [= <- ->]. destruct (IH t eq_refl) as (y & Hy & He).
    exists y. split; [now right | assumption].
  - unfold io_bind, lift. simpl. intros [= <- <-]. exists x. split; [now left | assumption].
Qed.

Lemma print_employees_prints (l : list Emp.t) :
  Forall (fun ev => file_event ev = false) (fst (print_employees l)).
Proof.
  induction l as [|x l IH]; [constructor|].
  cbn [print_employees]. destruct (employee_line x) as [line|e'].
  - unfold io_bind, lift, print, emit. cbn [fst snd app].
    destruct (print_employees l) as [t [u|e]]; cbn [fst snd] in *; now constructor.
  - constructor.
Qed.

Lemma listing_eq (statistics : Stats.t) :
  match Stats.employee_salary statistics with
  | Some ((_ :: _) as employees) =>
      print_employees (sorted_reverse Emp.monthly_salary employees)
  | _ => ret tt
  end = print_employees (sorted_reverse Emp.monthly_salary (employees_of statistics)).
Proof.
  unfold employees_of. destruct (Stats.employee_salary statistics) as [[|x l]|]; reflexivity.
Qed.

Lemma print_company_eq (company : string) (statistics : Stats.t) :
  print_company company statistics =
  (print ("Entreprise: " ++ company) ;;;
   print_employees (sorted_reverse Emp.monthly_salary (employees_of statistics)) ;;;
   print (Text.newline ++ rule) ;;;
   print ("Statistiques des salaires pour l'entreprise " ++ company ++ ":") ;;;
   average <~ lift (Text.format_2f (Stats.average_salary statistics)) ;;
   print ("Salaire moyen: " ++ average ++ "€") ;;;
   highest <~ lift (Text.format_2f (Py.PyInt (Stats.highest_salary statistics))) ;;
   print ("Salaire le plus élevé: " ++ highest ++ "€") ;;;
   lowest <~ lift (Text.format_2f (Py.PyInt (Stats.lowest_salary statistics))) ;;
   print ("Salaire le plus bas: " ++ lowest ++ "€") ;;;
   print (rule ++ Text.newline)).
Proof. unfold print_company. now rewrite listing_eq. Qed.

Lemma print_company_Ok (company : string) (statistics : Stats.t) (trace : list event) :
  print_company company statistics = (trace, Ok tt) <->
  exists lines average highest lowest,
    mapM employee_line (sorted_reverse Emp.monthly_salary (employees_of statistics))
      = Ok lines /\
    Text.format_2f (Stats.average_salary statistics) = Ok average /\
    Text.format_2f (Py.PyInt (Stats.highest_salary statistics)) = Ok highest /\
    Text.format_2f (Py.PyInt (Stats.lowest_salary statistics)) = Ok lowest /\
    trace = Print ("Entreprise: " ++ company)
            :: map Print lines
            ++ map Print (summary_lines company average highest lowest).
Proof.
  rewrite print_company_eq.
  set (l := sorted_reverse Emp.monthly_salary (employees_of statistics)).
  pose proof (print_employees_Ok l) as Hl.
  destruct (print_employees l) as [t r].
  unfold io_bind, lift, print, emit. cbn [fst snd app].
  destruct r as [[]|e]; cbn [fst snd].
  - destruct (proj1 (Hl t) eq_refl) as (lines & Hlines & ->). rewrite Hlines.
    destruct (Text.format_2f (Stats.average_salary statistics)) as [average|]; cbn [fst snd app].
    2:{ split; [discriminate|]. intros (? & ? & ? & ? & _ & [=] & _). }
    destruct (Text.format_2f (Py.PyInt (Stats.highest_salary statistics))) as [highest|];
      cbn [fst snd app].
    2:{ split; [discriminate|]. intros (? & ? & ? & ? & _ & _ & [=] & _). }
    destruct (Text.format_2f (Py.PyInt (Stats.lowest_salary statistics))) as [lowest|];
      cbn [fst snd app].
    2:{ split; [discriminate|]. intros (? & ? & ? & ? & _ & _ & _ & [=] & _). }
    split.
    + intros [= <-]. exists lines, average, highest, lowest.
      repeat split. 
    + intros (lines' & a' & h' & l' & [= <-] & [= <-] & [= <-] & [= <-] & ->). reflexivity.
  - split; [discriminate|].
    intros (lines & _ & _ & _ & Hlines & _).
    assert (H' : (t, Raise e) = (map Print lines, Ok tt)) by (apply Hl; eauto).
    discriminate.
Qed.

Lemma print_statistics_Ok (subsidiary_data : dict Stats.t) (trace : list event) :
  print_statistics subsidiary_data = (trace, Ok tt) <->
  exists blocks,
    Forall2 (fun kv block => print_company (fst kv) (snd kv) = (block, Ok tt))
            subsidiary_data blocks /\
    trace = List.concat blocks.
Proof.
  revert trace. induction subsidiary_data as [|[company statistics] rest IH]; intros trace.
  - simpl. unfold ret. split.
    + intros [= <-]. exists []. split; [constructor | reflexivity].
    + intros (blocks & HF & ->). inversion HF. reflexivity.
  - cbn [print_statistics]. rewrite io_bind_Ok. split.
    + intros (t1 & [] & t2 & H1 & H2 & ->).
      apply IH in H2. destruct H2 as (blocks & HF & ->).
      exists (t1 :: blocks). split; [constructor; assumption | reflexivity].
    + intros (blocks & HF & ->). inversion HF as [|kv block l l' H1 H2]; subst.
      exists block, tt, (List.concat l'). cbn [fst snd] in H1.
      repeat split; [assumption|]. apply IH. eauto.
Qed.

Lemma Forall2_In_split {A B : Type} (R : A -> list B -> Prop) (l : list A)
      (l' : list (list B))
      (a : A) :
  Forall2 R l l' -> In a l ->
  exists before b after, R a b /\ List.concat l' = before ++ b ++ after.
Proof.
  induction 1 as [|x y l l' Hxy _ IH]; intros Hin; [contradiction|].
  destruct Hin as [->|Hin].
  - exists [], y, (List.concat l'). auto.
  - destruct (IH Hin) as (before & b & after & Hb & Heq).
    exists (y ++ before), b, after. split; [assumption|].
    simpl. rewrite Heq. now rewrite app_assoc.
Qed.

(** The block of a company in the report: the header line, one line per
    employee and the six summary lines, in one piece.  The employees are
    those of the company's record, listed from the highest salary to the
    lowest, employees with the same salary in the order of the record. *)
Theorem report_block (subsidiary_data : dict Stats.t) (trace : list event)
        (company : string) (statistics : Stats.t) :
  print_statistics subsidiary_data = (trace, Ok tt) ->
  In (company, statistics) subsidiary_data ->
  exists before after listed lines average highest lowest,
    trace = before
            ++ (Print ("Entreprise: " ++ company)
                :: map Print lines
                ++ map Print (summary_lines company average highest lowest))
            ++ after /\
    Permutation (employees_of statistics) listed /\
    descending listed /\
    (forall s, earning s listed = earning s (employees_of statistics)) /\
    mapM employee_line listed = Ok lines /\
    Text.format_2f (Stats.average_salary statistics) = Ok average /\
    Text.format_2f (Py.PyInt (Stats.highest_salary statistics)) = Ok highest /\
    Text.format_2f (Py.PyInt (Stats.lowest_salary statistics)) = Ok lowest.
Proof.
  intros H Hin. apply print_statistics_Ok in H. destruct H as (blocks & HF & ->).
  destruct (Forall2_In_split _ _ _ _ HF Hin) as (before & block & after & Hb & Heq).
  cbn [fst snd] in Hb. apply print_company_Ok in Hb.
  destruct Hb as (lines & average & highest & lowest & Hl & Ha & Hh & Hlo & ->).
  exists before, after, (sorted_reverse Emp.monthly_salary (employees_of statistics)),
    lines, average, highest, lowest.
  split; [exact Heq|].
  split; [apply sorted_reverse_Permutation|].
  split; [apply sorted_reverse_sorted|].
  split; [intros s; apply sorted_reverse_stable|].
  auto.
Qed.

Lemma report_block_witness :
  exists before after listed lines average highest lowest,
    fst (print_statistics Sample.company_statistics)
    = before
      ++ (Print ("Entreprise: " ++ "TechCorp")
          :: map Print lines
          ++ map Print (summary_lines "TechCorp" average highest lowest))
      ++ after /\
    Permutation [Emp.mk "Ann" "dev" 2800; Emp.mk "Bob" "ops" 3800] listed /\
    descending listed /\
    (forall s, earning s listed
               = earning s [Emp.mk "Ann" "dev" 2800; Emp.mk "Bob" "ops" 3800]) /\
    mapM employee_line listed = Ok lines /\
    Text.format_2f (Py.PyFloat Sample.f3300) = Ok average /\
    Text.format_2f (Py.PyInt 3800) = Ok highest /\
    Text.format_2f (Py.PyInt 2800) = Ok lowest.
Proof.
  apply (report_block Sample.company_statistics
           (fst (print_statistics Sample.company_statistics)) "TechCorp"
           (Stats.mk (Py.PyFloat Sample.f3300) 3800 2800
                     (Some [Emp.mk "Ann" "dev" 2800; Emp.mk "Bob" "ops" 3800]))).
  - vm_compute. reflexivity.
  - left. reflexivity.
Defined.

(** A salary from 0 to below 2^53 is printed in full: its decimal numeral
    followed by [.00], after the name padded to 10 and the job padded to 15
    characters. *)
Theorem employee_line_whole (employee : Emp.t) :
  0 <= Emp.monthly_salary employee < 2 ^ 53 ->
  employee_line employee
  = Ok (Text.ljust 10 (Emp.name employee) ++ " | " ++ Text.ljust 15 (Emp.job employee)
        ++ " | Salaire mensuel: "
        ++ (Text.decimal (Emp.monthly_salary employee) ++ ".00") ++ "€")%string.
Proof.
  intros Hs. unfold employee_line. now rewrite format_2f_whole.
Qed.

Lemma employee_line_whole_witness :
  employee_line (Emp.mk "Bob" "ops" 3800)
  = Ok (Text.ljust 10 "Bob" ++ " | " ++ Text.ljust 15 "ops"
        ++ " | Salaire mensuel: " ++ (Text.decimal 3800 ++ ".00") ++ "€")%string.
Proof.
  apply (employee_line_whole (Emp.mk "Bob" "ops" 3800)).
  simpl. lia.
Defined.

Lemma append_assoc (s t u : string) : ((s ++ t) ++ u = s ++ t ++ u)%string.
Proof. induction s as [|c s IH]; [reflexivity|]. simpl. now rewrite IH. Qed.

(** The columns of the report: a name of at most 10 and a job of at most
    15 characters are filled up, so that the amount starts after 48
    characters on every such line; a longer name or job is not cut and
    moves the amount to the right. *)
Theorem employee_line_columns (employee : Emp.t) (line : string) :
  employee_line employee = Ok line ->
  exists amount,
    Text.format_2f (Py.PyInt (Emp.monthly_salary employee)) = Ok amount /\
    line = (line_columns employee ++ amount ++ "€")%string /\
    Text.len (line_columns employee)
    = (Nat.max 10 (Text.len (Emp.name employee))
       + Nat.max 15 (Text.len (Emp.job employee)) + 23)%nat.
Proof.
  unfold employee_line. intros H.
  destruct (Text.format_2f (Py.PyInt (Emp.monthly_salary employee))) as [amount|];
    [|discriminate].
  injection H as <-. exists amount. split; [reflexivity|]. split.
  - unfold line_columns. now rewrite !append_assoc.
  - unfold line_columns. rewrite !len_app, !len_ljust. simpl. lia.
Qed.

Lemma employee_line_columns_witness :
  exists amount,
    Text.format_2f (Py.PyInt 3800) = Ok amount /\
    "Bob        | ops             | Salaire mensuel: 3800.00€"%string
    = (line_columns (Emp.mk "Bob" "ops" 3800) ++ amount ++ "€")%string /\
    Text.len (line_columns (Emp.mk "Bob" "ops" 3800))
    = (Nat.max 10 (Text.len "Bob") + Nat.max 15 (Text.len "ops") + 23)%nat.
Proof.
  apply (employee_line_columns (Emp.mk "Bob" "ops" 3800)).
  vm_compute. reflexivity.
Defined.

Lemma format_2f_Raise (x : Py.number) (e : exn) :
  Text.format_2f x = Raise e ->
  e = OverflowError /\ exists z, x = Py.PyInt z /\ 2 ^ 1023 < Z.abs z.
Proof.
  unfold Text.format_2f. intros H.
  destruct (Py.as_float x) as [f|e'] eqn:Hf; [discriminate|].
  simpl in H. injection H as <-.
  split; [now apply (as_float_Raise x)|].
  destruct x as [z|f]; [|discriminate]. exists z. split; [reflexivity|].
  destruct (Z.le_gt_cases (Z.abs z) (2 ^ 1023)) as [Hle|Hgt]; [|lia].
  destruct (float_of_int_small 1023 z ltac:(lia) Hle) as (f & Hz & _).
  simpl in Hf. congruence.
Qed.

Lemma print_company_Raise (company : string) (statistics : Stats.t)
      (trace : list event) (e : exn) :
  print_company company statistics = (trace, Raise e) ->
  e = OverflowError /\
  exists z, In z (int_figures statistics) /\ 2 ^ 1023 < Z.abs z.
Proof.
  rewrite print_company_eq.
  set (l := sorted_reverse Emp.monthly_salary (employees_of statistics)).
  pose proof (print_employees_Raise l) as Hl.
  destruct (print_employees l) as [t r].
  unfold io_bind, lift, print, emit. cbn [fst snd app].
  unfold int_figures.
  destruct r as [[]|e0]; cbn [fst snd].
  - destruct (Text.format_2f (Stats.average_salary statistics)) as [average|e1] eqn:Ha;
      cbn [fst snd app].
    2:{ intros [= <- <-]. apply format_2f_Raise in Ha.
        destruct Ha as (-> & z & Hz & Hb). split; [reflexivity|].
        exists z. rewrite Hz. split; [now left | assumption]. }
    destruct (Text.format_2f (Py.PyInt (Stats.highest_salary statistics)))
      as [highest|e1] eqn:Hh; cbn [fst snd app].
    2:{ intros [= <- <-]. apply format_2f_Raise in Hh.
        destruct Hh as (-> & z & [= <-] & Hb). split; [reflexivity|].
        exists (Stats.highest_salary statistics). split; [|assumption].
        apply in_or_app. right. now left. }
    destruct (Text.format_2f (Py.PyInt (Stats.lowest_salary statistics)))
      as [lowest|e1] eqn:Hlo; cbn [fst snd app].
    2:{ intros [= <- <-]. apply format_2f_Raise in Hlo.
        destruct Hlo as (-> & z & [= <-] & Hb). split; [reflexivity|].
        exists (Stats.lowest_salary statistics). split; [|assumption].
        apply in_or_app. right. right. now left. }
    discriminate.
  - intros [= <- <-]. destruct (Hl t e0 eq_refl) as (x & Hx & He).
    unfold employee_line in He.
    destruct (Text.format_2f (Py.PyInt (Emp.monthly_salary x))) as [amount|e1] eqn:Hf;
      [discriminate|].
    simpl in He. injection He as ->. apply format_2f_Raise in Hf.
    destruct Hf as (-> & z & [= <-] & Hb). split; [reflexivity|].
    exists (Emp.monthly_salary x). split; [|assumption].
    apply in_or_app. right. right. right.
    apply in_map. unfold l in Hx.
    now apply (Permutation_in _ (Permutation_sym (sorted_reverse_Permutation _ _))) in Hx.
Qed.

Lemma print_statistics_Raise (subsidiary_data : dict Stats.t) (trace : list event)
      (e : exn) :
  print_statistics subsidiary_data = (trace, Raise e) ->
  e = OverflowError /\
  exists company statistics z,
    In (company, statistics) subsidiary_data /\
    In z (int_figures statistics) /\ 2 ^ 1023 < Z.abs z.
Proof.
  revert trace. induction subsidiary_data as [|[company statistics] rest IH]; intros trace;
    [discriminate|].
  cbn [print_statistics]. rewrite io_bind_Raise.
  intros [H|(t1 & [] & t2 & _ & H & _)].
  - apply print_company_Raise in H. destruct H as (-> & z & Hz & Hb).
    split; [reflexivity|]. exists company, statistics, z. repeat split; auto. now left.
  - apply IH in H. destruct H as (-> & c & s & z & Hin & Hz & Hb).
    split; [reflexivity|]. exists c, s, z. repeat split; auto. now right.
Qed.



(** ** The CSV export *)

Lemma write_employees_spec (subsidiary : string) (employees : list Emp.t) :
  write_employees subsidiary employees
  = (map (fun e => WriteRow (plain_row subsidiary e)) employees, Ok tt).
Proof.
  induction employees as [|e l IH]; [reflexivity|].
  cbn [write_employees]. unfold io_bind, lift, emit, employee_row.
  cbn [Text.round2 bind fst snd app]. rewrite IH. reflexivity.
Qed.

Lemma write_salaries_spec (items : dict Stats.t) :
  write_salaries items = (map WriteRow (employee_rows items), Ok tt).
Proof.
  induction items as [|[subsidiary stats] rest IH]; [reflexivity|].
  cbn [write_salaries]. rewrite IH. unfold employee_rows, employees_of.
  cbn [flat_map fst snd]. rewrite map_app, map_map.
  destruct (Stats.employee_salary stats) as [[|e l]|].
  - reflexivity.
  - rewrite write_employees_spec. reflexivity.
  - reflexivity.
Qed.

Lemma write_statistics_Ok (items : dict Stats.t) (trace : list event) :
  write_statistics items = (trace, Ok tt) <->
  exists rows,
    mapM (fun kv => statistics_row (fst kv) (snd kv)) items = Ok rows /\
    trace = map WriteRow rows.
Proof.
  revert trace. induction items as [|[subsidiary stats] rest IH]; intros trace.
  - simpl. unfold ret. split.
    + intros [= <-]. exists []. auto.
    + intros (rows & [= <-] & ->). reflexivity.
  - cbn [write_statistics mapM fst snd].
    destruct (statistics_row subsidiary stats) as [row|e].
    + unfold io_bind, lift, emit. cbn [fst snd bind app].
      destruct (write_statistics rest) as [t r] eqn:Hr. cbn [fst snd]. split.
      * intros [= <- ->]. destruct (proj1 (IH t) eq_refl) as (rows & -> & ->).
        exists (row :: rows). auto.
      * intros (rows & H & ->).
        destruct (mapM (fun kv => statistics_row (fst kv) (snd kv)) rest) as [rs|];
          [|discriminate].
        injection H as <-. simpl.
        assert (H' : (t, r) = (map WriteRow rs, Ok tt)) by (apply IH; eauto).
        injection H' as -> ->. reflexivity.
    + unfold io_bind, lift. simpl. split; [discriminate|].
      intros (rows & [=] & _).
Qed.

Lemma write_statistics_Raise (items : dict Stats.t) (trace : list event) (e : exn) :
  write_statistics items = (trace, Raise e) ->
  exists subsidiary stats,
    In (subsidiary, stats) items /\ statistics_row subsidiary stats = Raise e.
Proof.
  revert trace. induction items as [|[subsidiary stats] rest IH]; intros trace;
    [discriminate|].
  cbn [write_statistics]. destruct (statistics_row subsidiary stats) as [row|e'] eqn:Hrow.
  - unfold io_bind, lift, emit. cbn [fst snd app].
    destruct (write_statistics rest) as [t r] eqn:Hr. cbn [fst snd].
    intros [= <- ->]. destruct (IH t eq_refl) as (k & s & Hin & H).
    exists k, s. split; [now right | assumption].
  - unfold io_bind, lift. simpl. intros [= <- <-].
    exists subsidiary, stats. split; [now left | assumption].
Qed.

Lemma generate_csv_Ok (subsidiary_statistics : dict Stats.t) (filename : string)
      (trace : list event) :
  generate_csv subsidiary_statistics filename = (trace, Ok tt) <->
  exists rows,
    mapM (fun kv => statistics_row (fst kv) (snd kv)) subsidiary_statistics = Ok rows /\
    trace = OpenFile filename
            :: WriteRow employee_header
            :: map WriteRow (employee_rows subsidiary_statistics)
            ++ WriteRow []
            :: WriteRow statistics_header
            :: map WriteRow rows
            ++ [Print ("CSV file " ++ Text.quote ++ filename ++ Text.quote
                       ++ " generated successfully.")].
Proof.
  unfold generate_csv. rewrite write_salaries_spec.
  pose proof (write_statistics_Ok subsidiary_statistics) as Hs.
  destruct (write_statistics subsidiary_statistics) as [t r].
  unfold io_bind, print, emit. cbn [fst snd app].
  destruct r as [[]|e]; cbn [fst snd].
  - destruct (proj1 (Hs t) eq_refl) as (rows & Hrows & ->). split.
    + intros [= <-]. exists rows. split; [assumption|].
      repeat rewrite <- app_assoc. reflexivity.
    + intros (rows' & Hrows' & ->). rewrite Hrows in Hrows'. injection Hrows' as <-.
      repeat rewrite <- app_assoc. reflexivity.
  - split; [discriminate|]. intros (rows & Hrows & _).
    assert (H' : (t, Raise e) = (map WriteRow rows, Ok tt)) by (apply Hs; eauto).
    discriminate.
Qed.

Lemma generate_csv_Raise (subsidiary_statistics : dict Stats.t) (filename : string)
      (trace : list event) (e : exn) :
  generate_csv subsidiary_statistics filename = (trace, Raise e) ->
  exists subsidiary stats,
    In (subsidiary, stats) subsidiary_statistics /\
    statistics_row subsidiary stats = Raise e.
Proof.
  unfold generate_csv. rewrite write_salaries_spec.
  pose proof (write_statistics_Raise subsidiary_statistics) as Hs.
  destruct (write_statistics subsidiary_statistics) as [t r].
  unfold io_bind, print, emit. cbn [fst snd app].
  destruct r as [[]|e']; cbn [fst snd]; [discriminate|].
  intros [= <- <-]. now apply (Hs t).
Qed.

(** The layout of the file: the header of the employee section, one row
    per employee of every record in the order of the records, with the
    salary as the int it is, then an empty row, the header of the statistics
    section and one row per record with the average rounded to two decimals
    and the two extremes as they are; the message is printed last. *)
Theorem csv_layout (subsidiary_statistics : dict Stats.t) (filename : string)
        (trace : list event) :
  generate_csv subsidiary_statistics filename = (trace, Ok tt) ->
  exists rows,
    trace = OpenFile filename
            :: WriteRow employee_header
            :: map WriteRow (employee_rows subsidiary_statistics)
            ++ WriteRow []
            :: WriteRow statistics_header
            :: map WriteRow rows
            ++ [Print ("CSV file " ++ Text.quote ++ filename ++ Text.quote
                       ++ " generated successfully.")] /\
    Forall2 (fun kv row =>
               exists average,
                 Text.round2 (Stats.average_salary (snd kv)) = Ok average /\
                 row = [CStr (fst kv); CNum average;
                        CNum (Py.PyInt (Stats.highest_salary (snd kv)));
                        CNum (Py.PyInt (Stats.lowest_salary (snd kv)))])
            subsidiary_statistics rows.
Proof.
  intros H. apply generate_csv_Ok in H. destruct H as (rows & Hrows & ->).
  exists rows. split; [reflexivity|].
  apply mapM_Forall2 in Hrows. revert Hrows. apply Forall2_impl.
  intros [k stats] row. unfold statistics_row. cbn [fst snd].
  destruct (Text.round2 (Stats.average_salary stats)) as [average|]; [|discriminate].
  intros [= <-]. exists average. auto.
Qed.

Lemma csv_layout_witness :
  exists rows,
    fst (generate_csv Sample.company_statistics default_filename)
    = OpenFile default_filename
      :: WriteRow employee_header
      :: map WriteRow (employee_rows Sample.company_statistics)
      ++ WriteRow []
      :: WriteRow statistics_header
      :: map WriteRow rows
      ++ [Print ("CSV file " ++ Text.quote ++ default_filename ++ Text.quote
                 ++ " generated successfully.")] /\
    Forall2 (fun kv row =>
               exists average,
                 Text.round2 (Stats.average_salary (snd kv)) = Ok average /\
                 row = [CStr (fst kv); CNum average;
                        CNum (Py.PyInt (Stats.highest_salary (snd kv)));
                        CNum (Py.PyInt (Stats.lowest_salary (snd kv)))])
            Sample.company_statistics rows.
Proof.
  apply (csv_layout Sample.company_statistics default_filename).
  vm_compute. reflexivity.
Defined.

(** ** Rounding to two decimals *)

Lemma hundredths_bounds (s : bool) (m : positive) (e L H : Z) :
  Py.le (Py.PyInt L) (Py.PyFloat (S754_finite s m e)) = true ->
  Py.le (Py.PyFloat (S754_finite s m e)) (Py.PyInt H) = true ->
  L * 100 <= cond_Zopp s (Text.hundredths m e) <= H * 100.
Proof.
  rewrite le_int_float, le_float_int. unfold Text.hundredths.
  destruct (Z.leb_spec 0 e) as [He|He].
  - intros HL HH. destruct s; cbn [cond_Zopp] in *; lia.
  - pose proof (pow2_pos (- e) ltac:(lia)) as Hp.
    intros HL HH. destruct s; cbn [cond_Zopp] in *.
    + assert (- H * 100 <= Text.round_half_even (Z.pos m * 100) (2 ^ (- e)) <= - L * 100);
        [|lia].
      apply round_half_even_bounds; [assumption|]. nia.
    + apply round_half_even_bounds; [assumption|]. nia.
Qed.

Lemma round2_between (x : Py.number) (L H : Z) :
  - 2 ^ 53 < L -> H < 2 ^ 53 ->
  Py.le (Py.PyInt L) x = true -> Py.le x (Py.PyInt H) = true ->
  exists y, Text.round2 x = Ok y /\
            Py.le (Py.PyInt L) y = true /\ Py.le y (Py.PyInt H) = true.
Proof.
  intros HL HH Hlo Hhi. destruct x as [z|f].
  - exists (Py.PyInt z). auto.
  - destruct f as [s|s| |s m e].
    + exists (Py.PyFloat (S754_zero s)). auto.
    + destruct s; [discriminate Hlo | discriminate Hhi].
    + discriminate Hlo.
    + pose proof (hundredths_bounds s m e L H Hlo Hhi) as Hq.
      cbn [Text.round2]. cbv zeta.
      destruct (Z.eqb_spec (Text.hundredths m e) 0) as [Hz|Hnz].
      * exists (Py.PyFloat (S754_zero s)). rewrite Hz in Hq.
        split; [reflexivity|]. rewrite le_int_zero, le_zero_int.
        destruct s; cbn [cond_Zopp] in Hq; lia.
      * destruct (truediv_bounds (cond_Zopp s (Text.hundredths m e)) 100 L H)
          as (avg & Havg & H1 & H2); try lia.
        exists avg. auto.
Qed.

(** The row of a record in the statistics section keeps the order of its
    figures: when the average of the record lies between its lowest and its
    highest salary, both below 2^53 in magnitude, so does the rounded
    average that is written. *)
Theorem csv_average_between (subsidiary : string) (stats : Stats.t) :
  ordered stats ->
  - 2 ^ 53 < Stats.lowest_salary stats -> Stats.highest_salary stats < 2 ^ 53 ->
  exists average,
    statistics_row subsidiary stats
    = Ok [CStr subsidiary; CNum average;
          CNum (Py.PyInt (Stats.highest_salary stats));
          CNum (Py.PyInt (Stats.lowest_salary stats))] /\
    Py.le (Py.PyInt (Stats.lowest_salary stats)) average = true /\
    Py.le average (Py.PyInt (Stats.highest_salary stats)) = true.
Proof.
  intros [Hlo Hhi] HL HH.
  destruct (round2_between _ _ _ HL HH Hlo Hhi) as (y & Hy & H1 & H2).
  exists y. unfold statistics_row. rewrite Hy. auto.
Qed.

Lemma csv_average_between_witness :
  exists average,
    statistics_row "ProjectLead"
      (Stats.mk (Py.PyFloat (S754_finite false 6963573642581333 (-43))) 2375 0 None)
    = Ok [CStr "ProjectLead"; CNum average; CNum (Py.PyInt 2375); CNum (Py.PyInt 0)] /\
    Py.le (Py.PyInt 0) average = true /\
    Py.le average (Py.PyInt 2375) = true.
Proof.
  apply (csv_average_between "ProjectLead"
           (Stats.mk (Py.PyFloat (S754_finite false 6963573642581333 (-43))) 2375 0 None)).
  - split; vm_compute; reflexivity.
  - simpl. lia.
  - simpl. lia.
Defined.

(** ** Division without overflow *)

Lemma binary_round_aux_bounded (s : bool) (mx ex : Z) (lx : location) :
  0 <= mx ->
  match binary_round_aux Py.prec Py.emax s mx ex lx with
  | S754_infinity _ => True
  | f => bounded_float f = true
  end.
Proof.
  intros Hm.
  destruct (binary_round_aux_spec s mx ex lx Hm) as (m1 & _ & Hb & ->).
  destruct (Z.eqb_spec m1 0) as [Hz|Hnz]; [reflexivity|].
  destruct (Z.ltb_spec m1 (2 ^ 53)) as [Hlt|Hge].
  - destruct (Z.leb_spec (ex + Z.max 0 (fexp Py.prec Py.emax (Zdigits2 mx + ex) - ex)) 971)
      as [He|He]; [|exact I].
    cbn [bounded_float]. rewrite Z2Pos.id by lia.
    rewrite (proj2 (Z.ltb_lt _ _) Hlt), (proj2 (Z.leb_le _ _) He). reflexivity.
  - destruct (Z.leb_spec (ex + Z.max 0 (fexp Py.prec Py.emax (Zdigits2 mx + ex) - ex) + 1)
                         971) as [He|He]; [|exact I].
    cbn [bounded_float]. rewrite (proj2 (Z.leb_le _ _) He). reflexivity.
Qed.

Lemma SFdiv_core_nonneg (a b : positive) :
  0 <= fst (fst (SFdiv_core_binary Py.prec Py.emax (Z.pos a) 0 (Z.pos b) 0)).
Proof.
  destruct (SFdiv_core_binary_ints a b) as (s & Hs & ->). cbn [fst].
  apply Z.div_pos; [|lia]. pose proof (pow2_pos s Hs). lia.
Qed.

Lemma SFdiv_ints_bounded (a b : Z) :
  b <> 0 ->
  match SFdiv Py.prec Py.emax (Py.Z2SF a) (Py.Z2SF b) with
  | S754_infinity _ => True
  | f => bounded_float f = true
  end.
Proof.
  intros Hb. destruct a as [|a|a], b as [|b|b]; try congruence; try reflexivity;
    cbn [Py.Z2SF SFdiv];
    pose proof (SFdiv_core_nonneg a b) as Hn;
    destruct (SFdiv_core_binary Py.prec Py.emax (Z.pos a) 0 (Z.pos b) 0) as [[mz ez] lz];
    now apply binary_round_aux_bounded.
Qed.

Lemma truediv_bounded (a b : Z) (x : Py.number) :
  Py.truediv a b = Ok x -> exists f, x = Py.PyFloat f /\ bounded_float f = true.
Proof.
  unfold Py.truediv. destruct (Z.eqb_spec b 0) as [Hb|Hb]; [discriminate|].
  pose proof (SFdiv_ints_bounded a b Hb) as H.
  destruct (SFdiv Py.prec Py.emax (Py.Z2SF a) (Py.Z2SF b)) as [s|s| |s m e];
    intros [= <-]; eauto.
Qed.

(** The quotient of two positive ints below 2^1022 is in range. *)
Lemma SFdiv_small_quotient (sa : bool) (a b : positive) :
  Z.pos a < 2 ^ 1022 * Z.pos b ->
  bounded_float (SFdiv Py.prec Py.emax (S754_finite sa a 0) (S754_finite false b 0)) = true.
Proof.
  intros Hab. unfold SFdiv.
  destruct (SFdiv_core_binary_ints a b) as (s & Hs & ->).
  rewrite xorb_false_r.
  set (A := Z.pos a) in *. set (B := Z.pos b) in *.
  assert (HA : 0 < A) by (unfold A; lia). assert (HB : 0 < B) by (unfold B; lia).
  pose proof (pow2_pos s Hs) as Hps.
  set (q0 := A * 2 ^ s / B).
  assert (Hq0 : 0 <= q0) by (unfold q0; apply Z.div_pos; lia).
  assert (Hq0lt : q0 < 2 ^ (1022 + s)).
  { unfold q0. apply Z.div_lt_upper_bound; [lia|]. rewrite Z.pow_add_r by lia. nia. }
  destruct (binary_round_aux_spec sa q0 (- s)
              (new_location B ((A * 2 ^ s) mod B)) Hq0) as (m1 & _ & Hm1b & ->).
  set (e1 := - s + Z.max 0 (fexp Py.prec Py.emax (Zdigits2 q0 + - s) - - s)).
  assert (He1 : e1 <= 969).
  { unfold e1. rewrite fexp_eq.
    assert (Zdigits2 q0 <= 1022 + s) by (apply Zdigits2_le; lia). lia. }
  destruct (Z.eqb_spec m1 0) as [Hz|Hnz]; [reflexivity|].
  destruct (Z.ltb_spec m1 (2 ^ 53)) as [Hlt|Hge].
  - rewrite (proj2 (Z.leb_le e1 971)) by lia. cbn [bounded_float].
    rewrite Z2Pos.id by lia.
    rewrite (proj2 (Z.ltb_lt _ _) Hlt), (proj2 (Z.leb_le e1 971)) by lia. reflexivity.
  - rewrite (proj2 (Z.leb_le (e1 + 1) 971)) by lia. cbn [bounded_float].
    rewrite (proj2 (Z.leb_le (e1 + 1) 971)) by lia. reflexivity.
Qed.

(** A multiple [m * 2^e * b] of [b], for a float [m * 2^e] in range,
    divided by [b]. *)
Lemma SFdiv_multiple (sa : bool) (m b : positive) (e : Z) :
  Z.pos m < 2 ^ 53 -> 0 <= e <= 971 ->
  bounded_float (SFdiv Py.prec Py.emax
                   (S754_finite sa (Z.to_pos (Z.pos m * 2 ^ e * Z.pos b)) 0)
                   (S754_finite false b 0)) = true.
Proof.
  intros Hm He. unfold SFdiv.
  pose proof (pow2_pos e ltac:(lia)) as Hpe.
  destruct (SFdiv_core_binary_ints (Z.to_pos (Z.pos m * 2 ^ e * Z.pos b)) b)
    as (s & Hs & ->).
  rewrite xorb_false_r. rewrite Z2Pos.id by nia.
  pose proof (pow2_pos s Hs) as Hps.
  set (M := Z.pos m) in *. set (B := Z.pos b) in *.
  assert (HM : 0 < M) by (unfold M; lia). assert (HB : 0 < B) by (unfold B; lia).
  replace (M * 2 ^ e * B * 2 ^ s) with (M * 2 ^ (e + s) * B)
    by (rewrite Z.pow_add_r by lia; ring).
  rewrite Z.div_mul, Z.mod_mul, new_location_exact by lia.
  pose proof (pow2_pos (e + s) ltac:(lia)) as Hpes.
  set (q0 := M * 2 ^ (e + s)).
  assert (Hq0 : 0 < q0) by (unfold q0; nia).
  assert (Hd : Zdigits2 q0 = Zdigits2 M + (e + s)).
  { unfold q0. apply Zdigits2_shift; lia. }
  assert (HdM : 1 <= Zdigits2 M <= 53).
  { split.
    - pose proof (Zdigits2_lt M ltac:(lia)). pose proof (Zdigits2_nonneg M).
      destruct (Z.eq_dec (Zdigits2 M) 0) as [E|E]; [|lia].
      rewrite E in H. simpl in H. lia.
    - apply Zdigits2_le; lia. }
  destruct (binary_round_aux_spec sa q0 (- s) loc_Exact ltac:(lia))
    as (m1 & Hm1 & Hm1b & ->).
  set (k := Z.max 0 (fexp Py.prec Py.emax (Zdigits2 q0 + - s) - - s)) in *.
  assert (Hk : k = Z.max 0 (Zdigits2 M + e + s - 53)).
  { unfold k. rewrite fexp_eq, Hd. lia. }
  assert (Hk0 : 0 <= k <= e + s) by lia.
  pose proof (pow2_pos k ltac:(lia)) as Hpk.
  assert (Hmod : q0 mod 2 ^ k = 0).
  { unfold q0. replace (e + s) with (e + s - k + k) by lia.
    rewrite Z.pow_add_r by lia. rewrite Z.mul_assoc. apply Z.mod_mul. lia. }
  assert (Hm1q : m1 = q0 / 2 ^ k).
  { destruct Hm1 as [->|[_ Hne]]; [reflexivity|]. exfalso. apply Hne. auto. }
  assert (Hm1lt : m1 < 2 ^ 53).
  { rewrite Hm1q. apply Z.div_lt_upper_bound; [lia|].
    pose proof (Zdigits2_lt q0 ltac:(lia)) as Hlt.
    assert (2 ^ Zdigits2 q0 <= 2 ^ (k + 53)) by (apply Z.pow_le_mono_r; lia).
    rewrite Z.pow_add_r in H by lia. lia. }
  assert (Hm1pos : 0 < m1).
  { rewrite Hm1q. apply Z.div_str_pos. split; [lia|].
    apply Z.le_trans with (2 ^ (e + s)); [apply Z.pow_le_mono_r; lia|].
    unfold q0. nia. }
  rewrite (proj2 (Z.eqb_neq m1 0)) by lia.
  rewrite (proj2 (Z.ltb_lt _ _) Hm1lt).
  rewrite (proj2 (Z.leb_le (- s + k) 971)) by lia.
  cbn [bounded_float]. rewrite Z2Pos.id by lia.
  rewrite (proj2 (Z.ltb_lt _ _) Hm1lt), (proj2 (Z.leb_le (- s + k) 971)) by lia.
  reflexivity.
Qed.

Lemma hundredths_nonneg (m : positive) (e : Z) : 0 <= Text.hundredths m e.
Proof.
  unfold Text.hundredths. destruct (Z.leb_spec 0 e) as [He|He].
  - pose proof (pow2_pos e He). nia.
  - pose proof (pow2_pos (- e) ltac:(lia)) as Hp.
    apply (round_half_even_bounds (Z.pos m * 100) (2 ^ (- e)) 0 (Z.pos m * 100)); nia.
Qed.

Lemma hundredths_small (m : positive) (e : Z) :
  e < 0 -> Text.hundredths m e <= Z.pos m * 100.
Proof.
  intros He. unfold Text.hundredths. rewrite (proj2 (Z.leb_gt 0 e)) by lia.
  pose proof (pow2_pos (- e) ltac:(lia)) as Hp.
  apply (round_half_even_bounds (Z.pos m * 100) (2 ^ (- e)) 0 (Z.pos m * 100)); nia.
Qed.

(** Rounding to two decimals does not overflow. *)
Lemma round2_total (f : spec_float) :
  bounded_float f = true ->
  exists g, Text.round2 (Py.PyFloat f) = Ok (Py.PyFloat g) /\ bounded_float g = true.
Proof.
  destruct f as [s|s| |s m e]; try discriminate.
  - intros _. exists (S754_zero s). auto.
  - cbn [bounded_float]. rewrite andb_true_iff, Z.ltb_lt, Z.leb_le. intros [Hm He].
    cbn [Text.round2]. cbv zeta.
    pose proof (hundredths_nonneg m e) as Hq.
    destruct (Z.eqb_spec (Text.hundredths m e) 0) as [Hz|Hnz].
    { exists (S754_zero s). auto. }
    assert (Hdiv : bounded_float
                     (SFdiv Py.prec Py.emax
                        (S754_finite s (Z.to_pos (Text.hundredths m e)) 0)
                        (S754_finite false 100 0)) = true).
    { destruct (Z.leb_spec 0 e) as [He0|He0].
      - unfold Text.hundredths. rewrite (proj2 (Z.leb_le 0 e)) by lia.
        apply (SFdiv_multiple s m 100 e); lia.
      - apply SFdiv_small_quotient. rewrite Z2Pos.id by lia.
        pose proof (hundredths_small m e He0).
        assert (2 ^ 53 < 2 ^ 1022) by (apply Z.pow_lt_mono_r; lia). lia. }
    unfold Py.truediv. cbn [Z.eqb].
    assert (HZ : Py.Z2SF (cond_Zopp s (Text.hundredths m e))
                 = S754_finite s (Z.to_pos (Text.hundredths m e)) 0).
    { destruct (Text.hundredths m e) as [|q|q]; [lia| |lia].
      destruct s; reflexivity. }
    rewrite HZ. change (Py.Z2SF 100) with (S754_finite false 100 0).
    destruct (SFdiv Py.prec Py.emax (S754_finite s (Z.to_pos (Text.hundredths m e)) 0)
                    (S754_finite false 100 0)) as [s'|s'| |s' m' e'];
      try discriminate; eauto.
Qed.

(** ** The program *)

Lemma print_company_prints (company : string) (statistics : Stats.t) :
  Forall (fun ev => file_event ev = false) (fst (print_company company statistics)).
Proof.
  rewrite print_company_eq.
  pose proof (print_employees_prints
                (sorted_reverse Emp.monthly_salary (employees_of statistics))) as Hl.
  destruct (print_employees _) as [t r].
  unfold io_bind, lift, print, emit. cbn [fst snd app] in *.
  destruct r as [[]|e0]; cbn [fst snd]; [|now constructor].
  constructor; [reflexivity|]. apply Forall_app. split; [assumption|].
  destruct (Text.format_2f (Stats.average_salary statistics)); cbn [fst snd app];
    [|repeat constructor].
  destruct (Text.format_2f (Py.PyInt (Stats.highest_salary statistics))); cbn [fst snd app];
    [|repeat constructor].
  destruct (Text.format_2f (Py.PyInt (Stats.lowest_salary statistics))); cbn [fst snd app];
    repeat constructor.
Qed.

Lemma print_statistics_prints (subsidiary_data : dict Stats.t) :
  Forall (fun ev => file_event ev = false) (fst (print_statistics subsidiary_data)).
Proof.
  induction subsidiary_data as [|[company statistics] rest IH]; [constructor|].
  cbn [print_statistics]. unfold io_bind.
  pose proof (print_company_prints company statistics) as Hc.
  destruct (print_company company statistics) as [t [[]|e]]; cbn [fst snd] in *;
    [|assumption].
  apply Forall_app. auto.
Qed.

Lemma statistics_row_total (salary_data : salary_map) (statistics : dict Stats.t)
      (k : string) (rec : Stats.t) :
  dict_wf salary_data ->
  subsidiary_company_statistics salary_data = Ok statistics ->
  In (k, rec) statistics ->
  exists f row, Stats.average_salary rec = Py.PyFloat f /\ bounded_float f = true /\
                statistics_row k rec = Ok row.
Proof.
  intros Hwf Hs Hin.
  destruct (statistics_entry_origin _ _ _ _ Hwf Hs Hin) as (employees & _ & _ & Hrec).
  apply subsidiary_record_Ok in Hrec. cbn [fst snd] in Hrec.
  destruct Hrec as (_ & _ & Havg & _).
  apply truediv_bounded in Havg. destruct Havg as (f & Hf & Hb).
  destruct (round2_total f Hb) as (g & Hg & _).
  exists f. unfold statistics_row. rewrite Hf, Hg. cbn [bind]. eauto.
Qed.

Lemma generate_csv_total (salary_data : salary_map) (statistics : dict Stats.t)
      (filename : string) :
  dict_wf salary_data ->
  subsidiary_company_statistics salary_data = Ok statistics ->
  exists trace, generate_csv statistics filename = (trace, Ok tt).
Proof.
  intros Hwf Hs.
  destruct (generate_csv statistics filename) as [t [[]|e]] eqn:Hg; [eauto|].
  apply generate_csv_Raise in Hg. destruct Hg as (k & rec & Hin & Hrow).
  destruct (statistics_row_total _ _ _ _ Hwf Hs Hin) as (f & row & _ & _ & Hok).
  congruence.
Qed.

Lemma flat_map_filter_has_employees {A B : Type} (f : string -> A -> B) (d : dict (list A)) :
  flat_map (fun kv => map (f (fst kv)) (snd kv)) (filter has_employees d)
  = flat_map (fun kv => map (f (fst kv)) (snd kv)) d.
Proof.
  induction d as [|[k l] d IH]; [reflexivity|].
  cbn [filter]. unfold has_employees at 1. cbn [snd].
  destruct l; cbn [flat_map fst snd map app]; now rewrite IH.
Qed.

Lemma employee_rows_records (items : salary_map) (recs : dict Stats.t) :
  mapM subsidiary_record items = Ok recs ->
  employee_rows recs = flat_map (fun kv => map (plain_row (fst kv)) (snd kv)) items.
Proof.
  intros H. apply mapM_Forall2 in H. unfold employee_rows.
  induction H as [|item rec items recs Hr _ IH]; [reflexivity|].
  cbn [flat_map]. apply subsidiary_record_Ok in Hr. destruct Hr as (-> & Hemp & _).
  unfold employees_of at 1. rewrite Hemp. now rewrite IH.
Qed.




Lemma io_bind_lift_Ok {A B : Type} (a : A) (k : A -> io B) :
  io_bind (lift (Ok a)) k = k a.
Proof. unfold io_bind, lift. simpl. now destruct (k a). Qed.

Lemma io_bind_lift_Raise {A B : Type} (e : exn) (k : A -> io B) :
  io_bind (lift (Raise e)) k = ([], Raise e).
Proof. reflexivity. Qed.

Lemma main_Ok (employee_data : roster) (trace : list event) :
  main employee_data = (trace, Ok tt) <->
  exists out after g statistics report export,
    calculate_monthly_salaries employee_data = Ok (out, after) /\
    global_company_statistics out = Ok g /\
    subsidiary_company_statistics out = Ok statistics /\
    print_statistics statistics = (report, Ok tt) /\
    generate_csv statistics default_filename = (export, Ok tt) /\
    trace = report ++ export.
Proof.
  unfold main.
  destruct (calculate_monthly_salaries employee_data) as [[out after]|e].
  2:{ rewrite io_bind_lift_Raise. split; [discriminate|].
      intros (? & ? & ? & ? & ? & ? & [=] & _). }
  rewrite io_bind_lift_Ok. cbn [fst].
  destruct (global_company_statistics out) as [g|e] eqn:Hg.
  2:{ rewrite io_bind_lift_Raise. split; [discriminate|].
      intros (? & ? & ? & ? & ? & ? & [= <- <-] & Hg' & _). congruence. }
  rewrite io_bind_lift_Ok.
  destruct (subsidiary_company_statistics out) as [statistics|e] eqn:Hs.
  2:{ rewrite io_bind_lift_Raise. split; [discriminate|].
      intros (? & ? & ? & ? & ? & ? & [= <- <-] & _ & Hs' & _). congruence. }
  rewrite io_bind_lift_Ok.
  rewrite io_bind_Ok. split.
  - intros (t1 & [] & t2 & H1 & H2 & ->).
    exists out, after, g, statistics, t1, t2. repeat split; assumption.
  - intros (out' & after' & g' & st' & report & export
            & [= <- <-] & _ & Hs' & H1 & H2 & ->).
    rewrite Hs in Hs'. injection Hs' as <-.
    exists report, tt, export. auto.
Qed.


Lemma calculate_out_wf (employee_data : roster) (out : salary_map) (after : roster) :
  dict_wf employee_data ->
  calculate_monthly_salaries employee_data = Ok (out, after) ->
  dict_wf out.
Proof.
  intros Hwf H. pose proof (calculate_output_rel _ _ _ Hwf H) as Hrel.
  unfold dict_wf. now rewrite (dict_rel_keys _ _ _ Hrel).
Qed.



Lemma small_roster_pipeline (employee_data : roster) :
  dict_wf employee_data ->
  roster_ok employee_data = true ->
  exists out after g statistics,
    calculate_monthly_salaries employee_data = Ok (out, after) /\
    global_company_statistics out = Ok g /\
    subsidiary_company_statistics out = Ok statistics /\
    dict_wf out /\
    Forall (fun s => Z.abs s <= 2 ^ 45) (flatten_salaries out).
Proof.
  intros Hwf Hok.
  destruct (calculate_total employee_data Hwf) as (out & after & Hcalc).
  { intros k l r Hin Hr.
    destruct (process_employee_small r (roster_ok_record _ _ _ _ Hok Hin Hr))
      as (e & r' & Hp & _). eauto. }
  pose proof (calculate_output_rel _ _ _ Hwf Hcalc) as Hrel.
  assert (Hrel' : dict_rel (Forall2 (fun r e => Z.abs (Emp.monthly_salary e) <= 2 ^ 45))
                           employee_data out).
  { revert Hrel. apply dict_rel_impl. intros k l es Hin.
    apply Forall2_impl_In. intros r e Hr (r' & Hp).
    destruct (process_employee_small r (roster_ok_record _ _ _ _ Hok Hin Hr))
      as (e0 & r0 & Hp0 & Hb).
    rewrite Hp in Hp0. inversion Hp0; subst. exact Hb. }
  assert (Hwf' : dict_wf out) by now apply (calculate_out_wf employee_data out after).
  assert (Hbound : Forall (fun s => Z.abs s <= 2 ^ 45) (flatten_salaries out)).
  { revert Hrel'. apply dict_rel_flatten. auto. }
  assert (Hsmall : Forall (fun s => - 2 ^ 53 < s < 2 ^ 53) (flatten_salaries out)).
  { revert Hbound. apply Forall_impl. intros s Hs.
    assert (2 ^ 45 < 2 ^ 53) by reflexivity. lia. }
  assert (Hglobal : exists g, global_company_statistics out = Ok g).
  { rewrite global_company_statistics_spec by assumption.
    destruct (flatten_salaries out) as [|x l] eqn:Hflat; [eauto|].
    destruct (mean_defined (x :: l) ltac:(discriminate) Hsmall) as (avg & Havg).
    cbv beta iota zeta. rewrite sum_total, Havg. simpl. eauto. }
  assert (Hsub : exists statistics, subsidiary_company_statistics out = Ok statistics).
  { rewrite subsidiary_company_statistics_spec by assumption.
    apply mapM_total. intros [k es] Hin. apply filter_In in Hin as [Hin Hhas].
    apply subsidiary_record_total; [assumption|]. simpl.
    apply mean_defined.
    - apply has_employees_true in Hhas. simpl in Hhas.
      destruct es; [congruence | discriminate].
    - eapply flatten_Forall; eassumption. }
  destruct Hglobal as (g & Hg). destruct Hsub as (statistics & Hs).
  exists out, after, g, statistics. auto.
Qed.

Lemma statistics_int_figures (salary_data : salary_map) (statistics : dict Stats.t)
      (k : string) (rec : Stats.t) (z : Z) :
  dict_wf salary_data ->
  subsidiary_company_statistics salary_data = Ok statistics ->
  In (k, rec) statistics -> In z (int_figures rec) ->
  In z (flatten_salaries salary_data).
Proof.
  intros Hwf Hs Hin Hz.
  destruct (statistics_entry_origin _ _ _ _ Hwf Hs Hin) as (employees & Hk & _ & Hrec).
  apply subsidiary_record_Ok in Hrec. cbn [fst snd] in Hrec.
  destruct Hrec as (_ & Hemp & Havg & [Hhi _] & [Hlo _]).
  apply truediv_bounded in Havg. destruct Havg as (f & Hf & _).
  apply In_flatten. exists k, employees. split; [assumption|].
  unfold int_figures, employees_of in Hz. rewrite Hf, Hemp in Hz.
  cbn [app] in Hz. destruct Hz as [<-|[<-|Hz]]; assumption.
Qed.

(** On a roster of records with a name, a job and wage entries that are
    absent or numbers of magnitude at most 2^20, the program runs to its
    end: the report is printed and the file is written without an
    exception. *)
Theorem main_total (employee_data : roster) :
  dict_wf employee_data ->
  roster_ok employee_data = true ->
  exists trace, main employee_data = (trace, Ok tt).
Proof.
  intros Hwf Hok.
  destruct (small_roster_pipeline employee_data Hwf Hok)
    as (out & after & g & statistics & Hc & Hg & Hs & Hwf' & Hb).
  destruct (generate_csv_total out statistics default_filename Hwf' Hs) as (export & He).
  destruct (print_statistics statistics) as [report [[]|e]] eqn:Hp.
  - exists (report ++ export). apply main_Ok.
    exists out, after, g, statistics, report, export. repeat split; assumption.
  - exfalso. apply print_statistics_Raise in Hp.
    destruct Hp as (_ & k & rec & z & Hin & Hz & Hbig).
    pose proof (statistics_int_figures _ _ _ _ _ Hwf' Hs Hin Hz) as Hflat.
    rewrite Forall_forall in Hb. specialize (Hb z Hflat).
    assert (2 ^ 45 < 2 ^ 1023) by (apply Z.pow_lt_mono_r; lia). lia.
Qed.

Lemma main_total_witness :
  exists trace,
    main (("ProjectLead"%string, [Sample.cyd; Sample.gil]) :: Sample.company)
    = (trace, Ok tt).
Proof.
  apply main_total.
  - apply unique_keys_wf. reflexivity.
  - reflexivity.
Defined.

Lemma roster_records_rows (employee_data : roster) (out : salary_map) :
  dict_rel (Forall2 (fun r e => exists r', process_employee r = Ok (e, r')))
           employee_data out ->
  Forall2 (fun kr row => exists e r', process_employee (snd kr) = Ok (e, r') /\
                                      row = plain_row (fst kr) e)
          (roster_records employee_data)
          (flat_map (fun kv => map (plain_row (fst kv)) (snd kv)) out).
Proof.
  unfold dict_rel, roster_records.
  induction 1 as [|[k l] [k' es] d out' [Hk Hl] _ IH]; [constructor|].
  cbn [flat_map fst snd] in *. subst k'. apply Forall2_app; [|exact IH].
  clear IH. induction Hl as [|r e l es (r' & Hr) _ IH]; [constructor|].
  cbn [map]. constructor; [|exact IH]. exists e, r'. auto.
Qed.

Lemma statistics_rows_keys (items : dict Stats.t) (rows : list (list cell)) :
  mapM (fun kv => statistics_row (fst kv) (snd kv)) items = Ok rows ->
  map first_cell rows = map (fun k => Some (CStr k)) (dict_keys items).
Proof.
  intros H. apply mapM_Forall2 in H.
  induction H as [|[k rec] row items rows Hr _ IH]; [reflexivity|].
  cbn [map dict_keys fst] in *. rewrite IH. f_equal.
  unfold statistics_row in Hr. cbn [fst snd] in Hr.
  destruct (Text.round2 (Stats.average_salary rec)); [|discriminate].
  now injection Hr as <-.
Qed.

(** From the roster to the file: when the program runs to its end, the
    report is printed first and then the file is written; its employee
    section has one row for every record of the roster, in the order of the
    roster, with the name of the subsidiary and the name, job and salary the
    calculator gives for the record; its statistics section has one row for
    every subsidiary that has employees, in the order of the roster. *)
Theorem main_export (employee_data : roster) (trace : list event) :
  dict_wf employee_data ->
  main employee_data = (trace, Ok tt) ->
  exists report employee_section statistics_section,
    trace = report
            ++ OpenFile default_filename
            :: WriteRow employee_header
            :: map WriteRow employee_section
            ++ WriteRow []
            :: WriteRow statistics_header
            :: map WriteRow statistics_section
            ++ [Print ("CSV file " ++ Text.quote ++ default_filename ++ Text.quote
                       ++ " generated successfully.")] /\
    Forall (fun ev => file_event ev = false) report /\
    Forall2 (fun kr row => exists e r', process_employee (snd kr) = Ok (e, r') /\
                                        row = plain_row (fst kr) e)
            (roster_records employee_data) employee_section /\
    map first_cell statistics_section
    = map (fun k => Some (CStr k)) (dict_keys (filter has_employees employee_data)).
Proof.
  intros Hwf H. apply main_Ok in H.
  destruct H as (out & after & g & statistics & report & export
                 & Hc & _ & Hs & Hp & He & ->).
  apply generate_csv_Ok in He. destruct He as (rows & Hrows & ->).
  pose proof (calculate_out_wf _ _ _ Hwf Hc) as Hwf'.
  pose proof (calculate_output_rel _ _ _ Hwf Hc) as Hrel.
  rewrite subsidiary_company_statistics_spec in Hs by assumption.
  exists report, (employee_rows statistics), rows.
  split; [reflexivity|]. split; [|split].
  - pose proof (print_statistics_prints statistics) as Hpr. now rewrite Hp in Hpr.
  - rewrite (employee_rows_records _ _ Hs), flat_map_filter_has_employees.
    now apply roster_records_rows.
  - rewrite (statistics_rows_keys _ _ Hrows).
    rewrite (mapM_subsidiary_record_keys _ _ Hs).
    now rewrite (has_employees_rel _ _ _ Hrel).
Qed.

Lemma main_export_witness :
  exists report employee_section statistics_section,
    fst (main Sample.company)
    = report
      ++ OpenFile default_filename
      :: WriteRow employee_header
      :: map WriteRow employee_section
      ++ WriteRow []
      :: WriteRow statistics_header
      :: map WriteRow statistics_section
      ++ [Print ("CSV file " ++ Text.quote ++ default_filename ++ Text.quote
                 ++ " generated successfully.")] /\
    Forall (fun ev => file_event ev = false) report /\
    Forall2 (fun kr row => exists e r', process_employee (snd kr) = Ok (e, r') /\
                                        row = plain_row (fst kr) e)
            (roster_records Sample.company) employee_section /\
    map first_cell statistics_section
    = map (fun k => Some (CStr k)) (dict_keys (filter has_employees Sample.company)).
Proof.
  apply (main_export Sample.company).
  - apply unique_keys_wf. reflexivity.
  - vm_compute. reflexivity.
Defined.



(** ** The report and the extremes *)

Lemma StronglySorted_snoc {A : Type} (R : A -> A -> Prop) (init : list A) (x : A) :
  StronglySorted R (init ++ [x]) -> Forall (fun y => R y x) init.
Proof.
  induction init as [|a init IH]; [constructor|].
  cbn [app]. intros Hs. inversion Hs as [|? ? Hs' Hall]; subst.
  constructor; [|now apply IH].
  rewrite Forall_forall in Hall. apply Hall. apply in_or_app. right. now left.
Qed.

(** In the block of a subsidiary, the first employee listed earns the
    highest salary of the record and the last one the lowest: the lines of
    the employees and the summary under them agree. *)
Theorem report_extremes (salary_data : salary_map) (statistics : dict Stats.t)
        (k : string) (rec : Stats.t) :
  dict_wf salary_data ->
  subsidiary_company_statistics salary_data = Ok statistics ->
  In (k, rec) statistics ->
  exists first rest init final,
    sorted_reverse Emp.monthly_salary (employees_of rec) = first :: rest /\
    sorted_reverse Emp.monthly_salary (employees_of rec) = init ++ [final] /\
    Emp.monthly_salary first = Stats.highest_salary rec /\
    Emp.monthly_salary final = Stats.lowest_salary rec.
Proof.
  intros Hwf Hs Hin.
  destruct (statistics_entry_origin _ _ _ _ Hwf Hs Hin) as (employees & _ & Hne & Hrec).
  apply subsidiary_record_Ok in Hrec. cbn [fst snd] in Hrec.
  destruct Hrec as (_ & Hemp & _ & Hmax & Hmin).
  unfold employees_of. rewrite Hemp.
  pose proof (sorted_reverse_Permutation Emp.monthly_salary employees) as HP.
  pose proof (sorted_reverse_sorted Emp.monthly_salary employees) as HS.
  set (listed := sorted_reverse Emp.monthly_salary employees) in *.
  assert (Hl : listed <> []).
  { intros E. rewrite E in HP. apply Permutation_sym, Permutation_nil in HP. congruence. }
  destruct (exists_last Hl) as (init & final & Hsnoc).
  destruct listed as [|first rest] eqn:El; [congruence|].
  exists first, rest, init, final. split; [reflexivity|]. split; [assumption|].
  assert (Hall : forall e, In e employees -> In e (first :: rest)).
  { intros e He. now apply (Permutation_in _ HP). }
  split.
  - apply (is_maximum_unique (salaries_of employees)); [|assumption].
    split.
    + apply in_map. apply (Permutation_in _ (Permutation_sym HP)). now left.
    + apply Forall_forall. intros x Hx. apply in_map_iff in Hx.
      destruct Hx as (e & <- & He). apply Hall in He.
      inversion HS as [|? ? _ Hf]; subst. rewrite Forall_forall in Hf.
      destruct He as [<-|He]; [lia | now apply Hf].
  - apply (is_minimum_unique (salaries_of employees)); [|assumption].
    rewrite Hsnoc in HS, Hall, HP.
    split.
    + apply in_map. apply (Permutation_in _ (Permutation_sym HP)).
      apply in_or_app. right. now left.
    + apply Forall_forall. intros x Hx. apply in_map_iff in Hx.
      destruct Hx as (e & <- & He). apply Hall in He.
      apply StronglySorted_snoc in HS. rewrite Forall_forall in HS.
      apply in_app_or in He. destruct He as [He|[<-|[]]]; [now apply HS | lia].
Qed.

Lemma report_extremes_witness :
  exists first rest init final,
    sorted_reverse Emp.monthly_salary [Emp.mk "Ann" "dev" 2800; Emp.mk "Bob" "ops" 3800]
    = first :: rest /\
    sorted_reverse Emp.monthly_salary [Emp.mk "Ann" "dev" 2800; Emp.mk "Bob" "ops" 3800]
    = init ++ [final] /\
    Emp.monthly_salary first = 3800 /\
    Emp.monthly_salary final = 2800.
Proof.
  apply (report_extremes Sample.company_salaries Sample.company_statistics "TechCorp"
           (Stats.mk (Py.PyFloat Sample.f3300) 3800 2800
                     (Some [Emp.mk "Ann" "dev" 2800; Emp.mk "Bob" "ops" 3800]))).
  - apply unique_keys_wf. reflexivity.
  - vm_compute. reflexivity.
  - left. reflexivity.
Defined.

(** ** The average in the report and in the file *)

Lemma round_half_even_near (n d q : Z) :
  0 < d -> 2 * Z.abs (n - q * d) < d -> Text.round_half_even n d = q.
Proof.
  intros Hd Hnear. unfold Text.round_half_even.
  pose proof (Z.div_mod n d ltac:(lia)) as Hdm.
  pose proof (Z.mod_pos_bound n d Hd) as Hr.
  set (q0 := n / d) in *. set (r := n mod d) in *.
  destruct (Z.le_gt_cases (q * d) n) as [Hle|Hgt].
  - assert (q0 = q) by nia. subst q0.
    destruct (Z.compare_spec (2 * r) d) as [E|E|E]; nia.
  - assert (q0 = q - 1) by nia.
    destruct (Z.compare_spec (2 * r) d) as [E|E|E]; nia.
Qed.

Lemma SFdiv_core_binary_shift (a b : positive) :
  let s := - Z.min (fexp Py.prec Py.emax (Zdigits2 (Z.pos a) - Zdigits2 (Z.pos b))) 0 in
  SFdiv_core_binary Py.prec Py.emax (Z.pos a) 0 (Z.pos b) 0
  = (Z.pos a * 2 ^ s / Z.pos b, - s, new_location (Z.pos b) ((Z.pos a * 2 ^ s) mod Z.pos b)).
Proof.
  intros s. unfold SFdiv_core_binary.
  replace (Zdigits2 (Z.pos a) + 0 - (Zdigits2 (Z.pos b) + 0))
    with (Zdigits2 (Z.pos a) - Zdigits2 (Z.pos b)) by lia.
  change (0 - 0) with 0.
  set (e0 := Z.min _ 0).
  assert (He0 : e0 <= 0) by (unfold e0; lia).
  assert (Hs : s = - e0) by reflexivity.
  replace (0 - e0) with (- e0) by lia. rewrite <- Hs.
  replace e0 with (- s) by lia.
  assert (Hm : match s with
               | 0 => Z.pos a
               | Z.pos _ => Z.shiftl (Z.pos a) s
               | Z.neg _ => 0
               end = Z.pos a * 2 ^ s).
  { destruct s as [|p|p] eqn:E; try lia.
    rewrite Z.shiftl_mul_pow2 by lia. reflexivity. }
  rewrite Hm. unfold Z.div, Z.modulo.
  destruct (Z.div_eucl (Z.pos a * 2 ^ s) (Z.pos b)) as [q r]. reflexivity.
Qed.

(** The float nearest to [q / 100], for [q] below 100 * 2^45, is still [q]
    hundredths when rounded to two decimals. *)
Lemma SFdiv_hundredths (s : bool) (q : positive) :
  Z.pos q < 100 * 2 ^ 45 ->
  match SFdiv Py.prec Py.emax (S754_finite s q 0) (S754_finite false 100 0) with
  | S754_finite s' m' e' => s' = s /\ Text.hundredths m' e' = Z.pos q
  | _ => False
  end.
Proof.
  intros Hq. unfold SFdiv. rewrite SFdiv_core_binary_shift. rewrite xorb_false_r.
  set (Q := Z.pos q) in *.
  assert (HQ : 0 < Q) by (unfold Q; lia).
  set (d1 := Zdigits2 Q).
  assert (Hd1 : 1 <= d1 <= 52).
  { unfold d1. split.
    - pose proof (Zdigits2_lt Q ltac:(lia)). pose proof (Zdigits2_nonneg Q).
      destruct (Z.eq_dec (Zdigits2 Q) 0) as [E|E]; [|lia].
      rewrite E in H. simpl in H. lia.
    - apply Zdigits2_le; [lia|].
      assert (100 * 2 ^ 45 < 2 ^ 52) by reflexivity. lia. }
  change (Zdigits2 100) with 7. rewrite fexp_eq.
  set (sh := - Z.min (Z.max (d1 - 7 - 53) (-1074)) 0).
  assert (Hsh : sh = 60 - d1) by (unfold sh; lia).
  assert (Hsh8 : 8 <= sh) by lia.
  pose proof (pow2_pos sh ltac:(lia)) as Hps.
  set (mz := Q * 2 ^ sh / 100).
  assert (H256 : 256 <= 2 ^ sh).
  { change 256 with (2 ^ 8). apply Z.pow_le_mono_r; lia. }
  assert (Hmz : 0 < mz).
  { unfold mz. apply Z.div_str_pos. split; [lia|].
    apply Z.le_trans with (1 * 2 ^ sh); [lia|].
    apply Z.mul_le_mono_nonneg_r; lia. }
  assert (Hmz_hi : mz < 2 ^ (45 + sh)).
  { unfold mz. apply Z.div_lt_upper_bound; [lia|]. rewrite Z.pow_add_r by lia.
    apply Z.lt_le_trans with (100 * 2 ^ 45 * 2 ^ sh).
    - apply Z.mul_lt_mono_pos_r; lia.
    - rewrite Z.mul_assoc. apply Z.le_refl. }
  destruct (binary_round_aux_spec s mz (- sh) (new_location 100 ((Q * 2 ^ sh) mod 100))
              ltac:(lia)) as (m1 & Hm1 & Hm1b & ->).
  set (k := Z.max 0 (fexp Py.prec Py.emax (Zdigits2 mz + - sh) - - sh)) in *.
  assert (Hdz : Zdigits2 mz <= 45 + sh) by (apply Zdigits2_le; lia).
  assert (Hdz0 : 0 <= Zdigits2 mz) by apply Zdigits2_nonneg.
  assert (Hk : 0 <= k <= sh - 8) by (unfold k; rewrite fexp_eq; lia).
  set (e1 := - sh + k) in *.
  assert (He1 : e1 <= -8) by (unfold e1; lia).
  set (T := 2 ^ (- e1)).
  assert (HT : 256 <= T).
  { unfold T. change 256 with (2 ^ 8). apply Z.pow_le_mono_r; lia. }
  pose proof (pow2_pos k ltac:(lia)) as Hpk.
  assert (Hsplit : 2 ^ sh = T * 2 ^ k).
  { unfold T. rewrite <- Z.pow_add_r by lia. f_equal. unfold e1. lia. }
  assert (Hq' : mz / 2 ^ k = Q * T / 100).
  { unfold mz. rewrite Z.div_div by lia. rewrite Hsplit.
    replace (Q * (T * 2 ^ k)) with (Q * T * 2 ^ k) by ring.
    replace (100 * 2 ^ k) with (100 * 2 ^ k) by ring.
    rewrite Z.div_mul_cancel_r by lia. reflexivity. }
  rewrite Hq' in Hm1.
  pose proof (Z.div_mod (Q * T) 100 ltac:(lia)) as Hdm.
  pose proof (Z.mod_pos_bound (Q * T) 100 ltac:(lia)) as Hrm.
  set (q' := Q * T / 100) in *.
  assert (Hnear : Z.abs (m1 * 100 - Q * T) <= 100) by lia.
  assert (Hq'pos : 0 < q').
  { unfold q'. apply Z.div_str_pos. split; [lia|].
    apply Z.le_trans with (1 * T); [lia|].
    apply Z.mul_le_mono_nonneg_r; lia. }
  assert (Hm1pos : 0 < m1) by lia.
  rewrite (proj2 (Z.eqb_neq m1 0)) by lia.
  destruct (Z.ltb_spec m1 (2 ^ 53)) as [Hlt|Hge].
  - rewrite (proj2 (Z.leb_le e1 971)) by lia. split; [reflexivity|].
    unfold Text.hundredths. rewrite (proj2 (Z.leb_gt 0 e1)) by lia.
    rewrite Z2Pos.id by lia. fold T.
    apply round_half_even_near; lia.
  - assert (Hm1eq : m1 = 2 ^ 53) by lia.
    rewrite (proj2 (Z.leb_le (e1 + 1) 971)) by lia. split; [reflexivity|].
    unfold Text.hundredths. rewrite (proj2 (Z.leb_gt 0 (e1 + 1))) by lia.
    rewrite Z2Pos.id by (apply pow2_pos; lia).
    assert (HTT : T = 2 * 2 ^ (- (e1 + 1))).
    { unfold T. rewrite <- Z.pow_succ_r by lia. f_equal. lia. }
    set (T' := 2 ^ (- (e1 + 1))) in *.
    apply round_half_even_near; [lia|].
    change (2 ^ 53) with (2 * 2 ^ 52) in Hm1eq. lia.
Qed.

Lemma round2_same_hundredths (x : Py.number) :
  Py.le (Py.PyInt (1 - 2 ^ 45)) x = true -> Py.le x (Py.PyInt (2 ^ 45 - 1)) = true ->
  exists written shown,
    Text.round2 x = Ok written /\
    Text.format_2f x = Ok shown /\
    Text.format_2f written = Ok shown.
Proof.
  intros Hlo Hhi. destruct x as [z|f].
  - rewrite le_ints in Hlo, Hhi. apply Z.leb_le in Hlo, Hhi.
    assert (Hz : Z.abs z <= 2 ^ 1023).
    { assert (2 ^ 45 < 2 ^ 1023) by (apply Z.pow_lt_mono_r; lia). lia. }
    destruct (float_of_int_small 1023 z ltac:(lia) Hz) as (f & Hf & _).
    exists (Py.PyInt z), (Text.format_float_2f f).
    unfold Text.format_2f. cbn [Text.round2 Py.as_float]. rewrite Hf. auto.
  - destruct f as [s|s| |s m e].
    + exists (Py.PyFloat (S754_zero s)), (Text.format_float_2f (S754_zero s)). auto.
    + destruct s; [discriminate Hlo | discriminate Hhi].
    + discriminate Hlo.
    + pose proof (hundredths_bounds s m e _ _ Hlo Hhi) as Hq.
      pose proof (hundredths_nonneg m e) as Hq0.
      exists (match Text.round2 (Py.PyFloat (S754_finite s m e)) with
              | Ok y => y
              | Raise _ => Py.PyInt 0
              end), (Text.format_float_2f (S754_finite s m e)).
      unfold Text.format_2f. cbn [Text.round2 Py.as_float bind].
      cbv zeta.
      destruct (Z.eqb_spec (Text.hundredths m e) 0) as [Hz|Hnz].
      * repeat split. cbn [Py.as_float bind Text.format_float_2f]. now rewrite Hz.
      * assert (Hlt : Text.hundredths m e < 100 * 2 ^ 45).
        { destruct s; cbn [cond_Zopp] in Hq; lia. }
        unfold Py.truediv. cbn [Z.eqb].
        assert (HZ : Py.Z2SF (cond_Zopp s (Text.hundredths m e))
                     = S754_finite s (Z.to_pos (Text.hundredths m e)) 0).
        { destruct (Text.hundredths m e) as [|q|q]; [lia| |lia].
          destruct s; reflexivity. }
        rewrite HZ. change (Py.Z2SF 100) with (S754_finite false 100 0).
        pose proof (SFdiv_hundredths s (Z.to_pos (Text.hundredths m e))) as Hdiv.
        rewrite Z2Pos.id in Hdiv by lia. specialize (Hdiv Hlt).
        destruct (SFdiv Py.prec Py.emax
                        (S754_finite s (Z.to_pos (Text.hundredths m e)) 0)
                        (S754_finite false 100 0)) as [s'|s'| |s' m' e'];
          try contradiction.
        destruct Hdiv as [-> Hh]. repeat split.
        cbn [Py.as_float bind Text.format_float_2f]. now rewrite Hh.
Qed.

(** The report and the file show the same average: for an average below
    2^45 in magnitude, the number [round(average, 2)] written to the file,
    formatted with two decimals, is the text that the report prints for the
    average itself. *)
Theorem average_same_in_report_and_file (subsidiary : string) (stats : Stats.t) :
  Py.le (Py.PyInt (1 - 2 ^ 45)) (Stats.average_salary stats) = true ->
  Py.le (Stats.average_salary stats) (Py.PyInt (2 ^ 45 - 1)) = true ->
  exists written shown,
    statistics_row subsidiary stats
    = Ok [CStr subsidiary; CNum written;
          CNum (Py.PyInt (Stats.highest_salary stats));
          CNum (Py.PyInt (Stats.lowest_salary stats))] /\
    Text.format_2f (Stats.average_salary stats) = Ok shown /\
    Text.format_2f written = Ok shown.
Proof.
  intros Hlo Hhi.
  destruct (round2_same_hundredths _ Hlo Hhi) as (written & shown & Hw & Hs & Hws).
  exists written, shown. unfold statistics_row. rewrite Hw. auto.
Qed.

Lemma average_same_in_report_and_file_witness :
  exists written shown,
    statistics_row "ProjectLead"
      (Stats.mk (Py.PyFloat (S754_finite false 6963573642581333 (-43))) 2375 0 None)
    = Ok [CStr "ProjectLead"; CNum written; CNum (Py.PyInt 2375); CNum (Py.PyInt 0)] /\
    Text.format_2f (Py.PyFloat (S754_finite false 6963573642581333 (-43))) = Ok shown /\
    Text.format_2f written = Ok shown.
Proof.
  apply (average_same_in_report_and_file "ProjectLead"
           (Stats.mk (Py.PyFloat (S754_finite false 6963573642581333 (-43))) 2375 0 None)).
  - vm_compute. reflexivity.
  - vm_compute. reflexivity.
Defined.
